(** * The object store controller of longhorn-manager

    A shallow embedding of [controller/object_store_controller.go]: the
    reconcile entry point, the per-state handlers, the get-or-create
    operations with their resource builders, the health checks and the
    responsibility check, over an explicit model of the datastore.

    Go values are modelled as follows.
    - A function returning [(T, error)] returns a [result T]; a function
      returning only [error] returns an [option error] ([None] is [nil]).
    - A function that can dereference a nil pointer returns an [outcome]:
      it either returns an [option error] or panics.
    - The [*longhorn.ObjectStore] a handler receives is a private deep copy;
      a handler that assigns to [store.Status] returns the updated store.
    - [int32] and [int64] fields are [Z]; they are only compared, never
      computed with.
    - The datastore is threaded through every call that writes to it. *)

From Stdlib Require Import ZArith List Bool Ascii Lia.
From stdpp Require Import base strings pretty gmap.
Import ListNotations.

Open Scope Z_scope.
Open Scope string_scope.
Open Scope list_scope.

(** ** Errors *)

(** [error] values: the two sentinel conditions the controller branches on,
    opaque API failures, [errors.New], [errors.Wrap], and [fmt.Errorf]
    with its format and its one argument, left unformatted. *)
Inductive error : Type :=
| ErrNotFound
| ErrAlreadyExists
| ErrConflict
| ErrAPI (msg : string)
| ErrNew (msg : string)
| ErrWrap (cause : error) (msg : string)
| ErrErrorf (format arg : string).

#[global] Instance error_eq_dec : EqDecision error.
Proof. solve_decision. Defined.

(** Modelled from the spec: [datastore.ErrorIsNotFound], of package
    datastore (not under src/). "Errors NotFound / AlreadyExists are
    distinguished sentinel conditions"; a wrapped error keeps its cause. *)
Fixpoint ErrorIsNotFound (err : error) : bool :=
  match err with
  | ErrNotFound => true
  | ErrWrap cause _ => ErrorIsNotFound cause
  | _ => false
  end.

(** Modelled from the spec: [datastore.ErrorIsAlreadyExists], as above. *)
Fixpoint ErrorIsAlreadyExists (err : error) : bool :=
  match err with
  | ErrAlreadyExists => true
  | ErrWrap cause _ => ErrorIsAlreadyExists cause
  | _ => false
  end.

Inductive result (A : Type) : Type :=
| Ok (a : A)
| Err (e : error).
Arguments Ok {A} a.
Arguments Err {A} e.

Inductive outcome : Type :=
| Return (err : option error)
| Panic.

#[global] Instance outcome_eq_dec : EqDecision outcome.
Proof. solve_decision. Defined.

(** ** Resources *)

(** Modelled from the spec: [longhorn.ObjectStoreState], of package
    k8s/pkg/apis/longhorn/v1beta2 (not under src/), a string type:
    "States: Starting, Running, Stopping, Stopped, Error, Terminating,
    plus an implicit uninitialized state (empty status)", and the
    "unknown" of the test TestSyncUnkonwObjectStore. *)
Inductive ObjectStoreState : Type :=
| ObjectStoreStateUnset
| ObjectStoreStateUnknown
| ObjectStoreStateStarting
| ObjectStoreStateRunning
| ObjectStoreStateStopping
| ObjectStoreStateStopped
| ObjectStoreStateTerminating
| ObjectStoreStateError.

#[global] Instance ObjectStoreState_eq_dec : EqDecision ObjectStoreState.
Proof. solve_decision. Defined.

(** [resource.Quantity] of apimachinery (not under src/): an amount held
    as an int64 times a power of ten, [value * 10^scale], or as an
    arbitrary-precision decimal when it does not fit that form. *)
Inductive Quantity : Type :=
| QuantityInt64 (value scale : Z)
| QuantityDec (unscaled scale : Z).

#[global] Instance Quantity_eq_dec : EqDecision Quantity.
Proof. solve_decision. Defined.

Definition MaxInt64 : Z := 9223372036854775807.
Definition MinInt64 : Z := -9223372036854775808.

(** [Quantity.AsInt64]: the amount as an int64 and true when the amount
    is held as an int64 with a scale that is not negative and the scaled
    value fits an int64; else 0 and false. *)
Definition AsInt64 (q : Quantity) : Z * bool :=
  match q with
  | QuantityDec _ _ => (0, false)
  | QuantityInt64 value scale =>
      if Z.eqb scale 0 then (value, true)
      else if Z.ltb scale 0 then (0, false)
      else
        let scaled := value * 10 ^ scale in
        if Z.leb MinInt64 scaled && Z.leb scaled MaxInt64 then (scaled, true)
        else (0, false)
  end.

(** [resourceAsInt64]: [s, _ := r.AsInt64(); return s]. The flag is
    dropped: a quantity that does not convert gives 0. *)
Definition resourceAsInt64 (r : Quantity) : Z :=
  let '(s, _) := AsInt64 r in s.

(** Modelled from the spec: the types [longhorn.ObjectStore], its spec
    and its status, of the same package: "zero or more named public
    endpoints (domain name, optional TLS secret reference)", "volume
    tuning parameters", "target size, container images, credential
    reference, target run state", "current state, list of resolved
    endpoint strings", "a deletion timestamp plus a finalizer list". The
    field names are those the controller reads. *)
Record ObjectStoreEndpointSpec : Type := {
  endpoint_Name : string;
  endpoint_DomainName : string;
  endpoint_TLS_Name : string
}.

(** The volume tuning parameters createVolume copies field by field. *)
Record ObjectStoreVolumeParameterSpec : Type := {
  NumberOfReplicas : Z;
  ReplicaSoftAntiAffinity : string;
  ReplicaZoneSoftAntiAffinity : string;
  ReplicaDiskSoftAntiAffinity : string;
  DiskSelector : list string;
  NodeSelector : list string;
  DataLocality : string;
  FromBackup : string;
  StaleReplicaTimeout : Z;
  ReplicaAutoBalance : string;
  RevisionCounterDisabled : bool;
  UnmapMarkSnapChainRemoved : string;
  BackendStoreDriver : string
}.

Record ObjectStoreSpec : Type := {
  Size : Quantity;
  Image : string;
  UIImage : string;
  TargetState : ObjectStoreState;
  Credentials_Name : string;
  Endpoints : list ObjectStoreEndpointSpec;
  VolumeParameters : ObjectStoreVolumeParameterSpec
}.

Record ObjectStoreStatus : Type := {
  State : ObjectStoreState;
  Status_Endpoints : list string
}.

#[global] Instance ObjectStoreStatus_eq_dec : EqDecision ObjectStoreStatus.
Proof. solve_decision. Defined.

(** Modelled from the spec: [longhorn.ObjectStore], as above.
    [DeletionTimestamp] is a [*metav1.Time]: [None] is nil, [Some t] an
    instant counted from the zero time. *)
Record ObjectStore : Type := {
  Name : string;
  DeletionTimestamp : option Z;
  Finalizers : list string;
  Spec : ObjectStoreSpec;
  Status : ObjectStoreStatus
}.

(** [store.Status.State = s] *)
Definition setState (s : ObjectStoreState) (store : ObjectStore) : ObjectStore :=
  {| Name := Name store;
     DeletionTimestamp := DeletionTimestamp store;
     Finalizers := Finalizers store;
     Spec := Spec store;
     Status := {| State := s; Status_Endpoints := Status_Endpoints (Status store) |} |}.

(** [store.Status.Endpoints = append(store.Status.Endpoints, e)] *)
Definition appendEndpoint (e : string) (store : ObjectStore) : ObjectStore :=
  {| Name := Name store;
     DeletionTimestamp := DeletionTimestamp store;
     Finalizers := Finalizers store;
     Spec := Spec store;
     Status := {| State := State (Status store);
                  Status_Endpoints := Status_Endpoints (Status store) ++ [e] |} |}.

(** [t.IsZero()] on a [*metav1.Time]. *)
Definition IsZero (t : option Z) : bool :=
  match t with
  | None => true
  | Some t => Z.eqb t 0
  end.

Record OwnerReference : Type := {
  owner_Kind : string;
  owner_Name : string
}.

Inductive PersistentVolumeClaimPhase : Type :=
| ClaimUnset | ClaimPending | ClaimBound | ClaimLost.

#[global] Instance PersistentVolumeClaimPhase_eq_dec : EqDecision PersistentVolumeClaimPhase.
Proof. solve_decision. Defined.

Record PersistentVolumeClaim : Type := {
  pvc_Name : string;
  pvc_Namespace : string;
  pvc_OwnerReferences : list OwnerReference;
  pvc_AccessModes : list string;
  pvc_Requests_Storage : Quantity;
  pvc_StorageClassName : option string;
  pvc_VolumeName : string;
  pvc_Status_Phase : PersistentVolumeClaimPhase
}.

(** Modelled from the spec: [longhorn.Volume] and its robustness, of the
    same package: "a replicated block volume; size mirrors the claim;
    owned by the claim", with the owner identity the arbiter compares
    and the robustness the health check reads. *)
Inductive VolumeRobustness : Type :=
| VolumeRobustnessUnset | VolumeRobustnessHealthy | VolumeRobustnessDegraded
| VolumeRobustnessFaulted | VolumeRobustnessUnknown.

#[global] Instance VolumeRobustness_eq_dec : EqDecision VolumeRobustness.
Proof. solve_decision. Defined.

Record Volume : Type := {
  vol_Name : string;
  vol_Namespace : string;
  vol_Annotation_ObjectStoreName : string;
  vol_OwnerReferences : list OwnerReference;
  vol_Size : Z;
  vol_Frontend : string;
  vol_AccessMode : string;
  vol_Parameters : ObjectStoreVolumeParameterSpec;
  vol_Status_OwnerID : string;
  vol_Status_Robustness : VolumeRobustness
}.

Inductive PersistentVolumePhase : Type :=
| VolumeUnset | VolumePending | VolumeAvailable | VolumeBound
| VolumeReleased | VolumeFailed.

#[global] Instance PersistentVolumePhase_eq_dec : EqDecision PersistentVolumePhase.
Proof. solve_decision. Defined.

Record PersistentVolume : Type := {
  pv_Name : string;
  pv_AccessModes : list string;
  pv_Capacity_Storage : Quantity;
  pv_StorageClassName : string;
  pv_ReclaimPolicy : string;
  pv_VolumeMode : option string;
  pv_ClaimRef_Namespace : string;
  pv_ClaimRef_Name : string;
  pv_CSI_Driver : string;
  pv_CSI_VolumeHandle : string;
  pv_CSI_FSType : string;
  pv_CSI_mkfsParams : string;
  pv_Status_Phase : PersistentVolumePhase
}.

Record Container : Type := {
  container_Name : string;
  container_Image : string;
  container_Args : list string;
  container_Ports : list (string * Z);
  container_Env : list (string * string);
  container_EnvFrom : list string;
  container_VolumeMounts : list (string * string)
}.

(** [Replicas] is an [*int32]: [None] is the nil pointer. *)
Record Deployment : Type := {
  dpl_Name : string;
  dpl_Namespace : string;
  dpl_OwnerReferences : list OwnerReference;
  dpl_Replicas : option Z;
  dpl_Strategy : string;
  dpl_Containers : list Container;
  dpl_Volumes : list (string * string);
  dpl_ImagePullSecrets : list string;
  dpl_Status_Replicas : Z;
  dpl_Status_AvailableReplicas : Z;
  dpl_Status_UnavailableReplicas : Z
}.

Record ServicePort : Type := {
  port_Name : string;
  port_Protocol : string;
  port_Port : Z;
  port_TargetPort : Z
}.

Record Service : Type := {
  svc_Name : string;
  svc_Namespace : string;
  svc_OwnerReferences : list OwnerReference;
  svc_Ports : list ServicePort
}.

Record IngressBackend : Type := {
  backend_Service_Name : string;
  backend_Service_Port_Name : string
}.

Record HTTPIngressPath : Type := {
  path_Path : string;
  path_PathType : string;
  path_Backend : IngressBackend
}.

Record IngressRule : Type := {
  rule_Host : string;
  rule_HTTP_Paths : list HTTPIngressPath
}.

Record IngressTLS : Type := {
  tls_SecretName : string;
  tls_Hosts : list string
}.

Record Ingress : Type := {
  ing_Name : string;
  ing_Namespace : string;
  ing_OwnerReferences : list OwnerReference;
  ing_Rules : list IngressRule;
  ing_TLS : list IngressTLS
}.

Record Secret : Type := {
  secret_Name : string
}.

(** ** The datastore *)

Inductive Kind : Type :=
| KObjectStore | KVolume | KPersistentVolumeClaim | KPersistentVolume
| KDeployment | KService | KIngress | KSecret | KSetting.

Inductive Verb : Type :=
| VerbGet | VerbGetRO | VerbCreate | VerbUpdate | VerbUpdateStatus
| VerbRemoveFinalizer.

(** A write call issued to the datastore, with what was submitted. *)
Inductive Action : Type :=
| ActionCreatePersistentVolumeClaim (pvc : PersistentVolumeClaim)
| ActionCreateVolume (vol : Volume)
| ActionCreatePersistentVolume (pv : PersistentVolume)
| ActionCreateDeployment (dpl : Deployment)
| ActionCreateService (svc : Service)
| ActionCreateIngress (ingress : Ingress)
| ActionUpdateDeployment (dpl : Deployment)
| ActionUpdateObjectStoreStatus (name : string) (status : ObjectStoreStatus)
| ActionRemoveFinalizerForObjectStore (name : string).

(** Modelled from the spec: [datastore.DataStore], of package datastore
    (not under src/). Per resource kind the store offers
    "get(namespace, name) -> resource | NotFound | error",
    "create(resource) -> resource | AlreadyExists | error" and
    "update(resource) -> resource | Conflict | error".

    One finite map per kind, keyed by resource name, holds what a lookup
    observes; a successful create or update is visible to the next lookup.
    [failure] is the environment: the transient or racing API failure, if
    any, that a given call meets. [actions] records every write call in
    the order issued, whether or not it succeeded. *)
Record DataStore : Type := {
  ObjectStores : gmap string ObjectStore;
  PersistentVolumeClaims : gmap string PersistentVolumeClaim;
  Volumes : gmap string Volume;
  PersistentVolumes : gmap string PersistentVolume;
  Deployments : gmap string Deployment;
  Services : gmap string Service;
  Ingresses : gmap string Ingress;
  Secrets : gmap string Secret;
  RegistrySecretSetting : string;
  failure : Verb -> Kind -> string -> option error;
  actions : list Action
}.

Module DS.

Definition withObjectStores (m : gmap string ObjectStore) (ds : DataStore) : DataStore :=
  {| ObjectStores := m;
     PersistentVolumeClaims := PersistentVolumeClaims ds;
     Volumes := Volumes ds;
     PersistentVolumes := PersistentVolumes ds;
     Deployments := Deployments ds;
     Services := Services ds;
     Ingresses := Ingresses ds;
     Secrets := Secrets ds;
     RegistrySecretSetting := RegistrySecretSetting ds;
     failure := failure ds;
     actions := actions ds |}.

Definition withPersistentVolumeClaims (m : gmap string PersistentVolumeClaim)
    (ds : DataStore) : DataStore :=
  {| ObjectStores := ObjectStores ds;
     PersistentVolumeClaims := m;
     Volumes := Volumes ds;
     PersistentVolumes := PersistentVolumes ds;
     Deployments := Deployments ds;
     Services := Services ds;
     Ingresses := Ingresses ds;
     Secrets := Secrets ds;
     RegistrySecretSetting := RegistrySecretSetting ds;
     failure := failure ds;
     actions := actions ds |}.

Definition withVolumes (m : gmap string Volume) (ds : DataStore) : DataStore :=
  {| ObjectStores := ObjectStores ds;
     PersistentVolumeClaims := PersistentVolumeClaims ds;
     Volumes := m;
     PersistentVolumes := PersistentVolumes ds;
     Deployments := Deployments ds;
     Services := Services ds;
     Ingresses := Ingresses ds;
     Secrets := Secrets ds;
     RegistrySecretSetting := RegistrySecretSetting ds;
     failure := failure ds;
     actions := actions ds |}.

Definition withPersistentVolumes (m : gmap string PersistentVolume)
    (ds : DataStore) : DataStore :=
  {| ObjectStores := ObjectStores ds;
     PersistentVolumeClaims := PersistentVolumeClaims ds;
     Volumes := Volumes ds;
     PersistentVolumes := m;
     Deployments := Deployments ds;
     Services := Services ds;
     Ingresses := Ingresses ds;
     Secrets := Secrets ds;
     RegistrySecretSetting := RegistrySecretSetting ds;
     failure := failure ds;
     actions := actions ds |}.

Definition withDeployments (m : gmap string Deployment) (ds : DataStore) : DataStore :=
  {| ObjectStores := ObjectStores ds;
     PersistentVolumeClaims := PersistentVolumeClaims ds;
     Volumes := Volumes ds;
     PersistentVolumes := PersistentVolumes ds;
     Deployments := m;
     Services := Services ds;
     Ingresses := Ingresses ds;
     Secrets := Secrets ds;
     RegistrySecretSetting := RegistrySecretSetting ds;
     failure := failure ds;
     actions := actions ds |}.

Definition withServices (m : gmap string Service) (ds : DataStore) : DataStore :=
  {| ObjectStores := ObjectStores ds;
     PersistentVolumeClaims := PersistentVolumeClaims ds;
     Volumes := Volumes ds;
     PersistentVolumes := PersistentVolumes ds;
     Deployments := Deployments ds;
     Services := m;
     Ingresses := Ingresses ds;
     Secrets := Secrets ds;
     RegistrySecretSetting := RegistrySecretSetting ds;
     failure := failure ds;
     actions := actions ds |}.

Definition withIngresses (m : gmap string Ingress) (ds : DataStore) : DataStore :=
  {| ObjectStores := ObjectStores ds;
     PersistentVolumeClaims := PersistentVolumeClaims ds;
     Volumes := Volumes ds;
     PersistentVolumes := PersistentVolumes ds;
     Deployments := Deployments ds;
     Services := Services ds;
     Ingresses := m;
     Secrets := Secrets ds;
     RegistrySecretSetting := RegistrySecretSetting ds;
     failure := failure ds;
     actions := actions ds |}.

Definition withFailure (f : Verb -> Kind -> string -> option error) (ds : DataStore)
  : DataStore :=
  {| ObjectStores := ObjectStores ds;
     PersistentVolumeClaims := PersistentVolumeClaims ds;
     Volumes := Volumes ds;
     PersistentVolumes := PersistentVolumes ds;
     Deployments := Deployments ds;
     Services := Services ds;
     Ingresses := Ingresses ds;
     Secrets := Secrets ds;
     RegistrySecretSetting := RegistrySecretSetting ds;
     failure := f;
     actions := actions ds |}.

(** Append a write call to the record of actions. *)
Definition record (a : Action) (ds : DataStore) : DataStore :=
  {| ObjectStores := ObjectStores ds;
     PersistentVolumeClaims := PersistentVolumeClaims ds;
     Volumes := Volumes ds;
     PersistentVolumes := PersistentVolumes ds;
     Deployments := Deployments ds;
     Services := Services ds;
     Ingresses := Ingresses ds;
     Secrets := Secrets ds;
     RegistrySecretSetting := RegistrySecretSetting ds;
     failure := failure ds;
     actions := actions ds ++ [a] |}.

(** A lookup: the injected failure if any, else the resource or NotFound. *)
Definition get {A : Type} (fail : option error) (found : option A) : result A :=
  match fail with
  | Some e => Err e
  | None =>
      match found with
      | Some a => Ok a
      | None => Err ErrNotFound
      end
  end.

(** A create: the injected failure if any, AlreadyExists when the name is
    taken, else the resource as submitted. *)
Definition create {A : Type} (fail : option error) (existing : option A) (a : A)
  : result A :=
  match fail with
  | Some e => Err e
  | None =>
      match existing with
      | Some _ => Err ErrAlreadyExists
      | None => Ok a
      end
  end.

(** An update: the injected failure if any (a Conflict among them),
    NotFound when there is nothing to update, else the resource. *)
Definition update {A : Type} (fail : option error) (existing : option A) (a : A)
  : result A :=
  match fail with
  | Some e => Err e
  | None =>
      match existing with
      | Some _ => Ok a
      | None => Err ErrNotFound
      end
  end.

End DS.

(** Modelled from the spec: the lookups of the datastore, one per kind
    ("get(namespace, name) -> resource | NotFound | error"). The
    namespace is the controller's own throughout and is left out. *)
Definition GetObjectStore (name : string) (ds : DataStore) : result ObjectStore :=
  DS.get (failure ds VerbGet KObjectStore name) (ObjectStores ds !! name).

Definition GetVolumeRO (name : string) (ds : DataStore) : result Volume :=
  DS.get (failure ds VerbGetRO KVolume name) (Volumes ds !! name).

Definition GetVolume (name : string) (ds : DataStore) : result Volume :=
  DS.get (failure ds VerbGet KVolume name) (Volumes ds !! name).

Definition GetPersistentVolumeClaim (name : string) (ds : DataStore)
  : result PersistentVolumeClaim :=
  DS.get (failure ds VerbGet KPersistentVolumeClaim name)
         (PersistentVolumeClaims ds !! name).

Definition GetPersistentVolume (name : string) (ds : DataStore)
  : result PersistentVolume :=
  DS.get (failure ds VerbGet KPersistentVolume name) (PersistentVolumes ds !! name).

Definition GetDeployment (name : string) (ds : DataStore) : result Deployment :=
  DS.get (failure ds VerbGet KDeployment name) (Deployments ds !! name).

Definition GetService (name : string) (ds : DataStore) : result Service :=
  DS.get (failure ds VerbGet KService name) (Services ds !! name).

Definition GetIngress (name : string) (ds : DataStore) : result Ingress :=
  DS.get (failure ds VerbGet KIngress name) (Ingresses ds !! name).

Definition GetSecret (name : string) (ds : DataStore) : result Secret :=
  DS.get (failure ds VerbGet KSecret name) (Secrets ds !! name).

(** Modelled from the spec: [ds.GetSetting] at
    [types.SettingNameRegistrySecret]. The setting always has a value
    (possibly empty); only an API failure makes the lookup fail. *)
Definition GetSetting_RegistrySecret (ds : DataStore) : result string :=
  match failure ds VerbGet KSetting "registry-secret" with
  | Some e => Err e
  | None => Ok (RegistrySecretSetting ds)
  end.

(** Modelled from the spec: the create calls of the datastore, one per
    kind ("create(resource) -> resource | AlreadyExists | error"). *)
Definition CreatePersistentVolumeClaim (pvc : PersistentVolumeClaim) (ds : DataStore)
  : result PersistentVolumeClaim * DataStore :=
  let ds := DS.record (ActionCreatePersistentVolumeClaim pvc) ds in
  let r := DS.create (failure ds VerbCreate KPersistentVolumeClaim (pvc_Name pvc))
                     (PersistentVolumeClaims ds !! pvc_Name pvc) pvc in
  match r with
  | Ok _ =>
      (r, DS.withPersistentVolumeClaims
            (<[pvc_Name pvc := pvc]> (PersistentVolumeClaims ds)) ds)
  | Err _ => (r, ds)
  end.

Definition CreateVolume (vol : Volume) (ds : DataStore) : result Volume * DataStore :=
  let ds := DS.record (ActionCreateVolume vol) ds in
  let r := DS.create (failure ds VerbCreate KVolume (vol_Name vol))
                     (Volumes ds !! vol_Name vol) vol in
  match r with
  | Ok _ => (r, DS.withVolumes (<[vol_Name vol := vol]> (Volumes ds)) ds)
  | Err _ => (r, ds)
  end.

Definition CreatePersistentVolume (pv : PersistentVolume) (ds : DataStore)
  : result PersistentVolume * DataStore :=
  let ds := DS.record (ActionCreatePersistentVolume pv) ds in
  let r := DS.create (failure ds VerbCreate KPersistentVolume (pv_Name pv))
                     (PersistentVolumes ds !! pv_Name pv) pv in
  match r with
  | Ok _ =>
      (r, DS.withPersistentVolumes (<[pv_Name pv := pv]> (PersistentVolumes ds)) ds)
  | Err _ => (r, ds)
  end.

Definition CreateDeployment (dpl : Deployment) (ds : DataStore)
  : result Deployment * DataStore :=
  let ds := DS.record (ActionCreateDeployment dpl) ds in
  let r := DS.create (failure ds VerbCreate KDeployment (dpl_Name dpl))
                     (Deployments ds !! dpl_Name dpl) dpl in
  match r with
  | Ok _ => (r, DS.withDeployments (<[dpl_Name dpl := dpl]> (Deployments ds)) ds)
  | Err _ => (r, ds)
  end.

Definition CreateService (svc : Service) (ds : DataStore) : result Service * DataStore :=
  let ds := DS.record (ActionCreateService svc) ds in
  let r := DS.create (failure ds VerbCreate KService (svc_Name svc))
                     (Services ds !! svc_Name svc) svc in
  match r with
  | Ok _ => (r, DS.withServices (<[svc_Name svc := svc]> (Services ds)) ds)
  | Err _ => (r, ds)
  end.

Definition CreateIngress (ingress : Ingress) (ds : DataStore)
  : result Ingress * DataStore :=
  let ds := DS.record (ActionCreateIngress ingress) ds in
  let r := DS.create (failure ds VerbCreate KIngress (ing_Name ingress))
                     (Ingresses ds !! ing_Name ingress) ingress in
  match r with
  | Ok _ => (r, DS.withIngresses (<[ing_Name ingress := ingress]> (Ingresses ds)) ds)
  | Err _ => (r, ds)
  end.

(** Modelled from the spec: [ds.UpdateDeployment]
    ("update(resource) -> resource | Conflict | error"). *)
Definition UpdateDeployment (dpl : Deployment) (ds : DataStore)
  : result Deployment * DataStore :=
  let ds := DS.record (ActionUpdateDeployment dpl) ds in
  let r := DS.update (failure ds VerbUpdate KDeployment (dpl_Name dpl))
                     (Deployments ds !! dpl_Name dpl) dpl in
  match r with
  | Ok _ => (r, DS.withDeployments (<[dpl_Name dpl := dpl]> (Deployments ds)) ds)
  | Err _ => (r, ds)
  end.

(** The deployment a lookup returns is the cached object itself, not a
    copy: assigning to one of its fields changes what later lookups see,
    before and whether or not an update call follows (the test
    TestSyncStoppingObjectStore reads the scale-down back through the
    object it put in the lister). *)
Definition assignInPlace (dpl : Deployment) (ds : DataStore) : DataStore :=
  DS.withDeployments (<[dpl_Name dpl := dpl]> (Deployments ds)) ds.

(** Modelled from the spec: [ds.UpdateObjectStoreStatus], an update of
    the status subresource: only [Status] of the stored object changes. *)
Definition UpdateObjectStoreStatus (store : ObjectStore) (ds : DataStore)
  : result ObjectStore * DataStore :=
  let ds := DS.record (ActionUpdateObjectStoreStatus (Name store) (Status store)) ds in
  match failure ds VerbUpdateStatus KObjectStore (Name store) with
  | Some e => (Err e, ds)
  | None =>
      match ObjectStores ds !! Name store with
      | None => (Err ErrNotFound, ds)
      | Some cur =>
          let new :=
            {| Name := Name cur;
               DeletionTimestamp := DeletionTimestamp cur;
               Finalizers := Finalizers cur;
               Spec := Spec cur;
               Status := Status store |} in
          (Ok new, DS.withObjectStores (<[Name store := new]> (ObjectStores ds)) ds)
      end
  end.

(** Modelled from the spec: [ds.RemoveFinalizerForObjectStore]
    ("finalizer removed"): clears the finalizer list of the stored
    object. *)
Definition RemoveFinalizerForObjectStore (store : ObjectStore) (ds : DataStore)
  : option error * DataStore :=
  let ds := DS.record (ActionRemoveFinalizerForObjectStore (Name store)) ds in
  match failure ds VerbRemoveFinalizer KObjectStore (Name store) with
  | Some e => (Some e, ds)
  | None =>
      match ObjectStores ds !! Name store with
      | None => (Some ErrNotFound, ds)
      | Some cur =>
          let new :=
            {| Name := Name cur;
               DeletionTimestamp := DeletionTimestamp cur;
               Finalizers := [];
               Spec := Spec cur;
               Status := Status cur |} in
          (None, DS.withObjectStores (<[Name store := new]> (ObjectStores ds)) ds)
      end
  end.

(** ** The controller *)

(** Constants of package types (not under src/), taken as parameters. *)
Record Types : Type := {
  ObjectStoreContainerName : string;
  ObjectStoreUIContainerName : string;
  ObjectStoreStorageClassName : string;
  ObjectStoreLogLevel : Z;
  ObjectStoreContainerPort : Z;
  ObjectStoreUIContainerPort : Z;
  ObjectStoreStatusContainerPort : Z;
  ObjectStoreServicePort : Z;
  ObjectStoreUIServicePort : Z;
  ObjectStoreStatusServicePort : Z
}.

(** The fields of [ObjectStoreController] the reconciler reads; its [ds]
    is the [DataStore] threaded through the calls. *)
Record ObjectStoreController : Type := {
  controllerID : string;
  namespace : string
}.

(** [strings.Split(key, "/")] *)
Fixpoint splitSlash (key : string) : list string :=
  match key with
  | EmptyString => [EmptyString]
  | String c rest =>
      if Ascii.eqb c "/"%char then EmptyString :: splitSlash rest
      else
        match splitSlash rest with
        | [] => [String c EmptyString]
        | part :: parts => String c part :: parts
        end
  end.

(** [cache.SplitMetaNamespaceKey] of client-go: the key split at "/";
    one part is a name, two are a namespace and a name, anything else is
    [fmt.Errorf("unexpected key format: %q", key)]. *)
Definition SplitMetaNamespaceKey (key : string) : result (string * string) :=
  match splitSlash key with
  | [name] => Ok (EmptyString, name)
  | [ns; name] => Ok (ns, name)
  | _ => Err (ErrErrorf "unexpected key format: %q" key)
  end.

Definition genPVName (store : ObjectStore) : string := "pv-" +:+ Name store.
Definition genPVCName (store : ObjectStore) : string := "pvc-" +:+ Name store.
Definition genVolumeMountName (store : ObjectStore) : string := Name store +:+ "-data".

(** Modelled from the spec: [ds.GetOwnerReferencesForObjectStore] and
    [ds.GetOwnerReferencesForPVC], of package datastore (not under src/):
    the owner-reference link to the given parent. *)
Definition GetOwnerReferencesForObjectStore (store : ObjectStore) : list OwnerReference :=
  [ {| owner_Kind := "ObjectStore"; owner_Name := Name store |} ].

Definition GetOwnerReferencesForPVC (pvc : PersistentVolumeClaim) : list OwnerReference :=
  [ {| owner_Kind := "PersistentVolumeClaim"; owner_Name := pvc_Name pvc |} ].

(** Modelled from the spec: [util.GetImageOfDeploymentContainerWithName],
    of package util (not under src/): the image of the first container of
    that name, the empty string when there is none. *)
Fixpoint imageOfContainerWithName (containers : list Container) (name : string) : string :=
  match containers with
  | [] => EmptyString
  | c :: rest =>
      if String.eqb (container_Name c) name then container_Image c
      else imageOfContainerWithName rest name
  end.

Definition GetImageOfDeploymentContainerWithName (dpl : Deployment) (name : string)
  : string :=
  imageOfContainerWithName (dpl_Containers dpl) name.

Definition setImage (image : string) (c : Container) : Container :=
  {| container_Name := container_Name c;
     container_Image := image;
     container_Args := container_Args c;
     container_Ports := container_Ports c;
     container_Env := container_Env c;
     container_EnvFrom := container_EnvFrom c;
     container_VolumeMounts := container_VolumeMounts c |}.

Fixpoint setImageOfContainerWithName (containers : list Container) (name image : string)
  : option (list Container) :=
  match containers with
  | [] => None
  | c :: rest =>
      if String.eqb (container_Name c) name then Some (setImage image c :: rest)
      else
        match setImageOfContainerWithName rest name image with
        | Some rest' => Some (c :: rest')
        | None => None
        end
  end.

Definition setContainers (cs : list Container) (dpl : Deployment) : Deployment :=
  {| dpl_Name := dpl_Name dpl;
     dpl_Namespace := dpl_Namespace dpl;
     dpl_OwnerReferences := dpl_OwnerReferences dpl;
     dpl_Replicas := dpl_Replicas dpl;
     dpl_Strategy := dpl_Strategy dpl;
     dpl_Containers := cs;
     dpl_Volumes := dpl_Volumes dpl;
     dpl_ImagePullSecrets := dpl_ImagePullSecrets dpl;
     dpl_Status_Replicas := dpl_Status_Replicas dpl;
     dpl_Status_AvailableReplicas := dpl_Status_AvailableReplicas dpl;
     dpl_Status_UnavailableReplicas := dpl_Status_UnavailableReplicas dpl |}.

(** Modelled from the spec: [util.SetImageOfDeploymentContainerWithName],
    of package util (not under src/): sets the image of the first
    container of that name, and fails when there is none. *)
Definition SetImageOfDeploymentContainerWithName (dpl : Deployment) (name image : string)
  : result Deployment :=
  match setImageOfContainerWithName (dpl_Containers dpl) name image with
  | Some cs => Ok (setContainers cs dpl)
  | None =>
      Err (ErrNew ("container " +:+ name +:+ " not found in deployment " +:+ dpl_Name dpl))
  end.

(** [deployment.Spec.Replicas = int32Ptr(n)] *)
Definition setReplicas (n : Z) (dpl : Deployment) : Deployment :=
  {| dpl_Name := dpl_Name dpl;
     dpl_Namespace := dpl_Namespace dpl;
     dpl_OwnerReferences := dpl_OwnerReferences dpl;
     dpl_Replicas := Some n;
     dpl_Strategy := dpl_Strategy dpl;
     dpl_Containers := dpl_Containers dpl;
     dpl_Volumes := dpl_Volumes dpl;
     dpl_ImagePullSecrets := dpl_ImagePullSecrets dpl;
     dpl_Status_Replicas := dpl_Status_Replicas dpl;
     dpl_Status_AvailableReplicas := dpl_Status_AvailableReplicas dpl;
     dpl_Status_UnavailableReplicas := dpl_Status_UnavailableReplicas dpl |}.

Section Controller.

Variable types : Types.
Variable osc : ObjectStoreController.

(** *** Responsibility *)

Definition isResponsibleFor (store : ObjectStore) (ds : DataStore) : bool :=
  match GetVolumeRO (genPVName store) ds with
  | Err err =>
      (* no volume yet: this controller is responsible; any other error
         is handed to utilruntime.HandleError *)
      if ErrorIsNotFound err then true else false
  | Ok vol => String.eqb (controllerID osc) (vol_Status_OwnerID vol)
  end.

(** *** Builders: the struct literals of the create functions *)

(** The [pvc] literal of createPVC. Labels are left out of every
    resource. *)
Definition newPersistentVolumeClaim (store : ObjectStore) : PersistentVolumeClaim :=
  {| pvc_Name := genPVCName store;
     pvc_Namespace := namespace osc;
     pvc_OwnerReferences := GetOwnerReferencesForObjectStore store;
     pvc_AccessModes := ["ReadWriteOnce"];
     pvc_Requests_Storage := Size (Spec store);
     pvc_StorageClassName := Some (ObjectStoreStorageClassName types);
     pvc_VolumeName := genPVName store;
     pvc_Status_Phase := ClaimUnset |}.

(** The [vol] literal of createVolume. *)
Definition newVolume (store : ObjectStore) (pvc : PersistentVolumeClaim) : Volume :=
  {| vol_Name := genPVName store;
     vol_Namespace := namespace osc;
     vol_Annotation_ObjectStoreName := Name store;
     vol_OwnerReferences := GetOwnerReferencesForPVC pvc;
     vol_Size := resourceAsInt64 (Size (Spec store));
     vol_Frontend := "blockdev";
     vol_AccessMode := "rwo";
     vol_Parameters := VolumeParameters (Spec store);
     vol_Status_OwnerID := EmptyString;
     vol_Status_Robustness := VolumeRobustnessUnset |}.

(** The [pv] literal of createPV. *)
Definition newPersistentVolume (store : ObjectStore) (volume : Volume) : PersistentVolume :=
  {| pv_Name := genPVName store;
     pv_AccessModes := ["ReadWriteOnce"];
     pv_Capacity_Storage := Size (Spec store);
     pv_StorageClassName := ObjectStoreStorageClassName types;
     pv_ReclaimPolicy := "Retain";
     pv_VolumeMode := Some "Filesystem";
     pv_ClaimRef_Namespace := namespace osc;
     pv_ClaimRef_Name := genPVCName store;
     pv_CSI_Driver := "driver.longhorn.io";
     pv_CSI_VolumeHandle := vol_Name volume;
     pv_CSI_FSType := "xfs";
     pv_CSI_mkfsParams := "-f -m crc=1 -m reflink=1";
     pv_Status_Phase := VolumeUnset |}.

(** The [svc] literal of createService. *)
Definition newService (store : ObjectStore) : Service :=
  {| svc_Name := Name store;
     svc_Namespace := namespace osc;
     svc_OwnerReferences := GetOwnerReferencesForObjectStore store;
     svc_Ports :=
       [ {| port_Name := "s3"; port_Protocol := "TCP";
            port_Port := ObjectStoreServicePort types;
            port_TargetPort := ObjectStoreContainerPort types |};
         {| port_Name := "ui"; port_Protocol := "TCP";
            port_Port := ObjectStoreUIServicePort types;
            port_TargetPort := ObjectStoreUIContainerPort types |};
         {| port_Name := "status"; port_Protocol := "TCP";
            port_Port := ObjectStoreStatusServicePort types;
            port_TargetPort := ObjectStoreStatusContainerPort types |} ] |}.

(** [domainNameArgs] of createDeployment. *)
Definition domainNameArgs (store : ObjectStore) : list string :=
  ["--rgw-dns-name"; Name store +:+ "." +:+ namespace osc +:+ ".svc"]
  ++ flat_map (fun endpoint => ["--rgw-dns-name"; endpoint_DomainName endpoint])
              (Endpoints (Spec store)).

(** The [dpl] literal of createDeployment, given the credential secret
    found (or nil) and the value of the registry-secret setting. *)
Definition newDeployment (store : ObjectStore) (secret : option Secret)
    (registrySecret : string) : Deployment :=
  let env :=
    match secret with
    | Some _ => [Credentials_Name (Spec store)]
    | None => []
    end in
  {| dpl_Name := Name store;
     dpl_Namespace := namespace osc;
     dpl_OwnerReferences := GetOwnerReferencesForObjectStore store;
     dpl_Replicas := Some 1;
     dpl_Strategy := "Recreate";
     dpl_Containers :=
       [ {| container_Name := ObjectStoreContainerName types;
            container_Image := Image (Spec store);
            container_Args :=
              [ "--rgw-backend-store"; "sfs";
                "--debug-rgw"; pretty (ObjectStoreLogLevel types);
                "--rgw_frontends";
                "beast port=" +:+ pretty (ObjectStoreContainerPort types)
                +:+ ", status port=" +:+ pretty (ObjectStoreStatusContainerPort types) ]
              ++ domainNameArgs store;
            container_Ports :=
              [ ("s3", ObjectStoreContainerPort types);
                ("status", ObjectStoreStatusContainerPort types) ];
            container_Env := [ ("RGW_S3GW_ENABLE_TELEMETRY", "true") ];
            container_EnvFrom := env;
            container_VolumeMounts := [ (genVolumeMountName store, "/data") ] |};
         {| container_Name := ObjectStoreUIContainerName types;
            container_Image := UIImage (Spec store);
            container_Args := [];
            container_Ports := [ ("ui", ObjectStoreUIContainerPort types) ];
            container_Env :=
              [ ("S3GW_SERVICE_URL",
                 "http://127.0.0.1:" +:+ pretty (ObjectStoreContainerPort types));
                ("S3GW_UI_PATH", "/objectstore/" +:+ Name store);
                ("S3GW_INSTANCE_ID", Name store) ];
            container_EnvFrom := [];
            container_VolumeMounts := [] |} ];
     dpl_Volumes := [ (genVolumeMountName store, genPVCName store) ];
     dpl_ImagePullSecrets :=
       if String.eqb registrySecret EmptyString then [] else [registrySecret];
     dpl_Status_Replicas := 0;
     dpl_Status_AvailableReplicas := 0;
     dpl_Status_UnavailableReplicas := 0 |}.

(** [s3backend] of getOrCreateS3Endpoints. *)
Definition s3backend (store : ObjectStore) : IngressBackend :=
  {| backend_Service_Name := Name store;
     backend_Service_Port_Name := "s3" |}.

(** [name] in the loop of getOrCreateS3Endpoints:
    [fmt.Sprintf("%v-%v", store.Name, endpoint.Name)]. *)
Definition ingressName (store : ObjectStore) (endpoint : ObjectStoreEndpointSpec)
  : string :=
  Name store +:+ "-" +:+ endpoint_Name endpoint.

(** The [ingress] literal of getOrCreateS3Endpoints, with its [baserule],
    its [wildcardrule] and the TLS block added when a secret is named. *)
Definition newIngress (store : ObjectStore) (endpoint : ObjectStoreEndpointSpec)
  : Ingress :=
  let baserule :=
    {| rule_Host := endpoint_DomainName endpoint;
       rule_HTTP_Paths :=
         [ {| path_Path := "/"; path_PathType := "Prefix";
              path_Backend := s3backend store |} ] |} in
  let wildcardrule :=
    {| rule_Host := "*." +:+ endpoint_DomainName endpoint;
       rule_HTTP_Paths :=
         [ {| path_Path := "/"; path_PathType := "Prefix";
              path_Backend := s3backend store |} ] |} in
  {| ing_Name := ingressName store endpoint;
     ing_Namespace := namespace osc;
     ing_OwnerReferences := GetOwnerReferencesForObjectStore store;
     ing_Rules := [ baserule; wildcardrule ];
     ing_TLS :=
       if negb (String.eqb (endpoint_TLS_Name endpoint) EmptyString) then
         [ {| tls_SecretName := endpoint_TLS_Name endpoint;
              tls_Hosts := [ endpoint_DomainName endpoint;
                             "*." +:+ endpoint_DomainName endpoint ] |} ]
       else [] |}.

(** *** Create functions *)

Definition createPVC (store : ObjectStore) (ds : DataStore)
  : result PersistentVolumeClaim * DataStore :=
  CreatePersistentVolumeClaim (newPersistentVolumeClaim store) ds.

Definition createVolume (store : ObjectStore) (pvc : PersistentVolumeClaim)
    (ds : DataStore) : result Volume * DataStore :=
  CreateVolume (newVolume store pvc) ds.

Definition createPV (store : ObjectStore) (volume : Volume) (ds : DataStore)
  : result PersistentVolume * DataStore :=
  CreatePersistentVolume (newPersistentVolume store volume) ds.

Definition createService (store : ObjectStore) (ds : DataStore)
  : result Service * DataStore :=
  CreateService (newService store) ds.

Definition createDeployment (store : ObjectStore) (ds : DataStore)
  : result Deployment * DataStore :=
  let lookup := GetSecret (Credentials_Name (Spec store)) ds in
  let failed :=
    match lookup with
    | Err err => if negb (ErrorIsNotFound err) then Some err else None
    | Ok _ => None
    end in
  match failed with
  | Some err =>
      (Err (ErrWrap err ("failed to find secret " +:+ Credentials_Name (Spec store))), ds)
  | None =>
      let secret := match lookup with Ok s => Some s | Err _ => None end in
      match GetSetting_RegistrySecret ds with
      | Err err =>
          (Err (ErrWrap err
                  "failed to get registry secret setting for object store deployment"),
           ds)
      | Ok registrySecretSetting =>
          CreateDeployment (newDeployment store secret registrySecretSetting) ds
      end
  end.

(** *** Get-or-create operations *)

Definition getOrCreatePVC (store : ObjectStore) (ds : DataStore)
  : result PersistentVolumeClaim * ObjectStore * DataStore :=
  match GetPersistentVolumeClaim (genPVCName store) ds with
  | Ok pvc => (Ok pvc, store, ds)
  | Err err =>
      if ErrorIsNotFound err then
        match createPVC store ds with
        | (Err err, ds) =>
            (Err (ErrWrap err "failed to create persistent volume claim"), store, ds)
        | (Ok pvc, ds) =>
            let store :=
              if negb (bool_decide (State (Status store) = ObjectStoreStateStarting))
              then setState ObjectStoreStateStarting store else store in
            (Ok pvc, store, ds)
        end
      else (Err err, store, ds)
  end.

Definition getOrCreateVolume (store : ObjectStore) (pvc : PersistentVolumeClaim)
    (ds : DataStore) : result Volume * ObjectStore * DataStore :=
  match GetVolume (genPVName store) ds with
  | Ok vol => (Ok vol, store, ds)
  | Err err =>
      if ErrorIsNotFound err then
        match createVolume store pvc ds with
        | (Err err, ds) =>
            (Err (ErrWrap err "failed to create longhorn volume"), store, ds)
        | (Ok vol, ds) =>
            let store :=
              if negb (bool_decide (State (Status store) = ObjectStoreStateStarting))
              then setState ObjectStoreStateStarting store else store in
            (Ok vol, store, ds)
        end
      else (Err err, store, ds)
  end.

Definition getOrCreatePV (store : ObjectStore) (volume : Volume) (ds : DataStore)
  : result PersistentVolume * ObjectStore * DataStore :=
  match GetPersistentVolume (genPVName store) ds with
  | Ok pv => (Ok pv, store, ds)
  | Err err =>
      if ErrorIsNotFound err then
        match createPV store volume ds with
        | (Err err, ds) =>
            (Err (ErrWrap err "failed to create persistent volume"), store, ds)
        | (Ok pv, ds) =>
            let store :=
              if negb (bool_decide (State (Status store) = ObjectStoreStateStarting))
              then setState ObjectStoreStateStarting store else store in
            (Ok pv, store, ds)
        end
      else (Err err, store, ds)
  end.

Definition getOrCreateDeployment (store : ObjectStore) (ds : DataStore)
  : result Deployment * ObjectStore * DataStore :=
  match GetDeployment (Name store) ds with
  | Ok dpl => (Ok dpl, store, ds)
  | Err err =>
      if ErrorIsNotFound err then
        match createDeployment store ds with
        | (Err err, ds) => (Err (ErrWrap err "failed to create deployment"), store, ds)
        | (Ok dpl, ds) =>
            let store :=
              if negb (bool_decide (State (Status store) = ObjectStoreStateStarting))
              then setState ObjectStoreStateStarting store else store in
            (Ok dpl, store, ds)
        end
      else (Err err, store, ds)
  end.

Definition getOrCreateService (store : ObjectStore) (ds : DataStore)
  : result Service * ObjectStore * DataStore :=
  match GetService (Name store) ds with
  | Ok svc => (Ok svc, store, ds)
  | Err err =>
      if ErrorIsNotFound err then
        match createService store ds with
        | (Err err, ds) => (Err (ErrWrap err "failed to create service"), store, ds)
        | (Ok svc, ds) =>
            let store :=
              if negb (bool_decide (State (Status store) = ObjectStoreStateStarting))
              then setState ObjectStoreStateStarting store else store in
            (Ok svc, store, ds)
        end
      else (Err err, store, ds)
  end.

(** The loop of getOrCreateS3Endpoints over the endpoints still to visit,
    with the ingresses collected so far. *)
Fixpoint s3EndpointsFrom (endpoints : list ObjectStoreEndpointSpec)
    (ingresses : list Ingress) (store : ObjectStore) (ds : DataStore)
  : result (list Ingress) * ObjectStore * DataStore :=
  match endpoints with
  | [] => (Ok ingresses, store, ds)
  | endpoint :: rest =>
      let name := ingressName store endpoint in
      match GetIngress name ds with
      | Ok ingress => s3EndpointsFrom rest (ingresses ++ [ingress]) store ds
      | Err err =>
          if ErrorIsNotFound err then
            let ingress := newIngress store endpoint in
            let '(created, ds) := CreateIngress ingress ds in
            let failed :=
              match created with
              | Err err => if negb (ErrorIsAlreadyExists err) then Some err else None
              | Ok _ => None
              end in
            match failed with
            | Some err => (Err err, setState ObjectStoreStateError store, ds)
            | None =>
                s3EndpointsFrom rest (ingresses ++ [ingress])
                  (appendEndpoint (endpoint_DomainName endpoint) store) ds
            end
          else
            (* if there was an api error *)
            (Err err, store, ds)
      end
  end.

Definition getOrCreateS3Endpoints (store : ObjectStore) (ds : DataStore)
  : result (list Ingress) * ObjectStore * DataStore :=
  s3EndpointsFrom (Endpoints (Spec store)) [] store ds.

(** *** Health checks *)

Definition checkPVC (pvc : PersistentVolumeClaim) : option error :=
  if negb (bool_decide (pvc_Status_Phase pvc = ClaimBound)) then
    Some (ErrNew ("PVC " +:+ pvc_Name pvc +:+ " not bound"))
  else None.

Definition checkVolume (vol : Volume) : option error :=
  if bool_decide (vol_Status_Robustness vol = VolumeRobustnessFaulted) then
    Some (ErrNew ("volume " +:+ vol_Name vol +:+ " has failed"))
  else None.

Definition checkPV (pv : PersistentVolume) : option error :=
  if negb (bool_decide (pv_Status_Phase pv = VolumeBound)) then
    Some (ErrNew ("PV " +:+ pv_Name pv +:+ " not bound"))
  else None.

(** One image block of checkDeployment; the function has two, alike but
    for the container name and the image:
    [if GetImage(deployment, name) != image { err := SetImage(...); if err
    != nil { return err }; osc.ds.UpdateDeployment(deployment);
    store.Status.State = Starting }]. [Err] is the early return. The result
    of [UpdateDeployment] is dropped. *)
Definition updateImage (name image : string) (deployment : Deployment)
    (store : ObjectStore) (ds : DataStore)
  : result (Deployment * ObjectStore * DataStore) :=
  if negb (String.eqb (GetImageOfDeploymentContainerWithName deployment name) image)
  then
    match SetImageOfDeploymentContainerWithName deployment name image with
    | Err err => Err err
    | Ok deployment =>
        let ds := assignInPlace deployment ds in
        let ds := snd (UpdateDeployment deployment ds) in
        Ok (deployment, setState ObjectStoreStateStarting store, ds)
    end
  else Ok (deployment, store, ds).

(** [*deployment.Spec.Replicas] panics on a nil pointer. The result of
    the [UpdateDeployment] call is dropped. *)
Definition checkDeployment (deployment : Deployment) (store : ObjectStore)
    (ds : DataStore) : outcome * ObjectStore * DataStore :=
  match dpl_Replicas deployment with
  | None => (Panic, store, ds)
  | Some replicas =>
      if negb (Z.eqb replicas 1) then
        let deployment := setReplicas 1 deployment in
        let ds := assignInPlace deployment ds in
        let ds := snd (UpdateDeployment deployment ds) in
        (Return (Some (ErrNew "deployment just scaled")), store, ds)
      else if Z.eqb (dpl_Status_Replicas deployment) 0
              || Z.ltb 0 (dpl_Status_UnavailableReplicas deployment) then
        (Return (Some (ErrNew "deployment not ready")), store, ds)
      else
        match updateImage (ObjectStoreContainerName types) (Image (Spec store))
                deployment store ds with
        | Err err => (Return (Some err), store, ds)
        | Ok (deployment, store, ds) =>
            match updateImage (ObjectStoreUIContainerName types) (UIImage (Spec store))
                    deployment store ds with
            | Err err => (Return (Some err), store, ds)
            | Ok (_, store, ds) => (Return None, store, ds)
            end
        end
  end.

(** *** State handlers *)

Definition handleStarting (store : ObjectStore) (ds : DataStore)
  : outcome * ObjectStore * DataStore :=
  match getOrCreatePVC store ds with
  | (Err err, store, ds) =>
      (Return (Some (ErrWrap err "API error while creating pvc")), store, ds)
  | (Ok pvc, store, ds) =>
  match getOrCreateVolume store pvc ds with
  | (Err err, store, ds) =>
      (Return (Some (ErrWrap err "API error while creating volume")), store, ds)
  | (Ok vol, store, ds) =>
  match getOrCreatePV store vol ds with
  | (Err err, store, ds) =>
      (Return (Some (ErrWrap err "API error while creating volume")), store, ds)
  | (Ok pv, store, ds) =>
  match getOrCreateDeployment store ds with
  | (Err err, store, ds) =>
      (Return (Some (ErrWrap err "API error while creating deployment")), store, ds)
  | (Ok dpl, store, ds) =>
  match getOrCreateService store ds with
  | (Err err, store, ds) =>
      (Return (Some (ErrWrap err "API error while creating service")), store, ds)
  | (Ok _, store, ds) =>
  match getOrCreateS3Endpoints store ds with
  | (Err err, store, ds) =>
      (Return (Some (ErrWrap err "API error while creating S3 ingresses")), store, ds)
  | (Ok endpoints, store, ds) =>
      (* if there are no public endpoints, add the implicit cluster-internal one *)
      let store :=
        if Nat.eqb (length (Status_Endpoints (Status store))) 0 then
          appendEndpoint (Name store +:+ "." +:+ namespace osc +:+ ".svc") store
        else store in
      match checkPVC pvc with
      | Some _ => (Return None, store, ds)
      | None =>
      match checkVolume vol with
      | Some _ => (Return None, store, ds)
      | None =>
      match checkPV pv with
      | Some _ => (Return None, store, ds)
      | None =>
      match checkDeployment dpl store ds with
      | (Panic, store, ds) => (Panic, store, ds)
      | (Return (Some _), store, ds) => (Return None, store, ds)
      | (Return None, store, ds) =>
          (Return None, setState ObjectStoreStateRunning store, ds)
      end end end end
  end end end end end end.

Definition handleRunning (store : ObjectStore) (ds : DataStore)
  : outcome * ObjectStore * DataStore :=
  if bool_decide (TargetState (Spec store) = ObjectStoreStateStopped) then
    (Return None, setState ObjectStoreStateStopping store, ds)
  else
  match GetDeployment (Name store) ds with
  | Err err =>
      (Return (Some (ErrWrap err ("failed to find deployment " +:+ Name store))),
       setState ObjectStoreStateError store, ds)
  | Ok dpl =>
  match checkDeployment dpl store ds with
  | (Panic, store, ds) => (Panic, store, ds)
  | (Return (Some err), store, ds) =>
      (Return (Some err), setState ObjectStoreStateError store, ds)
  | (Return None, store, ds) =>
  match GetService (Name store) ds with
  | Err err =>
      (Return (Some (ErrWrap err ("failed to find service " +:+ Name store))),
       setState ObjectStoreStateError store, ds)
  | Ok _ =>
  match GetPersistentVolumeClaim (genPVCName store) ds with
  | Err err =>
      (Return (Some (ErrWrap err ("failed to find pvc " +:+ genPVCName store))),
       setState ObjectStoreStateError store, ds)
  | Ok pvc =>
  match checkPVC pvc with
  | Some err => (Return (Some err), setState ObjectStoreStateError store, ds)
  | None =>
  match GetVolume (genPVName store) ds with
  | Err err =>
      (Return (Some (ErrWrap err ("failed to find volume " +:+ genPVName store))),
       setState ObjectStoreStateError store, ds)
  | Ok vol =>
  match checkVolume vol with
  | Some err => (Return (Some err), setState ObjectStoreStateError store, ds)
  | None =>
  match GetPersistentVolume (genPVName store) ds with
  | Err err =>
      (Return (Some (ErrWrap err ("failed to find PV " +:+ genPVName store))),
       setState ObjectStoreStateError store, ds)
  | Ok pv =>
  match checkPV pv with
  | Some err => (Return (Some err), setState ObjectStoreStateError store, ds)
  | None => (Return None, store, ds)
  end end end end end end end end end.

Definition handleStopping (store : ObjectStore) (ds : DataStore)
  : option error * ObjectStore * DataStore :=
  match GetDeployment (Name store) ds with
  | Err err =>
      (Some (ErrWrap err "failed find Deployment to stop"),
       setState ObjectStoreStateError store, ds)
  | Ok dpl =>
      if match dpl_Replicas dpl with
         | Some replicas => negb (Z.eqb replicas 0)
         | None => false
         end
      then
        let dpl := setReplicas 0 dpl in
        let ds := assignInPlace dpl ds in
        let '(updated, ds) := UpdateDeployment dpl ds in
        (match updated with Err err => Some err | Ok _ => None end, store, ds)
      else if Z.ltb 0 (dpl_Status_AvailableReplicas dpl) then
        (None, store, ds) (* wait for shutdown *)
      else (None, setState ObjectStoreStateStopped store, ds)
  end.

Definition handleStopped (store : ObjectStore) : option error * ObjectStore :=
  if bool_decide (TargetState (Spec store) = ObjectStoreStateRunning) then
    (None, setState ObjectStoreStateStarting store)
  else (None, store).

(** The tail of handleTerminating shared by its five lookups:
    [if err == nil || !datastore.ErrorIsNotFound(err) { return err }]. *)
Definition gone {A : Type} (lookup : result A) (next : option error) : option error :=
  match lookup with
  | Ok _ => None
  | Err err => if negb (ErrorIsNotFound err) then Some err else next
  end.

Definition handleTerminating (store : ObjectStore) (ds : DataStore)
  : option error * DataStore :=
  (* remove finalizer and wait for dependent resources to be deleted *)
  if negb (Nat.eqb (length (Finalizers store)) 0) then
    RemoveFinalizerForObjectStore store ds
  else
    (gone (GetService (Name store) ds)
    (gone (GetDeployment (Name store) ds)
    (gone (GetPersistentVolumeClaim (genPVCName store) ds)
    (gone (GetPersistentVolume (genPVName store) ds)
    (gone (GetVolume (genPVName store) ds)
     None)))),
     ds).

Definition initializeObjectStore (store : ObjectStore) : option error * ObjectStore :=
  if negb (bool_decide (TargetState (Spec store) = ObjectStoreStateStopped)) then
    (None, setState ObjectStoreStateStarting store)
  else (None, store).

(** *** Reconcile *)

(** The deferred function of reconcile: write the status back unless it
    is deeply equal to the snapshot. The result of the write is assigned
    to locals and does not reach the caller, whose result is unnamed.
    [reflect.DeepEqual] tells a nil slice from an empty one; the deep
    copy keeps which of the two the endpoint list is and the handlers
    only append to it, so equality of the lists decides it. *)
Definition writeBackStatus (existingStore store : ObjectStore) (ds : DataStore)
  : DataStore :=
  if bool_decide (Status existingStore = Status store) then ds
  else snd (UpdateObjectStoreStatus store ds).

(** The part of reconcile that runs under the deferred function: the
    termination path, else the switch on the state. *)
Definition dispatch (store : ObjectStore) (ds : DataStore)
  : outcome * ObjectStore * DataStore :=
  if negb (IsZero (DeletionTimestamp store)) then
    if negb (bool_decide (State (Status store) = ObjectStoreStateTerminating)) then
      (Return None, setState ObjectStoreStateTerminating store, ds)
    else
      let '(err, ds) := handleTerminating store ds in
      (Return err, store, ds)
  else
    match State (Status store) with
    | ObjectStoreStateStarting | ObjectStoreStateError => handleStarting store ds
    | ObjectStoreStateRunning => handleRunning store ds
    | ObjectStoreStateStopping =>
        let '(err, store, ds) := handleStopping store ds in
        (Return err, store, ds)
    | ObjectStoreStateStopped =>
        let '(err, store) := handleStopped store in
        (Return err, store, ds)
    | _ =>
        let '(err, store) := initializeObjectStore store in
        (Return err, store, ds)
    end.

Definition reconcile (key : string) (ds : DataStore) : outcome * DataStore :=
  match SplitMetaNamespaceKey key with
  | Err err => (Return (Some err), ds)
  | Ok (_, name) =>
      match GetObjectStore name ds with
      | Err err =>
          if ErrorIsNotFound err then (Return None, ds) (* already deleted *)
          else (Return (Some err), ds)
      | Ok store =>
          if negb (isResponsibleFor store ds) then (Return None, ds)
          else
            let existingStore := store in
            let '(out, store, ds) := dispatch store ds in
            (out, writeBackStatus existingStore store ds)
      end
  end.

End Controller.

Arguments isResponsibleFor osc store ds : simpl never.

(** ** Keys *)

(** [getMetaKey] of the test file: [fmt.Sprintf("%v/%v", namespace, name)]. *)
Definition getMetaKey (namespace name : string) : string :=
  namespace +:+ "/" +:+ name.

(** [cache.MetaNamespaceKeyFunc] of client-go on an object with metadata:
    the name alone when the namespace is empty, else namespace/name. On
    such an object it does not fail. *)
Definition MetaNamespaceKeyFunc (namespace name : string) : string :=
  if Nat.ltb 0 (String.length namespace) then namespace +:+ "/" +:+ name
  else name.

(** ** The event router and the work queue *)

(** What an informer hands to an event handler, an [interface{}]: one of
    the watched kinds, a [cache.DeletedFinalStateUnknown] tombstone with
    its key and its object, or something else. *)
Inductive Object : Type :=
| ObjObjectStore (store : ObjectStore)
| ObjDeployment (dpl : Deployment)
| ObjVolume (vol : Volume)
| ObjService (svc : Service)
| ObjPersistentVolumeClaim (pvc : PersistentVolumeClaim)
| ObjDeletedFinalStateUnknown (key : string) (obj : Object)
| ObjOther.

(** A call made on the rate-limited work queue, with its key. *)
Inductive QueueCall : Type :=
| QueueAdd (key : string)
| QueueForget (key : string)
| QueueAddRateLimited (key : string)
| QueueDone (key : string).

#[global] Instance QueueCall_eq_dec : EqDecision QueueCall.
Proof. solve_decision. Defined.

(** Modelled from the spec: the read-only lookups [ds.GetObjectStoreRO] and
    [ds.GetPersistentVolumeClaimRO] of the datastore, lookups like the
    others. *)
Definition GetObjectStoreRO (name : string) (ds : DataStore) : result ObjectStore :=
  DS.get (failure ds VerbGetRO KObjectStore name) (ObjectStores ds !! name).

Definition GetPersistentVolumeClaimRO (name : string) (ds : DataStore)
  : result PersistentVolumeClaim :=
  DS.get (failure ds VerbGetRO KPersistentVolumeClaim name)
         (PersistentVolumeClaims ds !! name).

(** How a worker loop ends: it returns, it panics, or it waits in
    [queue.Get] for an item that has not come yet. *)
Inductive WorkerEnd : Type :=
| WorkerReturned
| WorkerPanicked
| WorkerWaiting.

Section Router.

Variable types : Types.
Variable osc : ObjectStoreController.

(** The key of an ObjectStore the datastore served. The model of the
    ObjectStore carries no namespace: the datastore serves the objects of
    the controller's namespace only. *)
Definition keyOfObjectStore (store : ObjectStore) : string :=
  MetaNamespaceKeyFunc (namespace osc) (Name store).

(** [controller.KeyFunc], the deletion-handling key function: the key of
    a tombstone is the one it carries. It fails on an object without
    metadata. *)
Definition KeyFunc (obj : Object) : result string :=
  match obj with
  | ObjDeletedFinalStateUnknown key _ => Ok key
  | ObjObjectStore store => Ok (keyOfObjectStore store)
  | ObjDeployment dpl => Ok (MetaNamespaceKeyFunc (dpl_Namespace dpl) (dpl_Name dpl))
  | ObjVolume vol => Ok (MetaNamespaceKeyFunc (vol_Namespace vol) (vol_Name vol))
  | ObjService svc => Ok (MetaNamespaceKeyFunc (svc_Namespace svc) (svc_Name svc))
  | ObjPersistentVolumeClaim pvc =>
      Ok (MetaNamespaceKeyFunc (pvc_Namespace pvc) (pvc_Name pvc))
  | ObjOther => Err (ErrNew "object has no meta")
  end.

(** Each handler returns the queue with the call it made, if any; where
    the source calls [utilruntime.HandleError] or returns early the queue
    is returned as it was. *)
Definition enqueueObjectStore (obj : Object) (queue : list QueueCall)
  : list QueueCall :=
  match KeyFunc obj with
  | Err _ => queue
  | Ok key => queue ++ [QueueAdd key]
  end.

Definition enqueueDeployment (obj : Object) (ds : DataStore) (queue : list QueueCall)
  : list QueueCall :=
  let asserted :=
    match obj with
    | ObjDeployment dpl => Some dpl
    | ObjDeletedFinalStateUnknown _ (ObjDeployment dpl) => Some dpl
    | _ => None
    end in
  match asserted with
  | None => queue
  | Some dpl =>
      if negb (String.eqb (dpl_Namespace dpl) (namespace osc))
         || Nat.ltb (length (dpl_OwnerReferences dpl)) 1
      then queue (* no owner reference, not related to an object store *)
      else
        match dpl_OwnerReferences dpl with
        | [] => queue
        | owner :: _ =>
            let storeName := owner_Name owner in
            match GetObjectStoreRO storeName ds with
            | Err _ => queue (* not owned by an object store *)
            | Ok store => queue ++ [QueueAdd (keyOfObjectStore store)]
            end
        end
  end.

Definition enqueueVolume (obj : Object) (ds : DataStore) (queue : list QueueCall)
  : list QueueCall :=
  let asserted :=
    match obj with
    | ObjVolume vol => Some vol
    | ObjDeletedFinalStateUnknown _ (ObjVolume vol) => Some vol
    | _ => None
    end in
  match asserted with
  | None => queue
  | Some vol =>
      if Nat.ltb (length (vol_OwnerReferences vol)) 1
         || negb (String.eqb (controllerID osc) (vol_Status_OwnerID vol))
      then queue
      else
        match vol_OwnerReferences vol with
        | [] => queue
        | owner :: _ =>
            let pvcName := owner_Name owner in
            match GetPersistentVolumeClaimRO pvcName ds with
            | Err _ => queue
            | Ok pvc =>
                if Nat.ltb (length (pvc_OwnerReferences pvc)) 1 then queue
                else
                  match pvc_OwnerReferences pvc with
                  | [] => queue
                  | owner :: _ =>
                      let storeName := owner_Name owner in
                      match GetObjectStoreRO storeName ds with
                      | Err _ => queue
                      | Ok store => queue ++ [QueueAdd (keyOfObjectStore store)]
                      end
                  end
            end
        end
  end.

Definition enqueueService (obj : Object) (ds : DataStore) (queue : list QueueCall)
  : list QueueCall :=
  let asserted :=
    match obj with
    | ObjService svc => Some svc
    | ObjDeletedFinalStateUnknown _ (ObjService svc) => Some svc
    | _ => None
    end in
  match asserted with
  | None => queue
  | Some svc =>
      if negb (String.eqb (svc_Namespace svc) (namespace osc))
         || Nat.ltb (length (svc_OwnerReferences svc)) 1
      then queue
      else
        match svc_OwnerReferences svc with
        | [] => queue
        | owner :: _ =>
            let storeName := owner_Name owner in
            match GetObjectStoreRO storeName ds with
            | Err _ => queue (* not owned by an object store *)
            | Ok store => queue ++ [QueueAdd (keyOfObjectStore store)]
            end
        end
  end.

Definition enqueuePVC (obj : Object) (ds : DataStore) (queue : list QueueCall)
  : list QueueCall :=
  let asserted :=
    match obj with
    | ObjPersistentVolumeClaim pvc => Some pvc
    | ObjDeletedFinalStateUnknown _ (ObjPersistentVolumeClaim pvc) => Some pvc
    | _ => None
    end in
  match asserted with
  | None => queue
  | Some pvc =>
      if negb (String.eqb (pvc_Namespace pvc) (namespace osc))
         || Nat.ltb (length (pvc_OwnerReferences pvc)) 1
      then queue
      else
        match pvc_OwnerReferences pvc with
        | [] => queue
        | owner :: _ =>
            let storeName := owner_Name owner in
            match GetObjectStoreRO storeName ds with
            | Err _ => queue (* not owned by an object store *)
            | Ok store => queue ++ [QueueAdd (keyOfObjectStore store)]
            end
        end
  end.

(** processNextWorkItem, given what [queue.Get] answered: the key and
    whether the queue is shutting down. [Some b] is the boolean returned,
    [None] a panic out of reconcile; the deferred [queue.Done] runs in
    both cases. *)
Definition processNextWorkItem (got : string * bool) (queue : list QueueCall)
    (ds : DataStore) : option bool * list QueueCall * DataStore :=
  let '(key, quit) := got in
  if quit then (Some false, queue, ds)
  else
    match reconcile types osc key ds with
    | (Return None, ds) => (Some true, queue ++ [QueueForget key; QueueDone key], ds)
    | (Return (Some _), ds) =>
        (Some true, queue ++ [QueueAddRateLimited key; QueueDone key], ds)
    | (Panic, ds) => (None, queue ++ [QueueDone key], ds)
    end.

(** worker: [for osc.processNextWorkItem() {}], over the answers
    [queue.Get] gives one after the other. *)
Fixpoint worker (gets : list (string * bool)) (queue : list QueueCall)
    (ds : DataStore) : WorkerEnd * list QueueCall * DataStore :=
  match gets with
  | [] => (WorkerWaiting, queue, ds)
  | got :: rest =>
      match processNextWorkItem got queue ds with
      | (Some true, queue, ds) => worker rest queue ds
      | (Some false, queue, ds) => (WorkerReturned, queue, ds)
      | (None, queue, ds) => (WorkerPanicked, queue, ds)
      end
  end.

End Router.

(** ** The snapshot proxy of package engineapi *)

Module Proxy.

Section Client.

(** The engine, the snapshot and purge-status records and the gRPC client
    are not part of this repository's sources at hand: they are
    parameters. A Go map value here is a pointer, [None] when nil. The
    pointer conversions to [longhorn.Snapshot] and [longhorn.PurgeStatus]
    are between types with the same underlying struct and keep the
    value. *)
Variable Engine : Type.
Variable Snapshot : Type.
Variable PurgeStatus : Type.
Variable DirectToURL : Engine -> string.
Variable grpc_VolumeSnapshot : string -> string -> gmap string string -> result string.
Variable grpc_SnapshotList : string -> result (gmap string (option Snapshot)).
Variable grpc_SnapshotClone : string -> string -> string -> option error.
Variable grpc_SnapshotRevert : string -> string -> option error.
Variable grpc_SnapshotPurge : string -> bool -> option error.
Variable grpc_SnapshotPurgeStatus : string -> result (gmap string (option PurgeStatus)).
Variable grpc_SnapshotRemove : string -> list string -> option error.

Definition SnapshotCreate (e : Engine) (name : string) (labels : gmap string string)
  : result string :=
  grpc_VolumeSnapshot (DirectToURL e) name labels.

(** [for k, v := range recv { snapshots[k] = v }] into a fresh map. *)
Definition SnapshotList (e : Engine) : result (gmap string (option Snapshot)) :=
  match grpc_SnapshotList (DirectToURL e) with
  | Err err => Err err
  | Ok recv => Ok (map_fold (fun k v snapshots => <[k := v]> snapshots) ∅ recv)
  end.

(** [recv[name]] is nil for a name that is not in the map. *)
Definition SnapshotGet (e : Engine) (name : string) : result (option Snapshot) :=
  match SnapshotList e with
  | Err err => Err err
  | Ok recv =>
      Ok (match recv !! name with
          | Some snapshot => snapshot
          | None => None
          end)
  end.

Definition SnapshotClone (e : Engine) (name fromController : string) : option error :=
  grpc_SnapshotClone (DirectToURL e) name fromController.

Definition SnapshotRevert (e : Engine) (name : string) : option error :=
  grpc_SnapshotRevert (DirectToURL e) name.

Definition SnapshotPurge (e : Engine) : option error :=
  grpc_SnapshotPurge (DirectToURL e) true.

Definition SnapshotPurgeStatus (e : Engine)
  : result (gmap string (option PurgeStatus)) :=
  match grpc_SnapshotPurgeStatus (DirectToURL e) with
  | Err err => Err err
  | Ok recv => Ok (map_fold (fun k v status => <[k := v]> status) ∅ recv)
  end.

Definition SnapshotDelete (e : Engine) (name : string) : option error :=
  grpc_SnapshotRemove (DirectToURL e) [name].

End Client.

End Proxy.

(** ** Fixtures

    The objects of object_store_controller_test.go, used to run the
    definitions on concrete inputs. *)
Module Fixture.

Definition TestNamespace : string := "default".
Definition TestObjectStoreName : string := "test-object-store".
Definition TestObjectStoreSecretName : string := "test-secret".
Definition TestObjectStorePVName : string := "pv-test-object-store".
Definition TestObjectStorePVCName : string := "pvc-test-object-store".
Definition TestObjectStoreImage : string := "quay.io/s3gw/s3gw:latest".
Definition TestObjectStoreUIImage : string := "quay.io/s3gw/s3gw-ui:latest".
Definition TestObjectStoreControllerID : string := "test-objecte-store-controller".
(** [resource.MustParse("10Gi")] *)
Definition TestObjectStoreSize : Quantity := QuantityInt64 10737418240 0.

(** Sample values for the constants of package types. *)
Definition types : Types :=
  {| ObjectStoreContainerName := "s3gw";
     ObjectStoreUIContainerName := "s3gw-ui";
     ObjectStoreStorageClassName := "longhorn-static";
     ObjectStoreLogLevel := 1;
     ObjectStoreContainerPort := 7480;
     ObjectStoreUIContainerPort := 8080;
     ObjectStoreStatusContainerPort := 9090;
     ObjectStoreServicePort := 80;
     ObjectStoreUIServicePort := 8080;
     ObjectStoreStatusServicePort := 9090 |}.

Definition osc : ObjectStoreController :=
  {| controllerID := TestObjectStoreControllerID;
     namespace := TestNamespace |}.

Definition key : string := "default/test-object-store".

Definition volumeParameters : ObjectStoreVolumeParameterSpec :=
  {| NumberOfReplicas := 3;
     ReplicaSoftAntiAffinity := EmptyString;
     ReplicaZoneSoftAntiAffinity := EmptyString;
     ReplicaDiskSoftAntiAffinity := EmptyString;
     DiskSelector := [];
     NodeSelector := [];
     DataLocality := EmptyString;
     FromBackup := EmptyString;
     StaleReplicaTimeout := 0;
     ReplicaAutoBalance := EmptyString;
     RevisionCounterDisabled := false;
     UnmapMarkSnapChainRemoved := EmptyString;
     BackendStoreDriver := EmptyString |}.

(** osTestNewObjectStore, with the given target state, public endpoints
    and status. *)
Definition objectStore (target : ObjectStoreState)
    (endpoints : list ObjectStoreEndpointSpec) (status : ObjectStoreStatus)
  : ObjectStore :=
  {| Name := TestObjectStoreName;
     DeletionTimestamp := None;
     Finalizers := [];
     Spec := {| Size := TestObjectStoreSize;
                Image := TestObjectStoreImage;
                UIImage := TestObjectStoreUIImage;
                TargetState := target;
                Credentials_Name := TestObjectStoreSecretName;
                Endpoints := endpoints;
                VolumeParameters := volumeParameters |};
     Status := status |}.

Definition emptyStatus : ObjectStoreStatus :=
  {| State := ObjectStoreStateUnset; Status_Endpoints := [] |}.

Definition statusOf (s : ObjectStoreState) : ObjectStoreStatus :=
  {| State := s; Status_Endpoints := ["test-object-store.default.svc"] |}.

(** The same object marked for deletion. *)
Definition deleted (finalizers : list string) (store : ObjectStore) : ObjectStore :=
  {| Name := Name store;
     DeletionTimestamp := Some 1;
     Finalizers := finalizers;
     Spec := Spec store;
     Status := Status store |}.

(** osTestNewDeployment, with the given replica pointer and status. *)
Definition deployment (replicas : option Z) (containers : list Container)
    (statusReplicas available unavailable : Z) : Deployment :=
  {| dpl_Name := TestObjectStoreName;
     dpl_Namespace := TestNamespace;
     dpl_OwnerReferences := [];
     dpl_Replicas := replicas;
     dpl_Strategy := "Recreate";
     dpl_Containers := containers;
     dpl_Volumes := [];
     dpl_ImagePullSecrets := [];
     dpl_Status_Replicas := statusReplicas;
     dpl_Status_AvailableReplicas := available;
     dpl_Status_UnavailableReplicas := unavailable |}.

Definition container (name image : string) : Container :=
  {| container_Name := name;
     container_Image := image;
     container_Args := [];
     container_Ports := [];
     container_Env := [];
     container_EnvFrom := [];
     container_VolumeMounts := [] |}.

Definition containers : list Container :=
  [ container "s3gw" TestObjectStoreImage;
    container "s3gw-ui" TestObjectStoreUIImage ].

(** osTestNewService *)
Definition service : Service :=
  {| svc_Name := TestObjectStoreName;
     svc_Namespace := TestNamespace;
     svc_OwnerReferences := [];
     svc_Ports := [] |}.

(** A datastore without failures that holds the given object store and
    deployments and nothing else. *)
Definition dataStore (stores : list ObjectStore) (dpls : list Deployment)
    (svcs : list Service) : DataStore :=
  {| ObjectStores := list_to_map (map (fun s => (Name s, s)) stores);
     PersistentVolumeClaims := ∅;
     Volumes := ∅;
     PersistentVolumes := ∅;
     Deployments := list_to_map (map (fun d => (dpl_Name d, d)) dpls);
     Services := list_to_map (map (fun s => (svc_Name s, s)) svcs);
     Ingresses := ∅;
     Secrets := ∅;
     RegistrySecretSetting := EmptyString;
     failure := fun _ _ _ => None;
     actions := [] |}.


(** A longhorn volume under the name the controller looks for, owned by
    the given manager. *)
Definition volume (owner : string) (robustness : VolumeRobustness) : Volume :=
  {| vol_Name := TestObjectStorePVName;
     vol_Namespace := TestNamespace;
     vol_Annotation_ObjectStoreName := TestObjectStoreName;
     vol_OwnerReferences := [];
     vol_Size := resourceAsInt64 TestObjectStoreSize;
     vol_Frontend := "blockdev";
     vol_AccessMode := "rwo";
     vol_Parameters := volumeParameters;
     vol_Status_OwnerID := owner;
     vol_Status_Robustness := robustness |}.

Definition withVolume (vol : Volume) (ds : DataStore) : DataStore :=
  DS.withVolumes (<[vol_Name vol := vol]> (Volumes ds)) ds.

(** Two public endpoints, the first with a TLS secret. *)
Definition publicEndpoint : ObjectStoreEndpointSpec :=
  {| endpoint_Name := "public";
     endpoint_DomainName := "s3.example.com";
     endpoint_TLS_Name := "s3-example-tls" |}.

Definition plainEndpoint : ObjectStoreEndpointSpec :=
  {| endpoint_Name := "plain";
     endpoint_DomainName := "s3.example.org";
     endpoint_TLS_Name := EmptyString |}.

(** Another manager wins the race for the ingress of the first endpoint:
    its create call is answered already-exists. *)
Definition racing (verb : Verb) (kind : Kind) (name : string) : option error :=
  match verb, kind with
  | VerbCreate, KIngress =>
      if String.eqb name "test-object-store-public" then Some ErrAlreadyExists
      else None
  | _, _ => None
  end.

End Fixture.

(** ** Vocabulary of the statements *)

(** The resources an ObjectStore depends on, as the datastore holds them. *)
Definition dependents (ds : DataStore) :=
  (PersistentVolumeClaims ds, Volumes ds, PersistentVolumes ds,
   Deployments ds, Services ds, Ingresses ds).

(** The deployment asks for no replica: the pointer is nil or holds 0. *)
Definition zeroReplicas (dpl : Deployment) : Prop :=
  dpl_Replicas dpl = None \/ dpl_Replicas dpl = Some 0.

(** [error] as the handlers return it, from the result of a write. *)
Definition errorOf {A : Type} (r : result A) : option error :=
  match r with
  | Ok _ => None
  | Err err => Some err
  end.

(** A lookup resolves to not-found. *)
Definition resolvesNotFound {A : Type} (lookup : result A) : Prop :=
  exists err, lookup = Err err /\ ErrorIsNotFound err = true.

(** Every dependent resource handleTerminating looks for resolves to
    not-found. *)
Definition dependentsGone (osc : ObjectStoreController) (store : ObjectStore)
    (ds : DataStore) : Prop :=
  resolvesNotFound (GetService (Name store) ds)
  /\ resolvesNotFound (GetDeployment (Name store) ds)
  /\ resolvesNotFound (GetPersistentVolumeClaim (genPVCName store) ds)
  /\ resolvesNotFound (GetPersistentVolume (genPVName store) ds)
  /\ resolvesNotFound (GetVolume (genPVName store) ds).

(** The deployment passes the readiness test of checkDeployment. *)
Definition deploymentReady (dpl : Deployment) : Prop :=
  dpl_Status_Replicas dpl <> 0 /\ dpl_Status_UnavailableReplicas dpl <= 0.




(** The contract of a get-or-create operation, after section 4.2 of the
    design: given how the resource is looked up and how it is created,
    - a resource that is found is returned, with the store and the
      datastore as they were;
    - on not-found the resource is created: when the creation succeeds the
      created resource is returned and the state is Starting (the store is
      untouched if it was Starting already), when it fails the error is
      returned wrapped and the state is as it was;
    - any other lookup error is returned as it is, with the store and the
      datastore as they were. *)
Definition GetOrCreateContract {A : Type}
    (lookup : ObjectStore -> DataStore -> result A)
    (create : ObjectStore -> DataStore -> result A * DataStore)
    (context : string)
    (getOrCreate : ObjectStore -> DataStore -> result A * ObjectStore * DataStore)
  : Prop :=
  forall store ds,
    (forall a, lookup store ds = Ok a -> getOrCreate store ds = (Ok a, store, ds))
    /\ (forall err, lookup store ds = Err err -> ErrorIsNotFound err = true ->
          (forall a ds', create store ds = (Ok a, ds') ->
             getOrCreate store ds = (Ok a, setState ObjectStoreStateStarting store, ds')
             /\ (State (Status store) = ObjectStoreStateStarting ->
                 setState ObjectStoreStateStarting store = store))
          /\ (forall e ds', create store ds = (Err e, ds') ->
                getOrCreate store ds = (Err (ErrWrap e context), store, ds')))
    /\ (forall err, lookup store ds = Err err -> ErrorIsNotFound err = false ->
          getOrCreate store ds = (Err err, store, ds)).

(** A create function submits the resource synthesized from the
    ObjectStore: when it succeeds, what it returns is that resource, the
    datastore holds it under its name, and one create call was issued. *)
Definition CreatesSynthesized {A : Type}
    (create : ObjectStore -> DataStore -> result A * DataStore)
    (synthesized : ObjectStore -> DataStore -> A)
    (held : DataStore -> gmap string A) (name : ObjectStore -> string)
    (action : A -> Action) : Prop :=
  forall store ds a ds',
    create store ds = (Ok a, ds') ->
    a = synthesized store ds
    /\ held ds' !! name store = Some a
    /\ actions ds' = actions ds ++ [action a].

(** The rule has one path, the prefix "/", routed to the port named s3 of
    the service named after the ObjectStore. *)
Definition routesToS3 (store : ObjectStore) (rule : IngressRule) : Prop :=
  rule_HTTP_Paths rule =
    [ {| path_Path := "/"; path_PathType := "Prefix";
         path_Backend := {| backend_Service_Name := Name store;
                            backend_Service_Port_Name := "s3" |} |} ].

(** After the call an ingress is held under the name of the endpoint, or
    the create call for it was answered already-exists. *)
Definition ingressEnsured (store : ObjectStore) (ds' : DataStore)
    (endpoint : ObjectStoreEndpointSpec) : Prop :=
  is_Some (Ingresses ds' !! ingressName store endpoint)
  \/ exists e, failure ds' VerbCreate KIngress (ingressName store endpoint) = Some e
               /\ ErrorIsAlreadyExists e = true.

(** The write call is a write of the ObjectStore status. *)
Definition isStatusWrite (a : Action) : Prop :=
  match a with
  | ActionUpdateObjectStoreStatus _ _ => True
  | _ => False
  end.

(** [ds'] is reached from [ds] by a run of write calls none of which is a
    status write; with no call at all, nothing has changed. *)
Definition advances (ds ds' : DataStore) : Prop :=
  exists calls,
    actions ds' = actions ds ++ calls
    /\ Forall (fun a => ~ isStatusWrite a) calls
    /\ (calls = [] -> ds' = ds).

(** The number of "/" in a string. *)
Fixpoint countSlash (s : string) : nat :=
  match s with
  | EmptyString => 0
  | String c rest => if Ascii.eqb c "/"%char then S (countSlash rest) else countSlash rest
  end.

(** Nothing the controller depends on has been taken away or altered
    between [ds] and [ds']: a storage claim, volume, volume handle,
    service or ingress held in [ds] is held unchanged in [ds'], a
    deployment held in [ds] is still held in [ds'], and the secrets, the
    registry-secret setting and the failures to come are the same. *)
Definition dependentsKept (ds ds' : DataStore) : Prop :=
  (forall k v, PersistentVolumeClaims ds !! k = Some v ->
               PersistentVolumeClaims ds' !! k = Some v)
  /\ (forall k v, Volumes ds !! k = Some v -> Volumes ds' !! k = Some v)
  /\ (forall k v, PersistentVolumes ds !! k = Some v ->
                  PersistentVolumes ds' !! k = Some v)
  /\ (forall k v, Services ds !! k = Some v -> Services ds' !! k = Some v)
  /\ (forall k v, Ingresses ds !! k = Some v -> Ingresses ds' !! k = Some v)
  /\ (forall k, is_Some (Deployments ds !! k) -> is_Some (Deployments ds' !! k))
  /\ Secrets ds' = Secrets ds
  /\ RegistrySecretSetting ds' = RegistrySecretSetting ds
  /\ failure ds' = failure ds.

(** The ObjectStores of [ds'] are those of [ds], each with the name, the
    spec and the deletion timestamp it had: none was added, none removed,
    and only status and finalizers may differ. *)
Definition objectStoresKept (ds ds' : DataStore) : Prop :=
  forall k,
    match ObjectStores ds !! k, ObjectStores ds' !! k with
    | Some s, Some s' =>
        Name s' = Name s /\ Spec s' = Spec s
        /\ DeletionTimestamp s' = DeletionTimestamp s
    | None, None => True
    | _, _ => False
    end.

(** Every deployment the datastore holds has its replica pointer set. *)
Definition allReplicasSet (ds : DataStore) : Prop :=
  forall k dpl, Deployments ds !! k = Some dpl -> dpl_Replicas dpl <> None.

(** No call meets an API failure. *)
Definition noFailure (ds : DataStore) : Prop :=
  forall verb kind name, failure ds verb kind name = None.

(** The write call creates the ingress of one of the endpoints of the
    store. *)
Definition createsEndpointIngress (osc : ObjectStoreController) (store : ObjectStore)
    (a : Action) : Prop :=
  exists endpoint,
    In endpoint (Endpoints (Spec store))
    /\ a = ActionCreateIngress (newIngress osc store endpoint).

(** The store with the cluster-internal endpoint added when its status
    lists none, as handleStarting does after the ingresses. *)
Definition withInternalEndpoint (osc : ObjectStoreController) (store : ObjectStore)
  : ObjectStore :=
  if Nat.eqb (length (Status_Endpoints (Status store))) 0 then
    appendEndpoint (Name store +:+ "." +:+ namespace osc +:+ ".svc") store
  else store.

(** The deployment asks for one replica, is ready and runs the two images
    of the spec: the deployment check has nothing to object or to do. *)
Definition deploymentCurrent (types : Types) (store : ObjectStore) (dpl : Deployment)
  : Prop :=
  dpl_Replicas dpl = Some 1
  /\ deploymentReady dpl
  /\ GetImageOfDeploymentContainerWithName dpl (ObjectStoreContainerName types)
     = Image (Spec store)
  /\ GetImageOfDeploymentContainerWithName dpl (ObjectStoreUIContainerName types)
     = UIImage (Spec store).

(** The five dependents of the store are found and healthy: the claim is
    bound, the volume is not faulted, the volume handle is bound and the
    deployment is current. *)
Definition dependentsHealthy (types : Types) (store : ObjectStore) (ds : DataStore)
  : Prop :=
  exists pvc vol pv dpl svc,
    GetPersistentVolumeClaim (genPVCName store) ds = Ok pvc
    /\ pvc_Status_Phase pvc = ClaimBound
    /\ GetVolume (genPVName store) ds = Ok vol
    /\ vol_Status_Robustness vol <> VolumeRobustnessFaulted
    /\ GetPersistentVolume (genPVName store) ds = Ok pv
    /\ pv_Status_Phase pv = VolumeBound
    /\ GetDeployment (Name store) ds = Ok dpl
    /\ deploymentCurrent types store dpl
    /\ GetService (Name store) ds = Ok svc.

(** Every public endpoint of the store has its ingress. *)
Definition ingressesFound (store : ObjectStore) (ds : DataStore) : Prop :=
  Forall (fun endpoint =>
            exists ingress, GetIngress (ingressName store endpoint) ds = Ok ingress)
         (Endpoints (Spec store)).

(** A cluster in which the dependents of the test ObjectStore exist and
    are healthy, the volume being owned by the test controller. *)
Module Healthy.

Definition claim : PersistentVolumeClaim :=
  {| pvc_Name := Fixture.TestObjectStorePVCName;
     pvc_Namespace := Fixture.TestNamespace;
     pvc_OwnerReferences :=
       [ {| owner_Kind := "ObjectStore"; owner_Name := Fixture.TestObjectStoreName |} ];
     pvc_AccessModes := ["ReadWriteOnce"];
     pvc_Requests_Storage := Fixture.TestObjectStoreSize;
     pvc_StorageClassName := Some "longhorn-static";
     pvc_VolumeName := Fixture.TestObjectStorePVName;
     pvc_Status_Phase := ClaimBound |}.

Definition volume : Volume :=
  {| vol_Name := Fixture.TestObjectStorePVName;
     vol_Namespace := Fixture.TestNamespace;
     vol_Annotation_ObjectStoreName := Fixture.TestObjectStoreName;
     vol_OwnerReferences :=
       [ {| owner_Kind := "PersistentVolumeClaim";
            owner_Name := Fixture.TestObjectStorePVCName |} ];
     vol_Size := resourceAsInt64 Fixture.TestObjectStoreSize;
     vol_Frontend := "blockdev";
     vol_AccessMode := "rwo";
     vol_Parameters := Fixture.volumeParameters;
     vol_Status_OwnerID := Fixture.TestObjectStoreControllerID;
     vol_Status_Robustness := VolumeRobustnessHealthy |}.

Definition handle : PersistentVolume :=
  {| pv_Name := Fixture.TestObjectStorePVName;
     pv_AccessModes := ["ReadWriteOnce"];
     pv_Capacity_Storage := Fixture.TestObjectStoreSize;
     pv_StorageClassName := "longhorn-static";
     pv_ReclaimPolicy := "Retain";
     pv_VolumeMode := Some "Filesystem";
     pv_ClaimRef_Namespace := Fixture.TestNamespace;
     pv_ClaimRef_Name := Fixture.TestObjectStorePVCName;
     pv_CSI_Driver := "driver.longhorn.io";
     pv_CSI_VolumeHandle := Fixture.TestObjectStorePVName;
     pv_CSI_FSType := "xfs";
     pv_CSI_mkfsParams := "-f -m crc=1 -m reflink=1";
     pv_Status_Phase := VolumeBound |}.

Definition deployment : Deployment :=
  Fixture.deployment (Some 1) Fixture.containers 1 1 0.


Definition dataStore (store : ObjectStore) : DataStore :=
  {| ObjectStores := {[ Name store := store ]};
     PersistentVolumeClaims := {[ pvc_Name claim := claim ]};
     Volumes := {[ vol_Name volume := volume ]};
     PersistentVolumes := {[ pv_Name handle := handle ]};
     Deployments := {[ dpl_Name deployment := deployment ]};
     Services := {[ svc_Name Fixture.service := Fixture.service ]};
     Ingresses := ∅;
     Secrets := ∅;
     RegistrySecretSetting := EmptyString;
     failure := fun _ _ _ => None;
     actions := [] |}.

End Healthy.

(** The states a pass may leave an ObjectStore in, by whether its
    deletion timestamp is set and by the state the pass found. *)
Definition successors (deleted : bool) (s : ObjectStoreState) : list ObjectStoreState :=
  if deleted then [ObjectStoreStateTerminating]
  else
    match s with
    | ObjectStoreStateStarting | ObjectStoreStateError =>
        [ObjectStoreStateStarting; ObjectStoreStateRunning; ObjectStoreStateError]
    | ObjectStoreStateRunning =>
        [ObjectStoreStateRunning; ObjectStoreStateStopping; ObjectStoreStateError;
         ObjectStoreStateStarting]
    | ObjectStoreStateStopping =>
        [ObjectStoreStateStopping; ObjectStoreStateStopped; ObjectStoreStateError]
    | ObjectStoreStateStopped => [ObjectStoreStateStopped; ObjectStoreStateStarting]
    | other => [other; ObjectStoreStateStarting]
    end.

(** [store'] is [store] with at most its status changed: the state kept
    or moved to one of [states], the endpoint list kept or extended at
    its end. *)
Definition statusMoved (states : list ObjectStoreState) (store store' : ObjectStore)
  : Prop :=
  Name store' = Name store
  /\ DeletionTimestamp store' = DeletionTimestamp store
  /\ Finalizers store' = Finalizers store
  /\ Spec store' = Spec store
  /\ (State (Status store') = State (Status store)
      \/ In (State (Status store')) states)
  /\ exists more,
       Status_Endpoints (Status store') = Status_Endpoints (Status store) ++ more.

(** One of the health checks of handleStarting fails, and fails without
    a write: the claim or the volume handle is not bound, the volume is
    faulted, or the deployment asks for one replica and is not ready. *)
Definition unready (pvc : PersistentVolumeClaim) (vol : Volume)
    (pv : PersistentVolume) (dpl : Deployment) : Prop :=
  pvc_Status_Phase pvc <> ClaimBound
  \/ vol_Status_Robustness vol = VolumeRobustnessFaulted
  \/ pv_Status_Phase pv <> VolumeBound
  \/ (dpl_Replicas dpl = Some 1 /\ ~ deploymentReady dpl).

(** The keys a worker takes off the queue, given the answers of
    [queue.Get]: those up to the first answer that tells it to quit. *)
Fixpoint taken (gets : list (string * bool)) : list string :=
  match gets with
  | [] => []
  | (key, quit) :: rest => if quit then [] else key :: taken rest
  end.

(** The keys of the calls of each kind, in the order of the calls. *)
Definition doneKeys (calls : list QueueCall) : list string :=
  flat_map (fun call => match call with QueueDone key => [key] | _ => [] end) calls.

Definition settledKeys (calls : list QueueCall) : list string :=
  flat_map (fun call =>
              match call with
              | QueueForget key | QueueAddRateLimited key => [key]
              | _ => []
              end) calls.

Definition addedKeys (calls : list QueueCall) : list string :=
  flat_map (fun call => match call with QueueAdd key => [key] | _ => [] end) calls.

(** Clusters whose API server fails a lookup. *)
Module Faulty.

Definition volumeLookup (verb : Verb) (kind : Kind) (name : string) : option error :=
  match verb, kind with
  | VerbGetRO, KVolume => Some (ErrAPI "etcdserver: request timed out")
  | _, _ => None
  end.

Definition storeLookup (verb : Verb) (kind : Kind) (name : string) : option error :=
  match verb, kind with
  | VerbGet, KObjectStore => Some (ErrAPI "etcdserver: request timed out")
  | _, _ => None
  end.



Definition deploymentLookup (verb : Verb) (kind : Kind) (name : string) : option error :=
  match verb, kind with
  | VerbGet, KDeployment => Some (ErrAPI "etcdserver: request timed out")
  | _, _ => None
  end.

Definition claimCreate (verb : Verb) (kind : Kind) (name : string) : option error :=
  match verb, kind with
  | VerbCreate, KPersistentVolumeClaim => Some (ErrAPI "exceeded quota")
  | _, _ => None
  end.

(** The healthy cluster of the test ObjectStore with its claim still
    pending. *)
Definition pendingClaim : PersistentVolumeClaim :=
  {| pvc_Name := pvc_Name Healthy.claim;
     pvc_Namespace := pvc_Namespace Healthy.claim;
     pvc_OwnerReferences := pvc_OwnerReferences Healthy.claim;
     pvc_AccessModes := pvc_AccessModes Healthy.claim;
     pvc_Requests_Storage := pvc_Requests_Storage Healthy.claim;
     pvc_StorageClassName := pvc_StorageClassName Healthy.claim;
     pvc_VolumeName := pvc_VolumeName Healthy.claim;
     pvc_Status_Phase := ClaimPending |}.

Definition pending (store : ObjectStore) : DataStore :=
  DS.withPersistentVolumeClaims {[ pvc_Name pendingClaim := pendingClaim ]}
    (Healthy.dataStore store).

End Faulty.

(** What an event handler of a dependent did to the queue: nothing, or
    one [Add] of the key of an ObjectStore the datastore served. *)
Definition addsHeldStore (osc : ObjectStoreController) (ds : DataStore)
    (queue queue' : list QueueCall) : Prop :=
  queue' = queue
  \/ exists storeName store,
       GetObjectStoreRO storeName ds = Ok store
       /\ queue' = queue ++ [QueueAdd (keyOfObjectStore osc store)].

(** On not-found, a get-or-create operation that has [reached] its create
    call issues that one call, for the resource synthesized from the
    ObjectStore, whatever the call then answers. If the call succeeds,
    the synthesized resource is returned and held under its name, and the
    state is Starting; if it fails, the error is returned wrapped with
    [context], nothing more is held than before and the ObjectStore is
    as it was. *)
Definition IssuesCreate {A : Type}
    (lookup : ObjectStore -> DataStore -> result A)
    (getOrCreate : ObjectStore -> DataStore -> result A * ObjectStore * DataStore)
    (reached : ObjectStore -> DataStore -> Prop)
    (synthesized : ObjectStore -> DataStore -> A)
    (held : DataStore -> gmap string A) (name : ObjectStore -> string)
    (action : A -> Action) (context : string) : Prop :=
  forall store ds err,
    lookup store ds = Err err -> ErrorIsNotFound err = true -> reached store ds ->
    let a := synthesized store ds in
    let r := fst (fst (getOrCreate store ds)) in
    let store' := snd (fst (getOrCreate store ds)) in
    let ds' := snd (getOrCreate store ds) in
    actions ds' = actions ds ++ [action a]
    /\ ((r = Ok a
         /\ held ds' !! name store = Some a
         /\ State (Status store') = ObjectStoreStateStarting)
        \/ (exists e, r = Err (ErrWrap e context)
                      /\ held ds' = held ds
                      /\ store' = store)).

(** The two lookups createDeployment makes before its create call are
    answered: the credential secret is found or not found, and the
    registry-secret setting is read. *)
Definition deploymentInputsRead (store : ObjectStore) (ds : DataStore) : Prop :=
  (forall e, GetSecret (Credentials_Name (Spec store)) ds = Err e ->
             ErrorIsNotFound e = true)
  /\ GetSetting_RegistrySecret ds = Ok (RegistrySecretSetting ds).

(** The secret handed to the deployment: the one found, or nil. *)
Definition secretFound (store : ObjectStore) (ds : DataStore) : option Secret :=
  match GetSecret (Credentials_Name (Spec store)) ds with
  | Ok secret => Some secret
  | Err _ => None
  end.

(** [scaled] is [dpl] asking for [n] replicas, every other field as it
    is in [dpl]. *)
Definition scaledTo (n : Z) (dpl scaled : Deployment) : Prop :=
  dpl_Replicas scaled = Some n
  /\ dpl_Name scaled = dpl_Name dpl
  /\ dpl_Namespace scaled = dpl_Namespace dpl
  /\ dpl_OwnerReferences scaled = dpl_OwnerReferences dpl
  /\ dpl_Strategy scaled = dpl_Strategy dpl
  /\ dpl_Containers scaled = dpl_Containers dpl
  /\ dpl_Volumes scaled = dpl_Volumes dpl
  /\ dpl_ImagePullSecrets scaled = dpl_ImagePullSecrets dpl
  /\ dpl_Status_Replicas scaled = dpl_Status_Replicas dpl
  /\ dpl_Status_AvailableReplicas scaled = dpl_Status_AvailableReplicas dpl
  /\ dpl_Status_UnavailableReplicas scaled = dpl_Status_UnavailableReplicas dpl.

(** What a lookup tells handleTerminating about a dependent: it is gone
    (not-found), it is still there, or the lookup failed with another
    error. *)
Inductive Answer : Type :=
| Gone
| Present
| Failed (e : error).

Definition answer {A : Type} (lookup : result A) : Answer :=
  match lookup with
  | Ok _ => Present
  | Err e => if ErrorIsNotFound e then Gone else Failed e
  end.

(** The answers for the five dependents, in the order handleTerminating
    asks: service, deployment, storage claim, volume handle, volume. *)
Definition dependentAnswers (store : ObjectStore) (ds : DataStore) : list Answer :=
  [ answer (GetService (Name store) ds);
    answer (GetDeployment (Name store) ds);
    answer (GetPersistentVolumeClaim (genPVCName store) ds);
    answer (GetPersistentVolume (genPVName store) ds);
    answer (GetVolume (genPVName store) ds) ].

(** What the first answer other than [Gone] makes of the pass: nil when
    the dependent is still there, the error when the lookup failed, and
    nil when every dependent is gone. *)
Fixpoint verdict (answers : list Answer) : option error :=
  match answers with
  | [] => None
  | Gone :: rest => verdict rest
  | Present :: _ => None
  | Failed e :: _ => Some e
  end.

(** The endpoints that lack an ingress, in the order of the list, given
    the ingresses held: an endpoint lacks one when none is held under
    its ingress name; it is then counted, and its ingress taken as held
    for the endpoints after it, so that of two endpoints with the same
    name only the first is counted. *)
Fixpoint lacking (osc : ObjectStoreController) (held : gmap string Ingress)
    (store : ObjectStore) (endpoints : list ObjectStoreEndpointSpec)
  : list ObjectStoreEndpointSpec :=
  match endpoints with
  | [] => []
  | endpoint :: rest =>
      match held !! ingressName store endpoint with
      | Some _ => lacking osc held store rest
      | None =>
          endpoint
          :: lacking osc
               (<[ingressName store endpoint := newIngress osc store endpoint]> held)
               store rest
      end
  end.

(** The object an event is about: the one a tombstone carries, else the
    object handed over. *)
Definition carried (obj : Object) : Object :=
  match obj with
  | ObjDeletedFinalStateUnknown _ inner => inner
  | _ => obj
  end.

(** * Properties *)

(** ** Basic facts about the datastore operations *)

Lemma get_Ok_inv {A : Type} (fail : option error) (found : option A) (a : A) :
  DS.get fail found = Ok a -> fail = None /\ found = Some a.
Proof.
  unfold DS.get. destruct fail; [discriminate|].
  destruct found; [|discriminate]. intros [= ->]. auto.
Qed.

(** ** Reconciling a key that resolves to nothing *)

(** C8. When the key splits and the lookup of the ObjectStore answers
    not-found, reconcile returns nil and hands the datastore back as it
    received it: no resource is created and no write call is recorded. *)
Theorem reconcile_nonexistent_key (types : Types) (osc : ObjectStoreController)
    (key ns name : string) (ds : DataStore) (err : error) :
  SplitMetaNamespaceKey key = Ok (ns, name) ->
  GetObjectStore name ds = Err err ->
  ErrorIsNotFound err = true ->
  reconcile types osc key ds = (Return None, ds).
Proof.
  intros Hkey Hget Hnf. unfold reconcile.
  rewrite Hkey, Hget, Hnf. reflexivity.
Qed.

Lemma reconcile_nonexistent_key_witness :
  let ds := Fixture.dataStore [] [] [] in
  SplitMetaNamespaceKey Fixture.key = Ok ("default", "test-object-store")
  /\ GetObjectStore "test-object-store" ds = Err ErrNotFound
  /\ reconcile Fixture.types Fixture.osc Fixture.key ds = (Return None, ds)
  /\ actions (snd (reconcile Fixture.types Fixture.osc Fixture.key ds)) = [].
Proof.
  intros ds.
  assert (Hrun : reconcile Fixture.types Fixture.osc Fixture.key ds = (Return None, ds)).
  { apply (reconcile_nonexistent_key Fixture.types Fixture.osc Fixture.key
             "default" "test-object-store" ds ErrNotFound); reflexivity. }
  split; [reflexivity|]. split; [reflexivity|]. split; [exact Hrun|].
  rewrite Hrun. reflexivity.
Defined.

(** ** Responsibility *)

(** C6. With no backing volume (the lookup answers not-found) the
    controller is responsible. With a volume whose owner is not this
    controller, it is not, and reconcile returns nil with the datastore
    untouched: nothing is written to the ObjectStore or its dependents. *)
Theorem responsibility_arbitration (types : Types) (osc : ObjectStoreController)
    (key ns name : string) (store : ObjectStore) (ds : DataStore) :
  SplitMetaNamespaceKey key = Ok (ns, name) ->
  GetObjectStore name ds = Ok store ->
  (forall err, GetVolumeRO (genPVName store) ds = Err err ->
               ErrorIsNotFound err = true ->
               isResponsibleFor osc store ds = true)
  /\ (forall vol, GetVolumeRO (genPVName store) ds = Ok vol ->
                  vol_Status_OwnerID vol <> controllerID osc ->
                  isResponsibleFor osc store ds = false
                  /\ reconcile types osc key ds = (Return None, ds)).
Proof.
  intros Hkey Hget. split.
  - intros err Hvol Hnf. unfold isResponsibleFor. rewrite Hvol, Hnf. reflexivity.
  - intros vol Hvol Hne.
    assert (Hresp : isResponsibleFor osc store ds = false).
    { unfold isResponsibleFor. rewrite Hvol. apply String.eqb_neq. congruence. }
    split; [exact Hresp|].
    unfold reconcile. rewrite Hkey, Hget, Hresp. reflexivity.
Qed.

Lemma responsibility_arbitration_witness :
  let store := Fixture.objectStore ObjectStoreStateRunning []
                 (Fixture.statusOf ObjectStoreStateRunning) in
  let ds := Fixture.dataStore [store] [] [] in
  let vol := Fixture.volume "another-manager" VolumeRobustnessHealthy in
  let ds' := Fixture.withVolume vol ds in
  isResponsibleFor Fixture.osc store ds = true
  /\ isResponsibleFor Fixture.osc store ds' = false
  /\ reconcile Fixture.types Fixture.osc Fixture.key ds' = (Return None, ds').
Proof.
  intros store ds vol ds'.
  split.
  - apply (proj1 (responsibility_arbitration Fixture.types Fixture.osc Fixture.key
                    "default" "test-object-store" store ds eq_refl eq_refl)
             ErrNotFound); reflexivity.
  - apply (proj2 (responsibility_arbitration Fixture.types Fixture.osc Fixture.key
                    "default" "test-object-store" store ds' eq_refl eq_refl) vol).
    + reflexivity.
    + discriminate.
Defined.

(** ** The path into the handlers *)

(** Once the key resolves to an ObjectStore this controller is
    responsible for, reconcile is the dispatch followed by the deferred
    status write. *)
Lemma reconcile_dispatch (types : Types) (osc : ObjectStoreController)
    (key ns name : string) (store : ObjectStore) (ds : DataStore) :
  SplitMetaNamespaceKey key = Ok (ns, name) ->
  GetObjectStore name ds = Ok store ->
  isResponsibleFor osc store ds = true ->
  reconcile types osc key ds =
    (fst (fst (dispatch types osc store ds)),
     writeBackStatus store (snd (fst (dispatch types osc store ds)))
       (snd (dispatch types osc store ds))).
Proof.
  intros Hkey Hget Hresp. unfold reconcile. rewrite Hkey, Hget, Hresp. simpl.
  destruct (dispatch types osc store ds) as [[out store'] ds']. reflexivity.
Qed.

Lemma writeBackStatus_same (store : ObjectStore) (ds : DataStore) :
  writeBackStatus store store ds = ds.
Proof. unfold writeBackStatus. rewrite bool_decide_eq_true_2; reflexivity. Qed.

Lemma writeBackStatus_changed (existing store : ObjectStore) (ds : DataStore) :
  Status existing <> Status store ->
  writeBackStatus existing store ds = snd (UpdateObjectStoreStatus store ds).
Proof.
  intros Hne. unfold writeBackStatus. rewrite bool_decide_eq_false_2; auto.
Qed.

Lemma UpdateObjectStoreStatus_frame (store : ObjectStore) (ds : DataStore) :
  dependents (snd (UpdateObjectStoreStatus store ds)) = dependents ds
  /\ actions (snd (UpdateObjectStoreStatus store ds)) =
       actions ds ++ [ActionUpdateObjectStoreStatus (Name store) (Status store)].
Proof.
  unfold UpdateObjectStoreStatus. simpl.
  destruct (failure ds VerbUpdateStatus KObjectStore (Name store)); simpl; [auto|].
  destruct (ObjectStores ds !! Name store); simpl; auto.
Qed.

(** ** A first observation *)

(** C7, as amended. For an ObjectStore with an uninitialized status that
    is not marked for deletion: with a target state other than Stopped,
    one pass returns nil, moves the state to Starting and writes only
    that status; every dependent resource is left as it was, so no
    storage claim is created by this pass. With target state Stopped the
    pass returns nil and changes nothing. *)
Theorem reconcile_uninitialized (types : Types) (osc : ObjectStoreController)
    (key ns name : string) (store : ObjectStore) (ds : DataStore) :
  SplitMetaNamespaceKey key = Ok (ns, name) ->
  GetObjectStore name ds = Ok store ->
  isResponsibleFor osc store ds = true ->
  IsZero (DeletionTimestamp store) = true ->
  State (Status store) = ObjectStoreStateUnset
  \/ State (Status store) = ObjectStoreStateUnknown ->
  (TargetState (Spec store) <> ObjectStoreStateStopped ->
     let ds' := snd (UpdateObjectStoreStatus
                       (setState ObjectStoreStateStarting store) ds) in
     reconcile types osc key ds = (Return None, ds')
     /\ dependents ds' = dependents ds
     /\ actions ds' =
          actions ds ++
          [ActionUpdateObjectStoreStatus (Name store)
             {| State := ObjectStoreStateStarting;
                Status_Endpoints := Status_Endpoints (Status store) |}])
  /\ (TargetState (Spec store) = ObjectStoreStateStopped ->
      reconcile types osc key ds = (Return None, ds)).
Proof.
  intros Hkey Hget Hresp Hdel Hstate.
  rewrite (reconcile_dispatch types osc key ns name store ds Hkey Hget Hresp).
  assert (Hd : dispatch types osc store ds =
               (Return (fst (initializeObjectStore store)),
                snd (initializeObjectStore store), ds)).
  { unfold dispatch. rewrite Hdel. simpl.
    destruct (initializeObjectStore store) as [err store'].
    destruct Hstate as [-> | ->]; reflexivity. }
  rewrite Hd. simpl. unfold initializeObjectStore. split.
  - intros Htarget.
    rewrite bool_decide_eq_false_2 by assumption. simpl.
    rewrite writeBackStatus_changed.
    + split; [reflexivity|].
      apply (UpdateObjectStoreStatus_frame (setState ObjectStoreStateStarting store) ds).
    + simpl. destruct (Status store) as [st eps]. simpl in *.
      destruct Hstate as [-> | ->]; discriminate.
  - intros Htarget. rewrite bool_decide_eq_true_2 by assumption. simpl.
    rewrite writeBackStatus_same. reflexivity.
Qed.

Lemma reconcile_uninitialized_witness :
  let fresh := Fixture.objectStore ObjectStoreStateRunning [] Fixture.emptyStatus in
  let parked := Fixture.objectStore ObjectStoreStateStopped [] Fixture.emptyStatus in
  let ds := Fixture.dataStore [fresh] [] [] in
  let ds' := Fixture.dataStore [parked] [] [] in
  (reconcile Fixture.types Fixture.osc Fixture.key ds =
     (Return None,
      snd (UpdateObjectStoreStatus (setState ObjectStoreStateStarting fresh) ds))
   /\ dependents (snd (UpdateObjectStoreStatus
                         (setState ObjectStoreStateStarting fresh) ds)) = dependents ds
   /\ actions (snd (UpdateObjectStoreStatus
                      (setState ObjectStoreStateStarting fresh) ds)) =
        [ActionUpdateObjectStoreStatus "test-object-store"
           {| State := ObjectStoreStateStarting; Status_Endpoints := [] |}])
  /\ reconcile Fixture.types Fixture.osc Fixture.key ds' = (Return None, ds').
Proof.
  intros fresh parked ds ds'. split.
  - apply (proj1 (reconcile_uninitialized Fixture.types Fixture.osc Fixture.key
                    "default" "test-object-store" fresh ds
                    eq_refl eq_refl eq_refl eq_refl (or_introl eq_refl))).
    discriminate.
  - apply (proj2 (reconcile_uninitialized Fixture.types Fixture.osc Fixture.key
                    "default" "test-object-store" parked ds'
                    eq_refl eq_refl eq_refl eq_refl (or_introl eq_refl))).
    reflexivity.
Defined.

(** C7 as stated fails: a fresh ObjectStore with an empty status, a
    target state other than Stopped and no dependent resource. After one
    pass the state is Starting but no storage claim exists and none was
    asked for; the claim is created by the pass after that one. *)
Lemma first_pass_creates_no_claim :
  let fresh := Fixture.objectStore ObjectStoreStateRunning [] Fixture.emptyStatus in
  let ds := Fixture.dataStore [fresh] [] [] in
  let ds1 := snd (reconcile Fixture.types Fixture.osc Fixture.key ds) in
  let ds2 := snd (reconcile Fixture.types Fixture.osc Fixture.key ds1) in
  dependents ds = (∅, ∅, ∅, ∅, ∅, ∅)
  /\ fst (reconcile Fixture.types Fixture.osc Fixture.key ds) = Return None
  /\ State <$> (Status <$> ObjectStores ds1 !! "test-object-store")
     = Some ObjectStoreStateStarting
  /\ ~ (exists pvc, PersistentVolumeClaims ds1 !! "pvc-test-object-store" = Some pvc)
  /\ actions ds1 =
       [ActionUpdateObjectStoreStatus "test-object-store"
          {| State := ObjectStoreStateStarting; Status_Endpoints := [] |}]
  /\ PersistentVolumeClaims ds2 !! "pvc-test-object-store"
     = Some (newPersistentVolumeClaim Fixture.types Fixture.osc fresh).
Proof.
  repeat split; try reflexivity.
  intros [pvc H]. vm_compute in H. discriminate.
Qed.

(** ** Stopping *)

Lemma dispatch_Stopping (types : Types) (osc : ObjectStoreController)
    (store : ObjectStore) (ds : DataStore) :
  IsZero (DeletionTimestamp store) = true ->
  State (Status store) = ObjectStoreStateStopping ->
  dispatch types osc store ds =
    (Return (fst (fst (handleStopping store ds))),
     snd (fst (handleStopping store ds)), snd (handleStopping store ds)).
Proof.
  intros Hdel Hstate. unfold dispatch. rewrite Hdel, Hstate. simpl.
  destruct (handleStopping store ds) as [[err store'] ds']. reflexivity.
Qed.

Lemma UpdateDeployment_actions (dpl : Deployment) (ds : DataStore) :
  actions (snd (UpdateDeployment dpl ds)) = actions ds ++ [ActionUpdateDeployment dpl].
Proof.
  unfold UpdateDeployment.
  destruct (DS.update _ _ _); reflexivity.
Qed.

Lemma UpdateDeployment_ObjectStores (dpl : Deployment) (ds : DataStore) :
  ObjectStores (snd (UpdateDeployment dpl ds)) = ObjectStores ds.
Proof.
  unfold UpdateDeployment.
  destruct (DS.update _ _ _); reflexivity.
Qed.

Lemma UpdateDeployment_assigned (dpl : Deployment) (ds : DataStore) :
  Deployments (snd (UpdateDeployment dpl (assignInPlace dpl ds))) !! dpl_Name dpl
  = Some dpl.
Proof.
  unfold UpdateDeployment.
  destruct (DS.update _ _ _); simpl; apply lookup_insert_eq.
Qed.

Lemma setReplicas_scaledTo (n : Z) (dpl : Deployment) :
  scaledTo n dpl (setReplicas n dpl).
Proof. unfold scaledTo. simpl. auto 12. Qed.

(** C3. A pass over an ObjectStore in state Stopping whose deployment is
    found. With a desired replica count above 0 the deployment is set to
    0 replicas and nothing else of it is changed, one update call is
    issued for it, the cached deployment asks for 0 replicas from then
    on, the pass returns what the update returned, and the ObjectStore
    is not written (its state stays Stopping). With no replica asked for and pods still available the
    pass returns nil and changes nothing. The handler moves the state to
    Stopped exactly when no replica is asked for (the pointer is nil or
    holds 0) and no pod is available; the pass then writes that status. *)
Theorem reconcile_stopping (types : Types) (osc : ObjectStoreController)
    (key ns name : string) (store : ObjectStore) (ds : DataStore) (dpl : Deployment) :
  SplitMetaNamespaceKey key = Ok (ns, name) ->
  GetObjectStore name ds = Ok store ->
  isResponsibleFor osc store ds = true ->
  IsZero (DeletionTimestamp store) = true ->
  State (Status store) = ObjectStoreStateStopping ->
  GetDeployment (Name store) ds = Ok dpl ->
  let scaled := UpdateDeployment (setReplicas 0 dpl) (assignInPlace (setReplicas 0 dpl) ds) in
  (forall n, dpl_Replicas dpl = Some n -> 0 < n ->
     reconcile types osc key ds = (Return (errorOf (fst scaled)), snd scaled)
     /\ actions (snd scaled) = actions ds ++ [ActionUpdateDeployment (setReplicas 0 dpl)]
     /\ Deployments (snd scaled) !! dpl_Name dpl = Some (setReplicas 0 dpl)
     /\ ObjectStores (snd scaled) = ObjectStores ds
     /\ scaledTo 0 dpl (setReplicas 0 dpl)
     /\ (forall held, Deployments (snd scaled) !! dpl_Name dpl = Some held ->
                      dpl_Replicas held = Some 0))
  /\ (zeroReplicas dpl -> 0 < dpl_Status_AvailableReplicas dpl ->
      reconcile types osc key ds = (Return None, ds))
  /\ (State (Status (snd (fst (handleStopping store ds)))) = ObjectStoreStateStopped
      <-> zeroReplicas dpl /\ dpl_Status_AvailableReplicas dpl <= 0)
  /\ (zeroReplicas dpl -> dpl_Status_AvailableReplicas dpl <= 0 ->
      reconcile types osc key ds =
        (Return None,
         snd (UpdateObjectStoreStatus (setState ObjectStoreStateStopped store) ds))).
Proof.
  intros Hkey Hget Hresp Hdel Hstate Hdpl scaled.
  rewrite (reconcile_dispatch types osc key ns name store ds Hkey Hget Hresp).
  rewrite (dispatch_Stopping types osc store ds Hdel Hstate). simpl.
  unfold handleStopping. rewrite Hdpl.
  assert (Hzero : zeroReplicas dpl <->
                  match dpl_Replicas dpl with
                  | Some replicas => negb (replicas =? 0)%Z
                  | None => false
                  end = false).
  { unfold zeroReplicas. destruct (dpl_Replicas dpl) as [n|].
    - destruct (Z.eqb_spec n 0) as [Heq | Hne]; simpl.
      + subst n. split; auto.
      + split; [intros [H | H]; congruence | discriminate].
    - split; auto. }
  set (scaleDown := match dpl_Replicas dpl with
                    | Some replicas => negb (replicas =? 0)%Z
                    | None => false
                    end) in *.
  split; [|split; [|split]].
  - intros n Hn Hpos.
    assert (Hs : scaleDown = true).
    { unfold scaleDown. rewrite Hn. apply negb_true_iff, Z.eqb_neq. lia. }
    rewrite Hs. fold scaled.
    split; [|split; [|split; [|split; [|split]]]].
    + destruct scaled as [updated ds']. simpl.
      rewrite writeBackStatus_same. destruct updated; reflexivity.
    + subst scaled. rewrite UpdateDeployment_actions. reflexivity.
    + apply (UpdateDeployment_assigned (setReplicas 0 dpl) ds).
    + subst scaled. rewrite UpdateDeployment_ObjectStores. reflexivity.
    + apply setReplicas_scaledTo.
    + intros held Hheld.
      pose proof (UpdateDeployment_assigned (setReplicas 0 dpl) ds) as Hassigned.
      fold scaled in Hassigned. simpl in Hassigned, Hheld.
      rewrite Hassigned in Hheld. injection Hheld as <-. reflexivity.
  - intros Hz Hav. apply Hzero in Hz. rewrite Hz.
    replace (0 <? dpl_Status_AvailableReplicas dpl)%Z with true
      by (symmetry; apply Z.ltb_lt; assumption).
    simpl. rewrite writeBackStatus_same. reflexivity.
  - rewrite Hzero. destruct scaleDown.
    + fold scaled. destruct scaled as [updated ds']. simpl. rewrite Hstate.
      split; [discriminate | intros [? _]; discriminate].
    + destruct (Z.ltb_spec 0 (dpl_Status_AvailableReplicas dpl)); simpl.
      * rewrite Hstate. split; [discriminate | intros [_ ?]; lia].
      * split; auto.
  - intros Hz Hav. apply Hzero in Hz. rewrite Hz.
    replace (0 <? dpl_Status_AvailableReplicas dpl)%Z with false
      by (symmetry; apply Z.ltb_ge; assumption).
    simpl. rewrite writeBackStatus_changed; [reflexivity|].
    simpl. destruct (Status store); simpl in *. subst. discriminate.
Qed.

Lemma reconcile_stopping_witness :
  let store := Fixture.objectStore ObjectStoreStateStopped []
                 (Fixture.statusOf ObjectStoreStateStopping) in
  let up := Fixture.deployment (Some 1) Fixture.containers 1 1 0 in
  let draining := Fixture.deployment (Some 0) Fixture.containers 1 1 0 in
  let down := Fixture.deployment (Some 0) Fixture.containers 0 0 0 in
  let ds dpl := Fixture.dataStore [store] [dpl] [Fixture.service] in
  (reconcile Fixture.types Fixture.osc Fixture.key (ds up) =
     (Return None,
      snd (UpdateDeployment (setReplicas 0 up) (assignInPlace (setReplicas 0 up) (ds up))))
   /\ Deployments
        (snd (UpdateDeployment (setReplicas 0 up) (assignInPlace (setReplicas 0 up) (ds up))))
        !! "test-object-store" = Some (setReplicas 0 up)
   /\ dpl_Replicas (setReplicas 0 up) = Some 0)
  /\ reconcile Fixture.types Fixture.osc Fixture.key (ds draining)
     = (Return None, ds draining)
  /\ reconcile Fixture.types Fixture.osc Fixture.key (ds down)
     = (Return None,
        snd (UpdateObjectStoreStatus (setState ObjectStoreStateStopped store) (ds down))).
Proof.
  intros store up draining down ds.
  pose proof (reconcile_stopping Fixture.types Fixture.osc Fixture.key
                "default" "test-object-store" store (ds up) up
                eq_refl eq_refl eq_refl eq_refl eq_refl eq_refl) as Hup.
  pose proof (reconcile_stopping Fixture.types Fixture.osc Fixture.key
                "default" "test-object-store" store (ds draining) draining
                eq_refl eq_refl eq_refl eq_refl eq_refl eq_refl) as Hdraining.
  pose proof (reconcile_stopping Fixture.types Fixture.osc Fixture.key
                "default" "test-object-store" store (ds down) down
                eq_refl eq_refl eq_refl eq_refl eq_refl eq_refl) as Hdown.
  split; [|split].
  - destruct (proj1 Hup 1 eq_refl eq_refl) as (H1 & _ & H3 & _ & H5 & _).
    split; [exact H1|]. split; [exact H3 | exact (proj1 H5)].
  - apply (proj1 (proj2 Hdraining)); [right; reflexivity | reflexivity].
  - apply (proj2 (proj2 (proj2 Hdown))); [right; reflexivity | discriminate].
Defined.

(** ** Terminating *)

Lemma gone_resolved {A : Type} (lookup : result A) (next : option error) :
  resolvesNotFound lookup -> gone lookup next = next.
Proof. intros (err & -> & Hnf). simpl. rewrite Hnf. reflexivity. Qed.

Lemma gone_Some {A : Type} (lookup : result A) (next : option error) (e : error) :
  gone lookup next = Some e ->
  (lookup = Err e /\ ErrorIsNotFound e = false) \/ next = Some e.
Proof.
  destruct lookup as [a | err]; simpl; [discriminate|].
  destruct (ErrorIsNotFound err) eqn:Hnf; simpl.
  - auto.
  - intros [= <-]. auto.
Qed.

Lemma RemoveFinalizer_actions (store : ObjectStore) (ds : DataStore) :
  actions (snd (RemoveFinalizerForObjectStore store ds)) =
    actions ds ++ [ActionRemoveFinalizerForObjectStore (Name store)].
Proof.
  unfold RemoveFinalizerForObjectStore. simpl.
  destruct (failure ds VerbRemoveFinalizer KObjectStore (Name store)); simpl; [auto|].
  destruct (ObjectStores ds !! Name store); reflexivity.
Qed.

Lemma RemoveFinalizer_cleared (store : ObjectStore) (ds : DataStore) :
  fst (RemoveFinalizerForObjectStore store ds) = None ->
  exists cur, ObjectStores (snd (RemoveFinalizerForObjectStore store ds)) !! Name store
              = Some cur
              /\ Finalizers cur = [].
Proof.
  unfold RemoveFinalizerForObjectStore. simpl.
  destruct (failure ds VerbRemoveFinalizer KObjectStore (Name store)); simpl;
    [discriminate|].
  destruct (ObjectStores ds !! Name store) as [cur|]; simpl; [|discriminate].
  intros _. eexists. split; [apply lookup_insert_eq | reflexivity].
Qed.

Lemma gone_answer {A : Type} (lookup : result A) (next : option error) :
  gone lookup next =
    match answer lookup with
    | Gone => next
    | Present => None
    | Failed e => Some e
    end.
Proof.
  destruct lookup as [a|e]; simpl; [reflexivity|].
  destruct (ErrorIsNotFound e); reflexivity.
Qed.

Lemma handleTerminating_verdict (store : ObjectStore) (ds : DataStore) :
  Finalizers store = [] ->
  handleTerminating store ds = (verdict (dependentAnswers store ds), ds).
Proof.
  intros Hfin. unfold handleTerminating, dependentAnswers. rewrite Hfin. simpl.
  rewrite !gone_answer.
  destruct (answer (GetService (Name store) ds));
    destruct (answer (GetDeployment (Name store) ds));
    destruct (answer (GetPersistentVolumeClaim (genPVCName store) ds));
    destruct (answer (GetPersistentVolume (genPVName store) ds));
    destruct (answer (GetVolume (genPVName store) ds)); reflexivity.
Qed.

Lemma verdict_first (before after : list Answer) (a : Answer) :
  Forall (eq Gone) before ->
  verdict (before ++ a :: after) = verdict (a :: after).
Proof.
  induction before as [|b before IH]; intros Hall; [reflexivity|].
  inversion Hall as [|? ? <- Hrest]; subst. simpl. apply IH. exact Hrest.
Qed.

Lemma verdict_all_gone (answers : list Answer) :
  Forall (eq Gone) answers -> verdict answers = None.
Proof.
  induction 1 as [|a rest <- _ IH]; [reflexivity | exact IH].
Qed.

(** C4, as amended. A pass over an ObjectStore whose deletion timestamp is
    set. If the state is not Terminating, the pass sets it, writes that
    status and returns nil. If the state is Terminating and the finalizer
    list is not empty, the pass issues the finalizer removal and returns
    its result; after a successful removal the stored object has no
    finalizer, so the removal is not issued again. If the list is empty,
    the pass writes nothing, and the first dependent, in the order
    service, deployment, storage claim, volume handle, volume, whose
    lookup does not answer not-found decides what it returns: nil when
    that dependent is still found (nil then means waiting), the error
    when its lookup failed with something other than not-found; and nil
    when every dependent resolves to not-found. *)
Theorem reconcile_terminating (types : Types) (osc : ObjectStoreController)
    (key ns name : string) (store : ObjectStore) (ds : DataStore) :
  SplitMetaNamespaceKey key = Ok (ns, name) ->
  GetObjectStore name ds = Ok store ->
  isResponsibleFor osc store ds = true ->
  IsZero (DeletionTimestamp store) = false ->
  (State (Status store) <> ObjectStoreStateTerminating ->
     reconcile types osc key ds =
       (Return None,
        snd (UpdateObjectStoreStatus (setState ObjectStoreStateTerminating store) ds)))
  /\ (State (Status store) = ObjectStoreStateTerminating ->
      Finalizers store <> [] ->
      let removed := RemoveFinalizerForObjectStore store ds in
      reconcile types osc key ds = (Return (fst removed), snd removed)
      /\ actions (snd removed) =
           actions ds ++ [ActionRemoveFinalizerForObjectStore (Name store)]
      /\ (fst removed = None ->
          exists cur, ObjectStores (snd removed) !! Name store = Some cur
                      /\ Finalizers cur = []))
  /\ (State (Status store) = ObjectStoreStateTerminating ->
      Finalizers store = [] ->
      exists err,
        reconcile types osc key ds = (Return err, ds)
        /\ (dependentsGone osc store ds -> err = None)
        /\ (forall svc, GetService (Name store) ds = Ok svc -> err = None)
        /\ (forall e, err = Some e -> ErrorIsNotFound e = false)
        /\ (Forall (eq Gone) (dependentAnswers store ds) -> err = None)
        /\ (forall before after,
              dependentAnswers store ds = before ++ Present :: after ->
              Forall (eq Gone) before -> err = None)
        /\ (forall before e after,
              dependentAnswers store ds = before ++ Failed e :: after ->
              Forall (eq Gone) before -> err = Some e)).
Proof.
  intros Hkey Hget Hresp Hdel.
  rewrite (reconcile_dispatch types osc key ns name store ds Hkey Hget Hresp).
  unfold dispatch. rewrite Hdel. cbn [negb].
  split; [|split].
  - intros Hstate. rewrite bool_decide_eq_false_2 by assumption. simpl.
    rewrite writeBackStatus_changed; [reflexivity|].
    simpl. destruct (Status store); simpl in *. congruence.
  - intros Hstate Hfin.
    rewrite bool_decide_eq_true_2 by assumption. cbn [negb].
    unfold handleTerminating.
    replace (length (Finalizers store) =? 0)%nat with false
      by (destruct (Finalizers store); [congruence | reflexivity]).
    cbn [negb].
    set (removed := RemoveFinalizerForObjectStore store ds).
    split; [|split].
    + destruct removed as [err ds']. simpl. rewrite writeBackStatus_same. reflexivity.
    + apply RemoveFinalizer_actions.
    + apply RemoveFinalizer_cleared.
  - intros Hstate Hfin.
    rewrite bool_decide_eq_true_2 by assumption. cbn [negb].
    pose proof (handleTerminating_verdict store ds Hfin) as Hverdict.
    assert (Hold :
      (dependentsGone osc store ds -> fst (handleTerminating store ds) = None)
      /\ (forall svc, GetService (Name store) ds = Ok svc ->
                      fst (handleTerminating store ds) = None)
      /\ (forall e, fst (handleTerminating store ds) = Some e ->
                    ErrorIsNotFound e = false)).
    { unfold handleTerminating. rewrite Hfin. simpl. split; [|split].
      - intros (Hsvc & Hdpl & Hpvc & Hpv & Hvol).
        rewrite !gone_resolved by assumption. reflexivity.
      - intros svc Hsvc. rewrite Hsvc. reflexivity.
      - intros e He.
        repeat (apply gone_Some in He; destruct He as [[_ He] | He]; [exact He|]).
        discriminate. }
    rewrite Hverdict in Hold |- *. cbn [fst snd] in Hold |- *.
    rewrite writeBackStatus_same.
    exists (verdict (dependentAnswers store ds)).
    split; [reflexivity|].
    split; [exact (proj1 Hold)|].
    split; [exact (proj1 (proj2 Hold))|].
    split; [exact (proj2 (proj2 Hold))|].
    split; [apply verdict_all_gone|]. split.
    + intros before after Heq Hall.
      rewrite Heq, (verdict_first _ after Present Hall). reflexivity.
    + intros before e after Heq Hall.
      rewrite Heq, (verdict_first _ after (Failed e) Hall). reflexivity.
Qed.

Lemma reconcile_terminating_witness :
  let live := Fixture.objectStore ObjectStoreStateRunning []
                (Fixture.statusOf ObjectStoreStateRunning) in
  let marked := Fixture.deleted ["longhorn.io"] live in
  let held := Fixture.deleted ["longhorn.io"]
                (setState ObjectStoreStateTerminating live) in
  let released := Fixture.deleted [] (setState ObjectStoreStateTerminating live) in
  let dpl := Fixture.deployment (Some 1) Fixture.containers 1 1 0 in
  let waiting := Fixture.dataStore [released] [dpl] [] in
  let failing := DS.withFailure Faulty.deploymentLookup waiting in
  reconcile Fixture.types Fixture.osc Fixture.key (Fixture.dataStore [marked] [] [])
  = (Return None,
     snd (UpdateObjectStoreStatus (setState ObjectStoreStateTerminating marked)
            (Fixture.dataStore [marked] [] [])))
  /\ reconcile Fixture.types Fixture.osc Fixture.key (Fixture.dataStore [held] [] [])
     = (Return None, snd (RemoveFinalizerForObjectStore held
                            (Fixture.dataStore [held] [] [])))
  /\ (exists err,
        reconcile Fixture.types Fixture.osc Fixture.key
          (Fixture.dataStore [released] [] [])
        = (Return err, Fixture.dataStore [released] [] []))
  /\ (exists err,
        reconcile Fixture.types Fixture.osc Fixture.key waiting = (Return err, waiting)
        /\ err = None)
  /\ (exists err,
        reconcile Fixture.types Fixture.osc Fixture.key failing = (Return err, failing)
        /\ err = Some (ErrAPI "etcdserver: request timed out")).
Proof.
  intros live marked held released dpl waiting failing.
  split; [|split; [|split; [|split]]].
  - apply (proj1 (reconcile_terminating Fixture.types Fixture.osc Fixture.key
                    "default" "test-object-store" marked
                    (Fixture.dataStore [marked] [] [])
                    eq_refl eq_refl eq_refl eq_refl)).
    discriminate.
  - apply (proj1 (proj1 (proj2 (reconcile_terminating Fixture.types Fixture.osc
                    Fixture.key "default" "test-object-store" held
                    (Fixture.dataStore [held] [] [])
                    eq_refl eq_refl eq_refl eq_refl)) eq_refl ltac:(discriminate))).
  - destruct (proj2 (proj2 (reconcile_terminating Fixture.types Fixture.osc
                    Fixture.key "default" "test-object-store" released
                    (Fixture.dataStore [released] [] [])
                    eq_refl eq_refl eq_refl eq_refl)) eq_refl eq_refl)
      as (err & Hrun & _).
    exists err. exact Hrun.
  - destruct (proj2 (proj2 (reconcile_terminating Fixture.types Fixture.osc
                    Fixture.key "default" "test-object-store" released waiting
                    eq_refl eq_refl eq_refl eq_refl)) eq_refl eq_refl)
      as (err & Hrun & _ & _ & _ & _ & Hpresent & _).
    exists err. split; [exact Hrun|].
    apply (Hpresent [Gone] [Gone; Gone; Gone]); [reflexivity|].
    apply Forall_cons_2; [reflexivity | apply Forall_nil_2].
  - destruct (proj2 (proj2 (reconcile_terminating Fixture.types Fixture.osc
                    Fixture.key "default" "test-object-store" released failing
                    eq_refl eq_refl eq_refl eq_refl)) eq_refl eq_refl)
      as (err & Hrun & _ & _ & _ & _ & _ & Hfailed).
    exists err. split; [exact Hrun|].
    apply (Hfailed [Gone] _ [Gone; Gone; Gone]); [reflexivity|].
    apply Forall_cons_2; [reflexivity | apply Forall_nil_2].
Defined.

(** C4 as stated fails: the ObjectStore is Terminating, its finalizer list
    is empty and the service is still found, so not every dependent
    resolves to not-found; the pass returns nil all the same. *)
Lemma terminating_nil_with_service_present :
  let live := Fixture.objectStore ObjectStoreStateRunning []
                (Fixture.statusOf ObjectStoreStateTerminating) in
  let released := Fixture.deleted [] live in
  let ds := Fixture.dataStore [released] [] [Fixture.service] in
  State (Status released) = ObjectStoreStateTerminating
  /\ Finalizers released = []
  /\ GetService (Name released) ds = Ok Fixture.service
  /\ ~ dependentsGone Fixture.osc released ds
  /\ reconcile Fixture.types Fixture.osc Fixture.key ds = (Return None, ds).
Proof.
  repeat split; try reflexivity.
  intros [(err & H & _) _]. vm_compute in H. discriminate.
Qed.

(** ** Running *)

Ltac break_match :=
  match goal with
  | |- context [match ?x with _ => _ end] => destruct x eqn:?
  end.


Lemma updateImage_Ok (name image : string) (dpl dpl' : Deployment)
    (store store' : ObjectStore) (ds ds' : DataStore) :
  updateImage name image dpl store ds = Ok (dpl', store', ds') ->
  (dpl' = dpl /\ store' = store /\ ds' = ds
   /\ GetImageOfDeploymentContainerWithName dpl name = image)
  \/ (GetImageOfDeploymentContainerWithName dpl name <> image
      /\ SetImageOfDeploymentContainerWithName dpl name image = Ok dpl'
      /\ store' = setState ObjectStoreStateStarting store
      /\ ds' = snd (UpdateDeployment dpl' (assignInPlace dpl' ds))).
Proof.
  unfold updateImage.
  destruct (String.eqb_spec (GetImageOfDeploymentContainerWithName dpl name) image)
    as [Heq | Hne]; simpl.
  - intros [= <- <- <-]. left. auto.
  - destruct (SetImageOfDeploymentContainerWithName dpl name image) as [d|e];
      [|discriminate].
    intros [= <- <- <-]. right. auto.
Qed.

Lemma updateImage_Err (name image : string) (dpl : Deployment)
    (store : ObjectStore) (ds : DataStore) (err : error) :
  updateImage name image dpl store ds = Err err ->
  GetImageOfDeploymentContainerWithName dpl name <> image
  /\ SetImageOfDeploymentContainerWithName dpl name image = Err err.
Proof.
  unfold updateImage.
  destruct (String.eqb_spec (GetImageOfDeploymentContainerWithName dpl name) image)
    as [Heq | Hne]; simpl; [discriminate|].
  destruct (SetImageOfDeploymentContainerWithName dpl name image) as [d|e];
    [discriminate|].
  intros [= <-]. auto.
Qed.






(** The deployment check leaves the identity and the spec of the store
    alone. *)
Lemma checkDeployment_store (types : Types) (dpl : Deployment)
    (store : ObjectStore) (ds : DataStore) :
  let store' := snd (fst (checkDeployment types dpl store ds)) in
  store' = store \/ store' = setState ObjectStoreStateStarting store.
Proof.
  unfold checkDeployment.
  destruct (dpl_Replicas dpl) as [n|]; [|left; reflexivity].
  destruct (negb (n =? 1)%Z); [left; reflexivity|].
  destruct (_ || _); [left; reflexivity|].
  destruct (updateImage _ _ dpl store ds) as [[[d1 s1] ds1]|e1] eqn:H1;
    [|left; reflexivity].
  apply updateImage_Ok in H1.
  destruct (updateImage _ _ d1 s1 ds1) as [[[d2 s2] ds2]|e2] eqn:H2; simpl.
  - apply updateImage_Ok in H2.
    destruct H1 as [(_ & -> & _) | (_ & _ & -> & _)];
      destruct H2 as [(_ & -> & _) | (_ & _ & -> & _)]; auto.
  - destruct H1 as [(_ & -> & _) | (_ & _ & -> & _)]; auto.
Qed.

Lemma checkDeployment_Panic (types : Types) (dpl : Deployment)
    (store : ObjectStore) (ds : DataStore) :
  fst (fst (checkDeployment types dpl store ds)) = Panic <-> dpl_Replicas dpl = None.
Proof.
  unfold checkDeployment.
  destruct (dpl_Replicas dpl) as [n|]; [|simpl; tauto].
  split; [|discriminate].
  destruct (negb (n =? 1)%Z); [discriminate|].
  destruct (_ || _); [discriminate|].
  destruct (updateImage _ _ dpl store ds) as [[[d1 s1] ds1]|e1]; [|discriminate].
  destruct (updateImage _ _ d1 s1 ds1) as [[[d2 s2] ds2]|e2]; discriminate.
Qed.

Lemma checkPVC_None (pvc : PersistentVolumeClaim) :
  checkPVC pvc = None <-> pvc_Status_Phase pvc = ClaimBound.
Proof.
  unfold checkPVC. destruct (decide (pvc_Status_Phase pvc = ClaimBound)) as [H | H].
  - rewrite bool_decide_eq_true_2 by assumption. simpl. tauto.
  - rewrite bool_decide_eq_false_2 by assumption. simpl. split; [discriminate | tauto].
Qed.

Lemma checkVolume_None (vol : Volume) :
  checkVolume vol = None <-> vol_Status_Robustness vol <> VolumeRobustnessFaulted.
Proof.
  unfold checkVolume.
  destruct (decide (vol_Status_Robustness vol = VolumeRobustnessFaulted)) as [H | H].
  - rewrite bool_decide_eq_true_2 by assumption. split; [discriminate | tauto].
  - rewrite bool_decide_eq_false_2 by assumption. tauto.
Qed.

Lemma checkPV_None (pv : PersistentVolume) :
  checkPV pv = None <-> pv_Status_Phase pv = VolumeBound.
Proof.
  unfold checkPV. destruct (decide (pv_Status_Phase pv = VolumeBound)) as [H | H].
  - rewrite bool_decide_eq_true_2 by assumption. simpl. tauto.
  - rewrite bool_decide_eq_false_2 by assumption. simpl. split; [discriminate | tauto].
Qed.






(** ** Get-or-create *)

Lemma setState_same (s : ObjectStoreState) (store : ObjectStore) :
  State (Status store) = s -> setState s store = store.
Proof.
  destruct store as [n d f sp [st eps]]. simpl. intros ->. reflexivity.
Qed.

Ltac contract getOrCreate lookup :=
  intros store ds; unfold getOrCreate; cbv beta;
  split; [|split];
  [ intros a Hlookup; rewrite Hlookup; reflexivity
  | intros err Hlookup Hnf; rewrite Hlookup, Hnf; split;
    [ intros a ds' Hcreate; rewrite Hcreate; split;
      [ destruct (decide (State (Status store) = ObjectStoreStateStarting)) as [Hs | Hs];
        [ rewrite bool_decide_eq_true_2 by assumption; simpl;
          rewrite (setState_same _ _ Hs); reflexivity
        | rewrite bool_decide_eq_false_2 by assumption; reflexivity ]
      | apply setState_same ]
    | intros e ds' Hcreate; rewrite Hcreate; reflexivity ]
  | intros err Hlookup Hnf; rewrite Hlookup, Hnf; reflexivity ].

Lemma getOrCreatePVC_contract (types : Types) (osc : ObjectStoreController) :
  GetOrCreateContract
    (fun store => GetPersistentVolumeClaim (genPVCName store))
    (createPVC types osc) "failed to create persistent volume claim"
    (getOrCreatePVC types osc).
Proof. contract getOrCreatePVC GetPersistentVolumeClaim. Qed.

Lemma getOrCreateVolume_contract (types : Types) (osc : ObjectStoreController)
    (pvc : PersistentVolumeClaim) :
  GetOrCreateContract
    (fun store => GetVolume (genPVName store))
    (fun store => createVolume osc store pvc) "failed to create longhorn volume"
    (fun store => getOrCreateVolume osc store pvc).
Proof. contract getOrCreateVolume GetVolume. Qed.

Lemma getOrCreatePV_contract (types : Types) (osc : ObjectStoreController)
    (vol : Volume) :
  GetOrCreateContract
    (fun store => GetPersistentVolume (genPVName store))
    (fun store => createPV types osc store vol) "failed to create persistent volume"
    (fun store => getOrCreatePV types osc store vol).
Proof. contract getOrCreatePV GetPersistentVolume. Qed.

Lemma getOrCreateDeployment_contract (types : Types) (osc : ObjectStoreController) :
  GetOrCreateContract
    (fun store => GetDeployment (Name store))
    (createDeployment types osc) "failed to create deployment"
    (getOrCreateDeployment types osc).
Proof. contract getOrCreateDeployment GetDeployment. Qed.

Lemma getOrCreateService_contract (types : Types) (osc : ObjectStoreController) :
  GetOrCreateContract
    (fun store => GetService (Name store))
    (createService types osc) "failed to create service"
    (getOrCreateService types osc).
Proof. contract getOrCreateService GetService. Qed.

Lemma create_Ok_inv {A : Type} (fail : option error) (existing : option A) (a b : A) :
  DS.create fail existing a = Ok b -> b = a.
Proof.
  unfold DS.create. destruct fail; [discriminate|].
  destruct existing; [discriminate|]. congruence.
Qed.

Lemma createPVC_synthesized (types : Types) (osc : ObjectStoreController) :
  CreatesSynthesized (createPVC types osc)
    (fun store _ => newPersistentVolumeClaim types osc store)
    PersistentVolumeClaims genPVCName ActionCreatePersistentVolumeClaim.
Proof.
  intros store ds a ds'. unfold createPVC, CreatePersistentVolumeClaim.
  destruct (DS.create _ _ _) as [b|e] eqn:Hc; [|discriminate].
  apply create_Ok_inv in Hc. subst b. intros [= <- <-]. simpl.
  split; [reflexivity|]. split; [apply lookup_insert_eq | reflexivity].
Qed.

Lemma createVolume_synthesized (osc : ObjectStoreController)
    (pvc : PersistentVolumeClaim) :
  CreatesSynthesized (fun store => createVolume osc store pvc)
    (fun store _ => newVolume osc store pvc)
    Volumes genPVName ActionCreateVolume.
Proof.
  intros store ds a ds'. unfold createVolume, CreateVolume.
  destruct (DS.create _ _ _) as [b|e] eqn:Hc; [|discriminate].
  apply create_Ok_inv in Hc. subst b. intros [= <- <-]. simpl.
  split; [reflexivity|]. split; [apply lookup_insert_eq | reflexivity].
Qed.

Lemma createPV_synthesized (types : Types) (osc : ObjectStoreController)
    (vol : Volume) :
  CreatesSynthesized (fun store => createPV types osc store vol)
    (fun store _ => newPersistentVolume types osc store vol)
    PersistentVolumes genPVName ActionCreatePersistentVolume.
Proof.
  intros store ds a ds'. unfold createPV, CreatePersistentVolume.
  destruct (DS.create _ _ _) as [b|e] eqn:Hc; [|discriminate].
  apply create_Ok_inv in Hc. subst b. intros [= <- <-]. simpl.
  split; [reflexivity|]. split; [apply lookup_insert_eq | reflexivity].
Qed.

Lemma createService_synthesized (types : Types) (osc : ObjectStoreController) :
  CreatesSynthesized (createService types osc)
    (fun store _ => newService types osc store)
    Services Name ActionCreateService.
Proof.
  intros store ds a ds'. unfold createService, CreateService.
  destruct (DS.create _ _ _) as [b|e] eqn:Hc; [|discriminate].
  apply create_Ok_inv in Hc. subst b. intros [= <- <-]. simpl.
  split; [reflexivity|]. split; [apply lookup_insert_eq | reflexivity].
Qed.

Lemma createDeployment_synthesized (types : Types) (osc : ObjectStoreController) :
  CreatesSynthesized (createDeployment types osc)
    (fun store ds =>
       newDeployment types osc store
         (match GetSecret (Credentials_Name (Spec store)) ds with
          | Ok secret => Some secret
          | Err _ => None
          end)
         (RegistrySecretSetting ds))
    Deployments Name ActionCreateDeployment.
Proof.
  intros store ds a ds'. unfold createDeployment.
  destruct (match GetSecret (Credentials_Name (Spec store)) ds with
            | Ok _ => None
            | Err err => if negb (ErrorIsNotFound err) then Some err else None
            end); [discriminate|].
  unfold GetSetting_RegistrySecret.
  destruct (failure ds VerbGet KSetting "registry-secret"); [discriminate|].
  unfold CreateDeployment.
  destruct (DS.create _ _ _) as [b|e] eqn:Hc; [|discriminate].
  apply create_Ok_inv in Hc. subst b. intros [= <- <-]. simpl.
  split; [reflexivity|]. split; [apply lookup_insert_eq | reflexivity].
Qed.

Ltac starting_after_create :=
  match goal with
  | |- context [bool_decide (State (Status ?store) = ObjectStoreStateStarting)] =>
      destruct (bool_decide (State (Status store) = ObjectStoreStateStarting)) eqn:Hb;
      [apply bool_decide_eq_true_1 in Hb; exact Hb | reflexivity]
  end.

Ltac issues_create getOrCreate create Create :=
  intros store ds err Hlookup Hnf _;
  unfold getOrCreate; rewrite Hlookup, Hnf;
  unfold create, Create, DS.create; simpl;
  match goal with
  | |- context [failure ds ?v ?k ?n] => destruct (failure ds v k n) as [e|]
  end; simpl;
  [ split; [reflexivity|]; right; eexists; split; [reflexivity|]; split; reflexivity
  | match goal with
    | |- context [match ?held !! ?n with Some _ => _ | None => _ end] =>
        destruct (held !! n) as [old|] eqn:Hold
    end; simpl;
    [ split; [reflexivity|]; right; eexists; split; [reflexivity|]; split; reflexivity
    | split; [reflexivity|]; left; split; [reflexivity|];
      split; [apply lookup_insert_eq | starting_after_create] ] ].

Lemma getOrCreatePVC_issues (types : Types) (osc : ObjectStoreController) :
  IssuesCreate
    (fun store => GetPersistentVolumeClaim (genPVCName store))
    (getOrCreatePVC types osc) (fun _ _ => True)
    (fun store _ => newPersistentVolumeClaim types osc store)
    PersistentVolumeClaims genPVCName ActionCreatePersistentVolumeClaim
    "failed to create persistent volume claim".
Proof. issues_create getOrCreatePVC createPVC CreatePersistentVolumeClaim. Qed.

Lemma getOrCreateVolume_issues (osc : ObjectStoreController)
    (pvc : PersistentVolumeClaim) :
  IssuesCreate
    (fun store => GetVolume (genPVName store))
    (fun store => getOrCreateVolume osc store pvc) (fun _ _ => True)
    (fun store _ => newVolume osc store pvc)
    Volumes genPVName ActionCreateVolume "failed to create longhorn volume".
Proof. issues_create getOrCreateVolume createVolume CreateVolume. Qed.

Lemma getOrCreatePV_issues (types : Types) (osc : ObjectStoreController)
    (vol : Volume) :
  IssuesCreate
    (fun store => GetPersistentVolume (genPVName store))
    (fun store => getOrCreatePV types osc store vol) (fun _ _ => True)
    (fun store _ => newPersistentVolume types osc store vol)
    PersistentVolumes genPVName ActionCreatePersistentVolume
    "failed to create persistent volume".
Proof. issues_create getOrCreatePV createPV CreatePersistentVolume. Qed.

Lemma getOrCreateService_issues (types : Types) (osc : ObjectStoreController) :
  IssuesCreate
    (fun store => GetService (Name store))
    (getOrCreateService types osc) (fun _ _ => True)
    (fun store _ => newService types osc store)
    Services Name ActionCreateService "failed to create service".
Proof. issues_create getOrCreateService createService CreateService. Qed.

Lemma createDeployment_inputs (types : Types) (osc : ObjectStoreController)
    (store : ObjectStore) (ds : DataStore) :
  deploymentInputsRead store ds ->
  createDeployment types osc store ds =
    CreateDeployment
      (newDeployment types osc store (secretFound store ds) (RegistrySecretSetting ds))
      ds.
Proof.
  intros [Hsecret Hsetting]. unfold createDeployment, secretFound.
  rewrite Hsetting.
  destruct (GetSecret (Credentials_Name (Spec store)) ds) as [secret|e];
    [reflexivity|].
  rewrite (Hsecret e eq_refl). reflexivity.
Qed.

Lemma getOrCreateDeployment_issues (types : Types) (osc : ObjectStoreController) :
  IssuesCreate
    (fun store => GetDeployment (Name store))
    (getOrCreateDeployment types osc) deploymentInputsRead
    (fun store ds =>
       newDeployment types osc store (secretFound store ds) (RegistrySecretSetting ds))
    Deployments Name ActionCreateDeployment "failed to create deployment".
Proof.
  intros store ds err Hlookup Hnf Hread.
  unfold getOrCreateDeployment. rewrite Hlookup, Hnf.
  rewrite (createDeployment_inputs types osc store ds Hread).
  unfold CreateDeployment, DS.create. simpl.
  destruct (failure ds VerbCreate KDeployment (Name store)) as [e|]; simpl.
  - split; [reflexivity|]. right. eexists. split; [reflexivity|]. split; reflexivity.
  - destruct (Deployments ds !! Name store) as [old|] eqn:Hold; simpl.
    + split; [reflexivity|]. right. eexists. split; [reflexivity|]. split; reflexivity.
    + split; [reflexivity|]. left. split; [reflexivity|].
      split; [apply lookup_insert_eq | starting_after_create].
Qed.

Lemma getOrCreateDeployment_inputs_failed (types : Types)
    (osc : ObjectStoreController) (store : ObjectStore) (ds : DataStore)
    (err : error) :
  GetDeployment (Name store) ds = Err err -> ErrorIsNotFound err = true ->
  (forall e, GetSecret (Credentials_Name (Spec store)) ds = Err e ->
             ErrorIsNotFound e = false ->
             getOrCreateDeployment types osc store ds =
               (Err (ErrWrap
                       (ErrWrap e ("failed to find secret " +:+ Credentials_Name (Spec store)))
                       "failed to create deployment"),
                store, ds))
  /\ (forall e,
        (forall e', GetSecret (Credentials_Name (Spec store)) ds = Err e' ->
                    ErrorIsNotFound e' = true) ->
        GetSetting_RegistrySecret ds = Err e ->
        getOrCreateDeployment types osc store ds =
          (Err (ErrWrap
                  (ErrWrap e
                     "failed to get registry secret setting for object store deployment")
                  "failed to create deployment"),
           store, ds)).
Proof.
  intros Hlookup Hnf.
  unfold getOrCreateDeployment, createDeployment. rewrite Hlookup, Hnf.
  split.
  - intros e Hsecret Hother. rewrite Hsecret, Hother. reflexivity.
  - intros e Hsecret Hsetting. rewrite Hsetting.
    destruct (GetSecret (Credentials_Name (Spec store)) ds) as [secret|e'];
      [reflexivity|].
    rewrite (Hsecret e' eq_refl). reflexivity.
Qed.

(** C2. Each of the five get-or-create operations (storage claim,
    volume, bound-volume handle, deployment, service) meets the
    get-or-create contract. A resource that is found is returned with
    nothing changed. On not-found the create call for the resource
    synthesized from the ObjectStore spec is issued, that call and no
    other: when it succeeds the resource is returned and held under its
    name and the state is Starting (set unless it was Starting already);
    when it fails the error is returned wrapped and the state is left.
    The deployment is synthesized after two lookups of its own, the
    credential secret and the registry-secret setting: an error of
    either, a secret not found apart, is returned wrapped and no create
    call is issued. Any lookup error other than not-found is returned as
    it is, with nothing created and the state unchanged. *)
Theorem getOrCreate_contract (types : Types) (osc : ObjectStoreController) :
  (GetOrCreateContract
     (fun store => GetPersistentVolumeClaim (genPVCName store))
     (createPVC types osc) "failed to create persistent volume claim"
     (getOrCreatePVC types osc)
   /\ CreatesSynthesized (createPVC types osc)
        (fun store _ => newPersistentVolumeClaim types osc store)
        PersistentVolumeClaims genPVCName ActionCreatePersistentVolumeClaim
   /\ IssuesCreate
        (fun store => GetPersistentVolumeClaim (genPVCName store))
        (getOrCreatePVC types osc) (fun _ _ => True)
        (fun store _ => newPersistentVolumeClaim types osc store)
        PersistentVolumeClaims genPVCName ActionCreatePersistentVolumeClaim
        "failed to create persistent volume claim")
  /\ (forall pvc,
        GetOrCreateContract
          (fun store => GetVolume (genPVName store))
          (fun store => createVolume osc store pvc) "failed to create longhorn volume"
          (fun store => getOrCreateVolume osc store pvc)
        /\ CreatesSynthesized (fun store => createVolume osc store pvc)
             (fun store _ => newVolume osc store pvc)
             Volumes genPVName ActionCreateVolume
        /\ IssuesCreate
             (fun store => GetVolume (genPVName store))
             (fun store => getOrCreateVolume osc store pvc) (fun _ _ => True)
             (fun store _ => newVolume osc store pvc)
             Volumes genPVName ActionCreateVolume "failed to create longhorn volume")
  /\ (forall vol,
        GetOrCreateContract
          (fun store => GetPersistentVolume (genPVName store))
          (fun store => createPV types osc store vol)
          "failed to create persistent volume"
          (fun store => getOrCreatePV types osc store vol)
        /\ CreatesSynthesized (fun store => createPV types osc store vol)
             (fun store _ => newPersistentVolume types osc store vol)
             PersistentVolumes genPVName ActionCreatePersistentVolume
        /\ IssuesCreate
             (fun store => GetPersistentVolume (genPVName store))
             (fun store => getOrCreatePV types osc store vol) (fun _ _ => True)
             (fun store _ => newPersistentVolume types osc store vol)
             PersistentVolumes genPVName ActionCreatePersistentVolume
             "failed to create persistent volume")
  /\ (GetOrCreateContract
        (fun store => GetDeployment (Name store))
        (createDeployment types osc) "failed to create deployment"
        (getOrCreateDeployment types osc)
      /\ CreatesSynthesized (createDeployment types osc)
           (fun store ds =>
              newDeployment types osc store
                (match GetSecret (Credentials_Name (Spec store)) ds with
                 | Ok secret => Some secret
                 | Err _ => None
                 end)
                (RegistrySecretSetting ds))
           Deployments Name ActionCreateDeployment
      /\ IssuesCreate
           (fun store => GetDeployment (Name store))
           (getOrCreateDeployment types osc) deploymentInputsRead
           (fun store ds =>
              newDeployment types osc store (secretFound store ds)
                (RegistrySecretSetting ds))
           Deployments Name ActionCreateDeployment "failed to create deployment"
      /\ (forall store ds err,
            GetDeployment (Name store) ds = Err err -> ErrorIsNotFound err = true ->
            (forall e, GetSecret (Credentials_Name (Spec store)) ds = Err e ->
                       ErrorIsNotFound e = false ->
                       getOrCreateDeployment types osc store ds =
                         (Err (ErrWrap
                                 (ErrWrap e ("failed to find secret "
                                             +:+ Credentials_Name (Spec store)))
                                 "failed to create deployment"),
                          store, ds))
            /\ (forall e,
                  (forall e', GetSecret (Credentials_Name (Spec store)) ds = Err e' ->
                              ErrorIsNotFound e' = true) ->
                  GetSetting_RegistrySecret ds = Err e ->
                  getOrCreateDeployment types osc store ds =
                    (Err (ErrWrap
                            (ErrWrap e
                               "failed to get registry secret setting for object store deployment")
                            "failed to create deployment"),
                     store, ds))))
  /\ (GetOrCreateContract
        (fun store => GetService (Name store))
        (createService types osc) "failed to create service"
        (getOrCreateService types osc)
      /\ CreatesSynthesized (createService types osc)
           (fun store _ => newService types osc store)
           Services Name ActionCreateService
      /\ IssuesCreate
           (fun store => GetService (Name store))
           (getOrCreateService types osc) (fun _ _ => True)
           (fun store _ => newService types osc store)
           Services Name ActionCreateService "failed to create service").
Proof.
  split; [|split; [|split; [|split]]].
  - split; [apply getOrCreatePVC_contract|].
    split; [apply createPVC_synthesized | apply getOrCreatePVC_issues].
  - intros pvc. split; [apply (getOrCreateVolume_contract types)|].
    split; [apply createVolume_synthesized | apply getOrCreateVolume_issues].
  - intros vol. split; [apply getOrCreatePV_contract|].
    split; [apply createPV_synthesized | apply getOrCreatePV_issues].
  - split; [apply getOrCreateDeployment_contract|].
    split; [apply createDeployment_synthesized|].
    split; [apply getOrCreateDeployment_issues|].
    intros store ds err. apply getOrCreateDeployment_inputs_failed.
  - split; [apply getOrCreateService_contract|].
    split; [apply createService_synthesized | apply getOrCreateService_issues].
Qed.

Lemma getOrCreate_contract_witness :
  let store := Fixture.objectStore ObjectStoreStateRunning []
                 (Fixture.statusOf ObjectStoreStateError) in
  let ds := Fixture.dataStore [store] [] [Fixture.service] in
  let pvc := newPersistentVolumeClaim Fixture.types Fixture.osc store in
  let refused := DS.withFailure Faulty.claimCreate ds in
  getOrCreateService Fixture.types Fixture.osc store ds = (Ok Fixture.service, store, ds)
  /\ getOrCreatePVC Fixture.types Fixture.osc store ds
     = (Ok pvc, setState ObjectStoreStateStarting store,
        snd (createPVC Fixture.types Fixture.osc store ds))
  /\ PersistentVolumeClaims (snd (createPVC Fixture.types Fixture.osc store ds))
     !! "pvc-test-object-store" = Some pvc
  /\ actions (snd (getOrCreatePVC Fixture.types Fixture.osc store ds))
     = [ActionCreatePersistentVolumeClaim pvc]
  /\ actions (snd (getOrCreatePVC Fixture.types Fixture.osc store refused))
     = [ActionCreatePersistentVolumeClaim pvc].
Proof.
  intros store ds pvc refused.
  destruct (getOrCreate_contract Fixture.types Fixture.osc)
    as ((Hpvc & Hnew & Hissue) & _ & _ & _ & (Hsvc & _)).
  split; [|split; [|split; [|split]]].
  - apply (proj1 (Hsvc store ds) Fixture.service). reflexivity.
  - apply (proj1 (proj1 (proj2 (Hpvc store ds)) ErrNotFound eq_refl eq_refl)
             pvc (snd (createPVC Fixture.types Fixture.osc store ds)) eq_refl).
  - apply (Hnew store ds pvc (snd (createPVC Fixture.types Fixture.osc store ds))
             eq_refl).
  - apply (proj1 (Hissue store ds ErrNotFound eq_refl eq_refl I)).
  - apply (proj1 (Hissue store refused ErrNotFound eq_refl eq_refl I)).
Defined.

(** ** Ingresses of the public endpoints *)

Lemma CreateIngress_facts (ingress : Ingress) (ds : DataStore) :
  let created := CreateIngress ingress ds in
  failure (snd created) = failure ds
  /\ (forall k v, Ingresses ds !! k = Some v -> Ingresses (snd created) !! k = Some v)
  /\ (forall a, fst created = Ok a ->
                Ingresses (snd created) !! ing_Name ingress = Some ingress)
  /\ (forall e, fst created = Err e ->
                failure ds VerbCreate KIngress (ing_Name ingress) = Some e
                \/ is_Some (Ingresses ds !! ing_Name ingress)).
Proof.
  unfold CreateIngress, DS.create. simpl.
  destruct (failure ds VerbCreate KIngress (ing_Name ingress)) as [e|] eqn:Hf; simpl.
  - split; [reflexivity|]. split; [auto|]. split; [discriminate|].
    intros e' [= <-]. auto.
  - destruct (Ingresses ds !! ing_Name ingress) as [old|] eqn:Hold; simpl.
    + split; [reflexivity|]. split; [auto|]. split; [discriminate|].
      intros e' _. right. eauto.
    + split; [reflexivity|]. split; [|split].
      * intros k v Hk. rewrite lookup_insert_ne; [exact Hk | congruence].
      * intros a _. apply lookup_insert_eq.
      * discriminate.
Qed.

Lemma s3EndpointsFrom_ensures (osc : ObjectStoreController)
    (endpoints : list ObjectStoreEndpointSpec) :
  forall ingresses store ds result store' ds',
    s3EndpointsFrom osc endpoints ingresses store ds = (Ok result, store', ds') ->
    length result = (length ingresses + length endpoints)%nat
    /\ Name store' = Name store
    /\ failure ds' = failure ds
    /\ (forall k v, Ingresses ds !! k = Some v -> Ingresses ds' !! k = Some v)
    /\ (forall endpoint, In endpoint endpoints -> ingressEnsured store ds' endpoint).
Proof.
  induction endpoints as [|endpoint rest IH]; intros ingresses store ds result store' ds'.
  - simpl. intros [= <- <- <-].
    repeat split; auto. intros endpoint [].
  - cbn [s3EndpointsFrom].
    destruct (GetIngress (ingressName store endpoint) ds) as [found|err] eqn:Hget.
    + intros Hrun. apply IH in Hrun.
      destruct Hrun as (Hlen & Hname & Hfail & Hkeep & Hens).
      rewrite length_app in Hlen. simpl in *.
      split; [lia|]. split; [exact Hname|]. split; [exact Hfail|].
      split; [exact Hkeep|].
      intros ep [<- | Hin]; [|apply Hens, Hin].
      left. apply get_Ok_inv in Hget. destruct Hget as [_ Hfound].
      rewrite (Hkeep _ _ Hfound). eauto.
    + destruct (ErrorIsNotFound err); [|discriminate].
      pose proof (CreateIngress_facts (newIngress osc store endpoint) ds) as Hc.
      destruct (CreateIngress (newIngress osc store endpoint) ds) as [created ds1].
      simpl in Hc. destruct Hc as (Hf1 & Hkeep1 & Hok & Herr).
      destruct (match created with
                | Ok _ => None
                | Err err0 => if negb (ErrorIsAlreadyExists err0) then Some err0 else None
                end) eqn:Hfailed; [discriminate|].
      intros Hrun. apply IH in Hrun.
      destruct Hrun as (Hlen & Hname & Hfail & Hkeep & Hens).
      rewrite length_app in Hlen. simpl in *.
      split; [lia|]. split; [exact Hname|]. split; [congruence|].
      split; [intros k v Hk; apply Hkeep, Hkeep1, Hk|].
      intros ep [<- | Hin];
        [|destruct (Hens ep Hin) as [H | H]; [left | right]; exact H].
      destruct created as [a|e].
      * left. rewrite (Hkeep _ _ (Hok a eq_refl)). eauto.
      * destruct (ErrorIsAlreadyExists e) eqn:Hae; [|discriminate].
        destruct (Herr e eq_refl) as [Hinj | [old Hold]].
        -- right. exists e. split; [congruence | exact Hae].
        -- left. rewrite (Hkeep _ _ (Hkeep1 _ _ Hold)). eauto.
Qed.

(** C9. The ingress built for a public endpoint has exactly two rules,
    one for the domain name and one for its wildcard, each routing the
    prefix "/" to the port named s3 of the ObjectStore's service, which
    createService declares; it carries a TLS block if and only if the
    endpoint names a TLS secret. In the loop over the endpoints, when
    the ingress is not found and the create call answers already-exists,
    the loop goes on as after a successful create. When the operation
    returns without error it returns one ingress per endpoint, and for
    every endpoint an ingress is held under its name or its create call
    was answered already-exists. *)
Theorem s3_ingress_per_endpoint (types : Types) (osc : ObjectStoreController)
    (store : ObjectStore) :
  (forall endpoint,
     let ingress := newIngress osc store endpoint in
     (exists exact wildcard,
        ing_Rules ingress = [exact; wildcard]
        /\ rule_Host exact = endpoint_DomainName endpoint
        /\ rule_Host wildcard = "*." +:+ endpoint_DomainName endpoint
        /\ routesToS3 store exact /\ routesToS3 store wildcard)
     /\ (ing_TLS ingress <> [] <-> endpoint_TLS_Name endpoint <> EmptyString)
     /\ (endpoint_TLS_Name endpoint <> EmptyString ->
         ing_TLS ingress =
           [ {| tls_SecretName := endpoint_TLS_Name endpoint;
                tls_Hosts := [ endpoint_DomainName endpoint;
                               "*." +:+ endpoint_DomainName endpoint ] |} ]))
  /\ (svc_Name (newService types osc store) = Name store
      /\ exists port, In port (svc_Ports (newService types osc store))
                      /\ port_Name port = "s3"
                      /\ port_TargetPort port = ObjectStoreContainerPort types)
  /\ (forall endpoint rest ingresses ds err,
        GetIngress (ingressName store endpoint) ds = Err err ->
        ErrorIsNotFound err = true ->
        let created := CreateIngress (newIngress osc store endpoint) ds in
        (forall e, fst created = Err e -> ErrorIsAlreadyExists e = true) ->
        s3EndpointsFrom osc (endpoint :: rest) ingresses store ds =
          s3EndpointsFrom osc rest (ingresses ++ [newIngress osc store endpoint])
            (appendEndpoint (endpoint_DomainName endpoint) store) (snd created))
  /\ (forall ds ingresses store' ds',
        getOrCreateS3Endpoints osc store ds = (Ok ingresses, store', ds') ->
        length ingresses = length (Endpoints (Spec store))
        /\ forall endpoint, In endpoint (Endpoints (Spec store)) ->
                            ingressEnsured store ds' endpoint).
Proof.
  split; [|split; [|split]].
  - intros endpoint ingress. subst ingress. unfold newIngress. cbn [ing_Rules ing_TLS].
    split; [|split].
    + eexists _, _. split; [reflexivity|]. repeat split.
    + destruct (String.eqb_spec (endpoint_TLS_Name endpoint) EmptyString) as [-> | Hne];
        simpl; split; congruence.
    + intros Hne. apply String.eqb_neq in Hne. rewrite Hne. reflexivity.
  - split; [reflexivity|].
    eexists. split; [left; reflexivity|]. split; reflexivity.
  - intros endpoint rest ingresses ds err Hget Hnf created Hexists.
    cbn [s3EndpointsFrom]. rewrite Hget, Hnf. fold created.
    destruct created as [[a|e] ds1]; simpl; [reflexivity|].
    rewrite (Hexists e eq_refl). reflexivity.
  - intros ds ingresses store' ds' Hrun. unfold getOrCreateS3Endpoints in Hrun.
    apply s3EndpointsFrom_ensures in Hrun.
    destruct Hrun as (Hlen & _ & _ & _ & Hens). simpl in Hlen. auto.
Qed.

Lemma s3_ingress_per_endpoint_witness :
  let store := Fixture.objectStore ObjectStoreStateRunning
                 [Fixture.publicEndpoint; Fixture.plainEndpoint]
                 (Fixture.statusOf ObjectStoreStateStarting) in
  let ds := DS.withFailure Fixture.racing (Fixture.dataStore [store] [] []) in
  let first := newIngress Fixture.osc store Fixture.publicEndpoint in
  fst (CreateIngress first ds) = Err ErrAlreadyExists
  /\ s3EndpointsFrom Fixture.osc [Fixture.publicEndpoint; Fixture.plainEndpoint] [] store ds
     = s3EndpointsFrom Fixture.osc [Fixture.plainEndpoint] [first]
         (appendEndpoint "s3.example.com" store) (snd (CreateIngress first ds))
  /\ length (Endpoints (Spec store)) = 2%nat
  /\ ingressEnsured store (snd (getOrCreateS3Endpoints Fixture.osc store ds))
       Fixture.publicEndpoint
  /\ ingressEnsured store (snd (getOrCreateS3Endpoints Fixture.osc store ds))
       Fixture.plainEndpoint.
Proof.
  intros store ds first.
  destruct (s3_ingress_per_endpoint Fixture.types Fixture.osc store)
    as (_ & _ & Hstep & Hall).
  assert (Hexists : forall e, fst (CreateIngress first ds) = Err e ->
                              ErrorIsAlreadyExists e = true).
  { intros e He. vm_compute in He. injection He as <-. reflexivity. }
  split; [reflexivity|]. split; [|split; [reflexivity|]].
  - apply (Hstep Fixture.publicEndpoint [Fixture.plainEndpoint] [] ds ErrNotFound
             eq_refl eq_refl Hexists).
  - destruct (getOrCreateS3Endpoints Fixture.osc store ds) as [[r store'] ds'] eqn:Hrun.
    assert (Hr : exists ingresses, r = Ok ingresses).
    { vm_compute in Hrun. injection Hrun as <- _ _. eexists. reflexivity. }
    destruct Hr as [ingresses ->].
    destruct (Hall ds ingresses store' ds' Hrun) as [_ Hens].
    split; apply Hens; simpl; auto.
Defined.

(** ** The deployment check *)


Lemma updateImage_current (name image : string) (dpl : Deployment)
    (store : ObjectStore) (ds : DataStore) :
  GetImageOfDeploymentContainerWithName dpl name = image ->
  updateImage name image dpl store ds = Ok (dpl, store, ds).
Proof.
  intros Heq. unfold updateImage.
  apply String.eqb_eq in Heq. rewrite Heq. reflexivity.
Qed.


Lemma deploymentReady_test (dpl : Deployment) :
  deploymentReady dpl <->
  (dpl_Status_Replicas dpl =? 0)%Z || (0 <? dpl_Status_UnavailableReplicas dpl)%Z = false.
Proof.
  unfold deploymentReady. rewrite orb_false_iff, Z.eqb_neq, Z.ltb_ge. tauto.
Qed.









(** ** The status is written by the deferred function alone *)

Lemma advances_refl (ds : DataStore) : advances ds ds.
Proof. exists []. rewrite app_nil_r. auto. Qed.

Lemma advances_trans (ds1 ds2 ds3 : DataStore) :
  advances ds1 ds2 -> advances ds2 ds3 -> advances ds1 ds3.
Proof.
  intros (l1 & H1 & F1 & Q1) (l2 & H2 & F2 & Q2).
  exists (l1 ++ l2). split; [|split].
  - rewrite H2, H1, app_assoc. reflexivity.
  - apply Forall_app. auto.
  - intros Hnil. apply app_eq_nil in Hnil. destruct Hnil as [-> ->].
    rewrite Q2, Q1; auto.
Qed.

Lemma advances_call (a : Action) (ds ds' : DataStore) :
  ~ isStatusWrite a -> actions ds' = actions ds ++ [a] -> advances ds ds'.
Proof.
  intros Ha Hact. exists [a]. split; [exact Hact|].
  split; [constructor; [exact Ha | constructor] | discriminate].
Qed.

Lemma advances_update (dpl : Deployment) (ds : DataStore) :
  advances ds (snd (UpdateDeployment dpl (assignInPlace dpl ds))).
Proof.
  apply (advances_call (ActionUpdateDeployment dpl)); [simpl; tauto|].
  rewrite UpdateDeployment_actions. reflexivity.
Qed.

Lemma advances_createPVC (types : Types) (osc : ObjectStoreController)
    (store : ObjectStore) (ds : DataStore) :
  advances ds (snd (createPVC types osc store ds)).
Proof.
  apply (advances_call (ActionCreatePersistentVolumeClaim
                          (newPersistentVolumeClaim types osc store))); [simpl; tauto|].
  unfold createPVC, CreatePersistentVolumeClaim.
  destruct (DS.create _ _ _); reflexivity.
Qed.

Lemma advances_createVolume (osc : ObjectStoreController) (store : ObjectStore)
    (pvc : PersistentVolumeClaim) (ds : DataStore) :
  advances ds (snd (createVolume osc store pvc ds)).
Proof.
  apply (advances_call (ActionCreateVolume (newVolume osc store pvc))); [simpl; tauto|].
  unfold createVolume, CreateVolume.
  destruct (DS.create _ _ _); reflexivity.
Qed.

Lemma advances_createPV (types : Types) (osc : ObjectStoreController)
    (store : ObjectStore) (vol : Volume) (ds : DataStore) :
  advances ds (snd (createPV types osc store vol ds)).
Proof.
  apply (advances_call (ActionCreatePersistentVolume
                          (newPersistentVolume types osc store vol))); [simpl; tauto|].
  unfold createPV, CreatePersistentVolume.
  destruct (DS.create _ _ _); reflexivity.
Qed.

Lemma advances_createService (types : Types) (osc : ObjectStoreController)
    (store : ObjectStore) (ds : DataStore) :
  advances ds (snd (createService types osc store ds)).
Proof.
  apply (advances_call (ActionCreateService (newService types osc store)));
    [simpl; tauto|].
  unfold createService, CreateService.
  destruct (DS.create _ _ _); reflexivity.
Qed.

Lemma advances_createDeployment (types : Types) (osc : ObjectStoreController)
    (store : ObjectStore) (ds : DataStore) :
  advances ds (snd (createDeployment types osc store ds)).
Proof.
  unfold createDeployment.
  destruct (match GetSecret (Credentials_Name (Spec store)) ds with
            | Ok _ => None
            | Err err => if negb (ErrorIsNotFound err) then Some err else None
            end); [apply advances_refl|].
  destruct (GetSetting_RegistrySecret ds) as [registry|e]; [|apply advances_refl].
  eapply advances_call with (a := ActionCreateDeployment _); [simpl; tauto|].
  unfold CreateDeployment. destruct (DS.create _ _ _); reflexivity.
Qed.

Lemma advances_CreateIngress (ingress : Ingress) (ds : DataStore) :
  advances ds (snd (CreateIngress ingress ds)).
Proof.
  apply (advances_call (ActionCreateIngress ingress)); [simpl; tauto|].
  unfold CreateIngress. destruct (DS.create _ _ _); reflexivity.
Qed.

Lemma advances_RemoveFinalizer (store : ObjectStore) (ds : DataStore) :
  advances ds (snd (RemoveFinalizerForObjectStore store ds)).
Proof.
  apply (advances_call (ActionRemoveFinalizerForObjectStore (Name store)));
    [simpl; tauto|].
  apply RemoveFinalizer_actions.
Qed.

Ltac get_or_create getOrCreate advances_create :=
  unfold getOrCreate;
  match goal with
  | |- context [match ?lookup with Ok _ => _ | Err _ => _ end] =>
      destruct lookup; [apply advances_refl|]
  end;
  match goal with
  | |- context [ErrorIsNotFound ?err] =>
      destruct (ErrorIsNotFound err); [|apply advances_refl]
  end;
  match goal with
  | |- context [match ?create with (_, _) => _ end] =>
      let H := fresh "H" in
      pose proof advances_create as H;
      destruct create as [[?|?] ?]; exact H
  end.

Lemma advances_getOrCreatePVC (types : Types) (osc : ObjectStoreController)
    (store : ObjectStore) (ds : DataStore) :
  advances ds (snd (getOrCreatePVC types osc store ds)).
Proof. get_or_create getOrCreatePVC (advances_createPVC types osc store ds). Qed.

Lemma advances_getOrCreateVolume (osc : ObjectStoreController) (store : ObjectStore)
    (pvc : PersistentVolumeClaim) (ds : DataStore) :
  advances ds (snd (getOrCreateVolume osc store pvc ds)).
Proof. get_or_create getOrCreateVolume (advances_createVolume osc store pvc ds). Qed.

Lemma advances_getOrCreatePV (types : Types) (osc : ObjectStoreController)
    (store : ObjectStore) (vol : Volume) (ds : DataStore) :
  advances ds (snd (getOrCreatePV types osc store vol ds)).
Proof. get_or_create getOrCreatePV (advances_createPV types osc store vol ds). Qed.

Lemma advances_getOrCreateDeployment (types : Types) (osc : ObjectStoreController)
    (store : ObjectStore) (ds : DataStore) :
  advances ds (snd (getOrCreateDeployment types osc store ds)).
Proof.
  get_or_create getOrCreateDeployment (advances_createDeployment types osc store ds).
Qed.

Lemma advances_getOrCreateService (types : Types) (osc : ObjectStoreController)
    (store : ObjectStore) (ds : DataStore) :
  advances ds (snd (getOrCreateService types osc store ds)).
Proof.
  get_or_create getOrCreateService (advances_createService types osc store ds).
Qed.

Lemma advances_s3EndpointsFrom (osc : ObjectStoreController)
    (endpoints : list ObjectStoreEndpointSpec) :
  forall ingresses store ds,
    advances ds (snd (s3EndpointsFrom osc endpoints ingresses store ds)).
Proof.
  induction endpoints as [|endpoint rest IH]; intros ingresses store ds.
  - apply advances_refl.
  - cbn [s3EndpointsFrom].
    destruct (GetIngress (ingressName store endpoint) ds) as [found|err]; [apply IH|].
    destruct (ErrorIsNotFound err); [|apply advances_refl].
    pose proof (advances_CreateIngress (newIngress osc store endpoint) ds) as Hc.
    destruct (CreateIngress (newIngress osc store endpoint) ds) as [created ds1].
    simpl in Hc.
    destruct (match created with
              | Ok _ => None
              | Err err0 => if negb (ErrorIsAlreadyExists err0) then Some err0 else None
              end); [exact Hc|].
    eapply advances_trans; [exact Hc | apply IH].
Qed.

Lemma advances_checkDeployment (types : Types) (dpl : Deployment)
    (store : ObjectStore) (ds : DataStore) :
  advances ds (snd (checkDeployment types dpl store ds)).
Proof.
  unfold checkDeployment.
  destruct (dpl_Replicas dpl) as [n|]; [|apply advances_refl].
  destruct (negb (n =? 1)%Z); [apply advances_update|].
  destruct (_ || _); [apply advances_refl|].
  destruct (updateImage _ _ dpl store ds) as [[[d1 s1] ds1]|e1] eqn:H1;
    [|apply advances_refl].
  assert (E1 : advances ds ds1).
  { apply updateImage_Ok in H1.
    destruct H1 as [(_ & _ & -> & _) | (_ & _ & _ & ->)];
      [apply advances_refl | apply advances_update]. }
  destruct (updateImage _ _ d1 s1 ds1) as [[[d2 s2] ds2]|e2] eqn:H2; [|exact E1].
  apply updateImage_Ok in H2.
  destruct H2 as [(_ & _ & -> & _) | (_ & _ & _ & ->)]; [exact E1|].
  eapply advances_trans; [exact E1 | apply advances_update].
Qed.

Lemma advances_handleStarting (types : Types) (osc : ObjectStoreController)
    (store : ObjectStore) (ds : DataStore) :
  advances ds (snd (handleStarting types osc store ds)).
Proof.
  unfold handleStarting.
  pose proof (advances_getOrCreatePVC types osc store ds) as A1.
  destruct (getOrCreatePVC types osc store ds) as [[[pvc|e] s1] d1];
    simpl in A1; [|exact A1].
  pose proof (advances_getOrCreateVolume osc s1 pvc d1) as A2.
  destruct (getOrCreateVolume osc s1 pvc d1) as [[[vol|e] s2] d2]; simpl in A2;
    pose proof (advances_trans _ _ _ A1 A2) as B2; [|exact B2].
  pose proof (advances_getOrCreatePV types osc s2 vol d2) as A3.
  destruct (getOrCreatePV types osc s2 vol d2) as [[[pv|e] s3] d3]; simpl in A3;
    pose proof (advances_trans _ _ _ B2 A3) as B3; [|exact B3].
  pose proof (advances_getOrCreateDeployment types osc s3 d3) as A4.
  destruct (getOrCreateDeployment types osc s3 d3) as [[[dpl|e] s4] d4]; simpl in A4;
    pose proof (advances_trans _ _ _ B3 A4) as B4; [|exact B4].
  pose proof (advances_getOrCreateService types osc s4 d4) as A5.
  destruct (getOrCreateService types osc s4 d4) as [[[svc|e] s5] d5]; simpl in A5;
    pose proof (advances_trans _ _ _ B4 A5) as B5; [|exact B5].
  pose proof (advances_s3EndpointsFrom osc (Endpoints (Spec s5)) [] s5 d5) as A6.
  unfold getOrCreateS3Endpoints.
  destruct (s3EndpointsFrom osc (Endpoints (Spec s5)) [] s5 d5)
    as [[[endpoints|e] s6] d6]; simpl in A6;
    pose proof (advances_trans _ _ _ B5 A6) as B6; [|exact B6].
  destruct (checkPVC pvc); [exact B6|].
  destruct (checkVolume vol); [exact B6|].
  destruct (checkPV pv); [exact B6|].
  match goal with
  | |- context [checkDeployment types dpl ?s d6] =>
      pose proof (advances_checkDeployment types dpl s d6) as A7;
      destruct (checkDeployment types dpl s d6) as [[[[e|]|] s7] d7]
  end;
    simpl in A7; exact (advances_trans _ _ _ B6 A7).
Qed.

Lemma advances_handleRunning (types : Types) (store : ObjectStore) (ds : DataStore) :
  advances ds (snd (handleRunning types store ds)).
Proof.
  unfold handleRunning.
  destruct (bool_decide _); [apply advances_refl|].
  destruct (GetDeployment (Name store) ds) as [dpl|e]; [|apply advances_refl].
  pose proof (advances_checkDeployment types dpl store ds) as A.
  destruct (checkDeployment types dpl store ds) as [[[[e|]|] s1] d1];
    simpl in A; try exact A.
  repeat (break_match; try exact A).
Qed.

Lemma advances_handleStopping (store : ObjectStore) (ds : DataStore) :
  advances ds (snd (handleStopping store ds)).
Proof.
  unfold handleStopping.
  destruct (GetDeployment (Name store) ds) as [dpl|e]; [|apply advances_refl].
  destruct (match dpl_Replicas dpl with
            | Some replicas => negb (replicas =? 0)%Z
            | None => false
            end).
  - pose proof (advances_update (setReplicas 0 dpl) ds) as A.
    destruct (UpdateDeployment _ _) as [updated ds']. exact A.
  - destruct (_ <? _)%Z; apply advances_refl.
Qed.

Lemma advances_handleTerminating (store : ObjectStore) (ds : DataStore) :
  advances ds (snd (handleTerminating store ds)).
Proof.
  unfold handleTerminating.
  destruct (negb _); [apply advances_RemoveFinalizer | apply advances_refl].
Qed.

(** Whatever the state, the handlers issue no status write, and when they
    issue no write call at all they leave the datastore as it was. *)
Lemma advances_dispatch (types : Types) (osc : ObjectStoreController)
    (store : ObjectStore) (ds : DataStore) :
  advances ds (snd (dispatch types osc store ds)).
Proof.
  unfold dispatch.
  destruct (negb (IsZero (DeletionTimestamp store))).
  - destruct (negb (bool_decide _)); [apply advances_refl|].
    pose proof (advances_handleTerminating store ds) as A.
    destruct (handleTerminating store ds) as [err ds']. exact A.
  - destruct (State (Status store));
      try (destruct (initializeObjectStore store) as [err store']; apply advances_refl).
    + apply advances_handleStarting.
    + apply advances_handleRunning.
    + pose proof (advances_handleStopping store ds) as A.
      destruct (handleStopping store ds) as [[err store'] ds']. exact A.
    + destruct (handleStopped store) as [err store']. apply advances_refl.
    + apply advances_handleStarting.
Qed.

Lemma app_same_nil {A : Type} (l calls : list A) : l ++ calls = l -> calls = [].
Proof.
  intros H. apply (app_inv_head l). rewrite app_nil_r. exact H.
Qed.

(** C1, as amended. On a pass that reaches the handlers, the handlers
    issue no status write themselves, and the deferred function issues
    one, with the recomputed status, if and only if that status differs
    from the snapshot taken at the start of the pass; so a pass that
    recomputes the status it started from performs no status write. A
    pass that issues no write call at all hands the datastore back as it
    received it, and reconcile run again on it does the same and issues
    none either. *)
Theorem reconcile_status_write (types : Types) (osc : ObjectStoreController)
    (key : string) (ds : DataStore) :
  (forall ns name store,
     SplitMetaNamespaceKey key = Ok (ns, name) ->
     GetObjectStore name ds = Ok store ->
     isResponsibleFor osc store ds = true ->
     let store' := snd (fst (dispatch types osc store ds)) in
     let ds1 := snd (dispatch types osc store ds) in
     let ds' := snd (reconcile types osc key ds) in
     fst (reconcile types osc key ds) = fst (fst (dispatch types osc store ds))
     /\ (exists calls,
           actions ds' = actions ds ++ calls
           /\ (Exists isStatusWrite calls <-> Status store' <> Status store))
     /\ (Status store' = Status store -> ds' = ds1)
     /\ (Status store' <> Status store ->
         ds' = snd (UpdateObjectStoreStatus store' ds1)
         /\ actions ds' =
              actions ds1 ++ [ActionUpdateObjectStoreStatus (Name store') (Status store')]))
  /\ (actions (snd (reconcile types osc key ds)) = actions ds ->
      snd (reconcile types osc key ds) = ds
      /\ reconcile types osc key (snd (reconcile types osc key ds))
         = reconcile types osc key ds).
Proof.
  assert (Hreach : forall ns name store,
     SplitMetaNamespaceKey key = Ok (ns, name) ->
     GetObjectStore name ds = Ok store ->
     isResponsibleFor osc store ds = true ->
     fst (reconcile types osc key ds) = fst (fst (dispatch types osc store ds))
     /\ (Status (snd (fst (dispatch types osc store ds))) = Status store ->
         snd (reconcile types osc key ds) = snd (dispatch types osc store ds))
     /\ (Status (snd (fst (dispatch types osc store ds))) <> Status store ->
         snd (reconcile types osc key ds)
         = snd (UpdateObjectStoreStatus (snd (fst (dispatch types osc store ds)))
                  (snd (dispatch types osc store ds)))
         /\ actions (snd (reconcile types osc key ds)) =
              actions (snd (dispatch types osc store ds)) ++
              [ActionUpdateObjectStoreStatus
                 (Name (snd (fst (dispatch types osc store ds))))
                 (Status (snd (fst (dispatch types osc store ds))))])).
  { intros ns name store Hkey Hget Hresp.
    rewrite (reconcile_dispatch types osc key ns name store ds Hkey Hget Hresp).
    cbn [fst snd]. split; [reflexivity|]. split.
    - intros Hsame. unfold writeBackStatus.
      rewrite bool_decide_eq_true_2 by congruence. reflexivity.
    - intros Hdiff. rewrite writeBackStatus_changed by congruence.
      split; [reflexivity|]. apply UpdateObjectStoreStatus_frame. }
  split.
  - intros ns name store Hkey Hget Hresp store' ds1 ds'.
    destruct (Hreach ns name store Hkey Hget Hresp) as (Hout & Hsame & Hdiff).
    fold store' ds1 ds' in Hsame, Hdiff.
    split; [exact Hout|]. split; [|split; [exact Hsame | exact Hdiff]].
    destruct (advances_dispatch types osc store ds) as (calls & Hcalls & Hnone & _).
    fold ds1 in Hcalls.
    destruct (decide (Status store' = Status store)) as [Heq | Hne].
    + exists calls. rewrite (Hsame Heq). split; [exact Hcalls|].
      split; [|contradiction].
      intros Hex. apply Exists_exists in Hex. destruct Hex as (a & Hin & Ha).
      rewrite Forall_forall in Hnone. destruct (Hnone a Hin Ha).
    + exists (calls ++ [ActionUpdateObjectStoreStatus (Name store') (Status store')]).
      destruct (Hdiff Hne) as [_ Hact].
      rewrite Hact, Hcalls, app_assoc. split; [reflexivity|].
      split; [intros _; exact Hne|].
      intros _. apply Exists_app. right. left. exact I.
  - intros Hquiet.
    assert (Hsame : snd (reconcile types osc key ds) = ds).
    { destruct (SplitMetaNamespaceKey key) as [[ns name]|e] eqn:Hkey;
        [|unfold reconcile; rewrite Hkey; reflexivity].
      destruct (GetObjectStore name ds) as [store|e] eqn:Hget;
        [|unfold reconcile; rewrite Hkey, Hget; destruct (ErrorIsNotFound e); reflexivity].
      destruct (isResponsibleFor osc store ds) eqn:Hresp;
        [|unfold reconcile; rewrite Hkey, Hget, Hresp; reflexivity].
      destruct (Hreach ns name store eq_refl Hget Hresp) as (_ & Hsame & Hdiff).
      destruct (advances_dispatch types osc store ds) as (calls & Hcalls & _ & Hnil).
      destruct (decide (Status (snd (fst (dispatch types osc store ds))) = Status store))
        as [Heq | Hne].
      - rewrite (Hsame Heq) in *. apply Hnil.
        apply (app_same_nil (actions ds)). congruence.
      - exfalso. destruct (Hdiff Hne) as [_ Hact].
        rewrite Hact, Hcalls, <- app_assoc in Hquiet.
        apply app_same_nil in Hquiet. destruct calls; discriminate. }
    split; [exact Hsame|]. rewrite Hsame. reflexivity.
Qed.

Lemma reconcile_status_write_witness :
  let parked := Fixture.objectStore ObjectStoreStateStopped []
                  (Fixture.statusOf ObjectStoreStateStopped) in
  let fresh := Fixture.objectStore ObjectStoreStateRunning [] Fixture.emptyStatus in
  let ds := Fixture.dataStore [parked] [] [] in
  let ds0 := Fixture.dataStore [fresh] [] [] in
  (snd (reconcile Fixture.types Fixture.osc Fixture.key ds) = ds
   /\ reconcile Fixture.types Fixture.osc Fixture.key
        (snd (reconcile Fixture.types Fixture.osc Fixture.key ds))
      = reconcile Fixture.types Fixture.osc Fixture.key ds)
  /\ actions (snd (reconcile Fixture.types Fixture.osc Fixture.key ds0))
     = [ActionUpdateObjectStoreStatus "test-object-store"
          {| State := ObjectStoreStateStarting; Status_Endpoints := [] |}].
Proof.
  intros parked fresh ds ds0. split.
  - apply (proj2 (reconcile_status_write Fixture.types Fixture.osc Fixture.key ds)).
    reflexivity.
  - destruct (proj1 (reconcile_status_write Fixture.types Fixture.osc Fixture.key ds0)
                "default" "test-object-store" fresh eq_refl eq_refl eq_refl)
      as (_ & _ & _ & Hdiff).
    destruct (Hdiff ltac:(discriminate)) as [_ Hact].
    exact Hact.
Defined.

(** C1 as stated fails in its second half: an ObjectStore in state
    Stopping with target state Running, its deployment scaled to 0 with
    no pod available. The first pass writes the status Stopped, the
    second, run right after it, writes the status Starting. Neither pass
    touches a dependent resource, and nothing but reconcile ran in
    between. *)
Lemma second_pass_writes_status :
  let store := Fixture.objectStore ObjectStoreStateRunning []
                 (Fixture.statusOf ObjectStoreStateStopping) in
  let down := Fixture.deployment (Some 0) Fixture.containers 0 0 0 in
  let ds := Fixture.dataStore [store] [down] [Fixture.service] in
  let ds1 := snd (reconcile Fixture.types Fixture.osc Fixture.key ds) in
  let ds2 := snd (reconcile Fixture.types Fixture.osc Fixture.key ds1) in
  dependents ds1 = dependents ds
  /\ dependents ds2 = dependents ds
  /\ actions ds1 =
       [ActionUpdateObjectStoreStatus "test-object-store"
          (Fixture.statusOf ObjectStoreStateStopped)]
  /\ actions ds2 =
       actions ds1 ++
       [ActionUpdateObjectStoreStatus "test-object-store"
          (Fixture.statusOf ObjectStoreStateStarting)]
  /\ Exists isStatusWrite
       [ActionUpdateObjectStoreStatus "test-object-store"
          (Fixture.statusOf ObjectStoreStateStarting)].
Proof.
  repeat split; try reflexivity. left. exact I.
Qed.

(** * Further properties *)

(** ** Keys *)

Lemma splitSlash_length (key : string) :
  length (splitSlash key) = S (countSlash key).
Proof.
  induction key as [|c rest IH]; [reflexivity|].
  cbn [splitSlash countSlash].
  destruct (Ascii.eqb c "/"%char).
  - simpl. rewrite IH. reflexivity.
  - destruct (splitSlash rest) as [|part parts]; simpl in *; [discriminate | exact IH].
Qed.

Lemma splitSlash_plain (name : string) :
  countSlash name = 0%nat -> splitSlash name = [name].
Proof.
  induction name as [|c rest IH]; [reflexivity|].
  cbn [splitSlash countSlash].
  destruct (Ascii.eqb c "/"%char); [discriminate|].
  intros H. rewrite (IH H). reflexivity.
Qed.

Lemma splitSlash_joined (ns name : string) :
  countSlash ns = 0%nat ->
  splitSlash (ns +:+ "/" +:+ name) = ns :: splitSlash name.
Proof.
  change ("/" +:+ name) with (String "/"%char name).
  induction ns as [|c rest IH]; [reflexivity|].
  cbn [countSlash]. intros H.
  change (String c rest +:+ String "/"%char name)
    with (String c (rest +:+ String "/"%char name)).
  cbn [splitSlash].
  destruct (Ascii.eqb c "/"%char); [discriminate|].
  rewrite (IH H). reflexivity.
Qed.

Lemma SplitMetaNamespaceKey_joined (ns name : string) :
  countSlash ns = 0%nat -> countSlash name = 0%nat ->
  SplitMetaNamespaceKey (ns +:+ "/" +:+ name) = Ok (ns, name).
Proof.
  intros Hns Hname. unfold SplitMetaNamespaceKey.
  rewrite (splitSlash_joined ns name Hns), (splitSlash_plain name Hname). reflexivity.
Qed.

Lemma SplitMetaNamespaceKey_plain (name : string) :
  countSlash name = 0%nat -> SplitMetaNamespaceKey name = Ok (EmptyString, name).
Proof.
  intros Hname. unfold SplitMetaNamespaceKey.
  rewrite (splitSlash_plain name Hname). reflexivity.
Qed.

(** X1. A key made by getMetaKey from a namespace and a name without "/"
    is reconciled as the bare name is: reconcile looks the ObjectStore up
    by the name alone and drops the namespace of the key. *)
Theorem reconcile_key_namespace_dropped (types : Types) (osc : ObjectStoreController)
    (ns name : string) (ds : DataStore) :
  countSlash ns = 0%nat -> countSlash name = 0%nat ->
  SplitMetaNamespaceKey (getMetaKey ns name) = Ok (ns, name)
  /\ reconcile types osc (getMetaKey ns name) ds = reconcile types osc name ds.
Proof.
  intros Hns Hname. unfold getMetaKey.
  split; [apply SplitMetaNamespaceKey_joined; assumption|].
  unfold reconcile.
  rewrite (SplitMetaNamespaceKey_joined ns name Hns Hname).
  rewrite (SplitMetaNamespaceKey_plain name Hname). reflexivity.
Qed.

Lemma reconcile_key_namespace_dropped_witness :
  let store := Fixture.objectStore ObjectStoreStateRunning [] Fixture.emptyStatus in
  let ds := Fixture.dataStore [store] [] [] in
  SplitMetaNamespaceKey (getMetaKey "elsewhere" "test-object-store")
  = Ok ("elsewhere", "test-object-store")
  /\ reconcile Fixture.types Fixture.osc (getMetaKey "elsewhere" "test-object-store") ds
     = reconcile Fixture.types Fixture.osc "test-object-store" ds.
Proof.
  intros store ds.
  apply (reconcile_key_namespace_dropped Fixture.types Fixture.osc
           "elsewhere" "test-object-store" ds); reflexivity.
Defined.

(** X2. A key with two or more "/" is refused: reconcile returns an error
    and hands the datastore back untouched, whatever it holds. *)
Theorem reconcile_malformed_key (types : Types) (osc : ObjectStoreController)
    (key : string) (ds : DataStore) :
  (2 <= countSlash key)%nat ->
  reconcile types osc key ds =
    (Return (Some (ErrErrorf "unexpected key format: %q" key)), ds).
Proof.
  intros Hcount. unfold reconcile, SplitMetaNamespaceKey.
  pose proof (splitSlash_length key) as Hlen.
  destruct (splitSlash key) as [|a [|b [|c rest]]]; simpl in Hlen; try lia.
  reflexivity.
Qed.

Lemma reconcile_malformed_key_witness :
  let store := Fixture.objectStore ObjectStoreStateRunning [] Fixture.emptyStatus in
  let ds := Fixture.dataStore [store] [] [] in
  reconcile Fixture.types Fixture.osc "default/test-object-store/status" ds =
    (Return (Some (ErrErrorf "unexpected key format: %q"
                     "default/test-object-store/status")), ds).
Proof.
  intros store ds.
  apply (reconcile_malformed_key Fixture.types Fixture.osc
           "default/test-object-store/status" ds).
  apply (le_n 2).
Defined.

(** ** What a pass can do to the datastore *)

Lemma SetImage_replicas (dpl dpl' : Deployment) (name image : string) :
  SetImageOfDeploymentContainerWithName dpl name image = Ok dpl' ->
  dpl_Replicas dpl' = dpl_Replicas dpl /\ dpl_Name dpl' = dpl_Name dpl.
Proof.
  unfold SetImageOfDeploymentContainerWithName.
  destruct (setImageOfContainerWithName _ _ _); [|discriminate].
  intros [= <-]. auto.
Qed.

(** A pass changes the datastore by nine kinds of steps only: the six
    creations of a resource built for an ObjectStore, the update of a
    deployment whose replica pointer is set, the removal of the
    finalizer and the status write. Whatever relation between datastores
    is reflexive, transitive and holds across each of these steps holds
    across the handlers and across reconcile. *)
Section Closure.

Variable types : Types.
Variable osc : ObjectStoreController.
Variable R : DataStore -> DataStore -> Prop.

Hypothesis R_refl : forall ds, R ds ds.
Hypothesis R_trans : forall ds1 ds2 ds3, R ds1 ds2 -> R ds2 ds3 -> R ds1 ds3.
Hypothesis R_createPVC : forall store ds,
  R ds (snd (CreatePersistentVolumeClaim (newPersistentVolumeClaim types osc store) ds)).
Hypothesis R_createVolume : forall store pvc ds,
  R ds (snd (CreateVolume (newVolume osc store pvc) ds)).
Hypothesis R_createPV : forall store vol ds,
  R ds (snd (CreatePersistentVolume (newPersistentVolume types osc store vol) ds)).
Hypothesis R_createDeployment : forall store secret registry ds,
  R ds (snd (CreateDeployment (newDeployment types osc store secret registry) ds)).
Hypothesis R_createService : forall store ds,
  R ds (snd (CreateService (newService types osc store) ds)).
Hypothesis R_createIngress : forall store endpoint ds,
  R ds (snd (CreateIngress (newIngress osc store endpoint) ds)).
Hypothesis R_update : forall dpl ds,
  dpl_Replicas dpl <> None ->
  R ds (snd (UpdateDeployment dpl (assignInPlace dpl ds))).
Hypothesis R_removeFinalizer : forall store ds,
  R ds (snd (RemoveFinalizerForObjectStore store ds)).
Hypothesis R_updateStatus : forall store ds,
  R ds (snd (UpdateObjectStoreStatus store ds)).

Ltac closed_get_or_create getOrCreate step :=
  unfold getOrCreate;
  match goal with
  | |- context [match ?lookup with Ok _ => _ | Err _ => _ end] =>
      destruct lookup; [apply R_refl|]
  end;
  match goal with
  | |- context [ErrorIsNotFound ?err] =>
      destruct (ErrorIsNotFound err); [|apply R_refl]
  end;
  match goal with
  | |- context [match ?create with (_, _) => _ end] =>
      let H := fresh "H" in
      pose proof step as H;
      destruct create as [[?|?] ?]; exact H
  end.

Lemma closed_getOrCreatePVC (store : ObjectStore) (ds : DataStore) :
  R ds (snd (getOrCreatePVC types osc store ds)).
Proof.
  closed_get_or_create getOrCreatePVC (R_createPVC store ds : R ds (snd (createPVC types osc store ds))).
Qed.

Lemma closed_getOrCreateVolume (store : ObjectStore) (pvc : PersistentVolumeClaim)
    (ds : DataStore) :
  R ds (snd (getOrCreateVolume osc store pvc ds)).
Proof.
  closed_get_or_create getOrCreateVolume
    (R_createVolume store pvc ds : R ds (snd (createVolume osc store pvc ds))).
Qed.

Lemma closed_getOrCreatePV (store : ObjectStore) (vol : Volume) (ds : DataStore) :
  R ds (snd (getOrCreatePV types osc store vol ds)).
Proof.
  closed_get_or_create getOrCreatePV
    (R_createPV store vol ds : R ds (snd (createPV types osc store vol ds))).
Qed.

Lemma closed_createDeployment (store : ObjectStore) (ds : DataStore) :
  R ds (snd (createDeployment types osc store ds)).
Proof.
  unfold createDeployment.
  destruct (match GetSecret (Credentials_Name (Spec store)) ds with
            | Ok _ => None
            | Err err => if negb (ErrorIsNotFound err) then Some err else None
            end); [apply R_refl|].
  destruct (GetSetting_RegistrySecret ds) as [registry|e]; [|apply R_refl].
  apply R_createDeployment.
Qed.

Lemma closed_getOrCreateDeployment (store : ObjectStore) (ds : DataStore) :
  R ds (snd (getOrCreateDeployment types osc store ds)).
Proof.
  closed_get_or_create getOrCreateDeployment (closed_createDeployment store ds).
Qed.

Lemma closed_getOrCreateService (store : ObjectStore) (ds : DataStore) :
  R ds (snd (getOrCreateService types osc store ds)).
Proof.
  closed_get_or_create getOrCreateService
    (R_createService store ds : R ds (snd (createService types osc store ds))).
Qed.

Lemma closed_s3EndpointsFrom (endpoints : list ObjectStoreEndpointSpec) :
  forall ingresses store ds,
    R ds (snd (s3EndpointsFrom osc endpoints ingresses store ds)).
Proof.
  induction endpoints as [|endpoint rest IH]; intros ingresses store ds.
  - apply R_refl.
  - cbn [s3EndpointsFrom].
    destruct (GetIngress (ingressName store endpoint) ds) as [found|err]; [apply IH|].
    destruct (ErrorIsNotFound err); [|apply R_refl].
    pose proof (R_createIngress store endpoint ds) as Hc.
    destruct (CreateIngress (newIngress osc store endpoint) ds) as [created ds1].
    simpl in Hc.
    destruct (match created with
              | Ok _ => None
              | Err err0 => if negb (ErrorIsAlreadyExists err0) then Some err0 else None
              end); [exact Hc|].
    eapply R_trans; [exact Hc | apply IH].
Qed.

Lemma closed_checkDeployment (dpl : Deployment) (store : ObjectStore)
    (ds : DataStore) :
  R ds (snd (checkDeployment types dpl store ds)).
Proof.
  unfold checkDeployment.
  destruct (dpl_Replicas dpl) as [n|] eqn:Hn; [|apply R_refl].
  destruct (negb (n =? 1)%Z); [apply R_update; discriminate|].
  destruct (_ || _); [apply R_refl|].
  destruct (updateImage _ _ dpl store ds) as [[[d1 s1] ds1]|e1] eqn:H1;
    [|apply R_refl].
  apply updateImage_Ok in H1.
  assert (E1 : R ds ds1 /\ dpl_Replicas d1 <> None).
  { destruct H1 as [(-> & _ & -> & _) | (_ & Hset & _ & ->)].
    - split; [apply R_refl | congruence].
    - apply SetImage_replicas in Hset. destruct Hset as [Hr _].
      assert (dpl_Replicas d1 <> None) by congruence.
      split; [apply R_update; assumption | assumption]. }
  destruct E1 as [E1 Hd1].
  destruct (updateImage _ _ d1 s1 ds1) as [[[d2 s2] ds2]|e2] eqn:H2; [|exact E1].
  apply updateImage_Ok in H2.
  destruct H2 as [(_ & _ & -> & _) | (_ & Hset & _ & ->)]; [exact E1|].
  apply SetImage_replicas in Hset. destruct Hset as [Hr _].
  eapply R_trans; [exact E1 | apply R_update; congruence].
Qed.

Lemma closed_handleStarting (store : ObjectStore) (ds : DataStore) :
  R ds (snd (handleStarting types osc store ds)).
Proof.
  unfold handleStarting.
  pose proof (closed_getOrCreatePVC store ds) as A1.
  destruct (getOrCreatePVC types osc store ds) as [[[pvc|e] s1] d1];
    simpl in A1; [|exact A1].
  pose proof (closed_getOrCreateVolume s1 pvc d1) as A2.
  destruct (getOrCreateVolume osc s1 pvc d1) as [[[vol|e] s2] d2]; simpl in A2;
    pose proof (R_trans _ _ _ A1 A2) as B2; [|exact B2].
  pose proof (closed_getOrCreatePV s2 vol d2) as A3.
  destruct (getOrCreatePV types osc s2 vol d2) as [[[pv|e] s3] d3]; simpl in A3;
    pose proof (R_trans _ _ _ B2 A3) as B3; [|exact B3].
  pose proof (closed_getOrCreateDeployment s3 d3) as A4.
  destruct (getOrCreateDeployment types osc s3 d3) as [[[dpl|e] s4] d4]; simpl in A4;
    pose proof (R_trans _ _ _ B3 A4) as B4; [|exact B4].
  pose proof (closed_getOrCreateService s4 d4) as A5.
  destruct (getOrCreateService types osc s4 d4) as [[[svc|e] s5] d5]; simpl in A5;
    pose proof (R_trans _ _ _ B4 A5) as B5; [|exact B5].
  pose proof (closed_s3EndpointsFrom (Endpoints (Spec s5)) [] s5 d5) as A6.
  unfold getOrCreateS3Endpoints.
  destruct (s3EndpointsFrom osc (Endpoints (Spec s5)) [] s5 d5)
    as [[[endpoints|e] s6] d6]; simpl in A6;
    pose proof (R_trans _ _ _ B5 A6) as B6; [|exact B6].
  destruct (checkPVC pvc); [exact B6|].
  destruct (checkVolume vol); [exact B6|].
  destruct (checkPV pv); [exact B6|].
  match goal with
  | |- context [checkDeployment types dpl ?s d6] =>
      pose proof (closed_checkDeployment dpl s d6) as A7;
      destruct (checkDeployment types dpl s d6) as [[[[e|]|] s7] d7]
  end;
    simpl in A7; exact (R_trans _ _ _ B6 A7).
Qed.

Lemma closed_handleRunning (store : ObjectStore) (ds : DataStore) :
  R ds (snd (handleRunning types store ds)).
Proof.
  unfold handleRunning.
  destruct (bool_decide _); [apply R_refl|].
  destruct (GetDeployment (Name store) ds) as [dpl|e]; [|apply R_refl].
  pose proof (closed_checkDeployment dpl store ds) as A.
  destruct (checkDeployment types dpl store ds) as [[[[e|]|] s1] d1];
    simpl in A; try exact A.
  repeat (break_match; try exact A).
Qed.

Lemma closed_handleStopping (store : ObjectStore) (ds : DataStore) :
  R ds (snd (handleStopping store ds)).
Proof.
  unfold handleStopping.
  destruct (GetDeployment (Name store) ds) as [dpl|e]; [|apply R_refl].
  destruct (match dpl_Replicas dpl with
            | Some replicas => negb (replicas =? 0)%Z
            | None => false
            end).
  - pose proof (R_update (setReplicas 0 dpl) ds) as A.
    destruct (UpdateDeployment _ _) as [updated ds']. apply A. discriminate.
  - destruct (_ <? _)%Z; apply R_refl.
Qed.

Lemma closed_dispatch (store : ObjectStore) (ds : DataStore) :
  R ds (snd (dispatch types osc store ds)).
Proof.
  unfold dispatch.
  destruct (negb (IsZero (DeletionTimestamp store))).
  - destruct (negb (bool_decide _)); [apply R_refl|].
    unfold handleTerminating.
    destruct (negb _); [|apply R_refl].
    pose proof (R_removeFinalizer store ds) as A.
    destruct (RemoveFinalizerForObjectStore store ds) as [err ds']. exact A.
  - destruct (State (Status store));
      try (destruct (initializeObjectStore store) as [err store']; apply R_refl).
    + apply closed_handleStarting.
    + apply closed_handleRunning.
    + pose proof (closed_handleStopping store ds) as A.
      destruct (handleStopping store ds) as [[err store'] ds']. exact A.
    + destruct (handleStopped store) as [err store']. apply R_refl.
    + apply closed_handleStarting.
Qed.

Lemma closed_reconcile (key : string) (ds : DataStore) :
  R ds (snd (reconcile types osc key ds)).
Proof.
  unfold reconcile.
  destruct (SplitMetaNamespaceKey key) as [[ns name]|e]; [|apply R_refl].
  destruct (GetObjectStore name ds) as [store|e];
    [|destruct (ErrorIsNotFound e); apply R_refl].
  destruct (negb (isResponsibleFor osc store ds)); [apply R_refl|].
  pose proof (closed_dispatch store ds) as A.
  destruct (dispatch types osc store ds) as [[out store'] ds']. simpl in *.
  unfold writeBackStatus. destruct (bool_decide _); [exact A|].
  eapply R_trans; [exact A | apply R_updateStatus].
Qed.

End Closure.

Lemma insert_fresh_kept {A : Type} (m : gmap string A) (n : string) (x : A) :
  m !! n = None ->
  forall k v, m !! k = Some v -> <[n := x]> m !! k = Some v.
Proof.
  intros Hn k v Hk. rewrite lookup_insert_ne; [exact Hk | congruence].
Qed.

Lemma insert_still_held {A : Type} (m : gmap string A) (n : string) (x : A) :
  forall k, is_Some (m !! k) -> is_Some (<[n := x]> m !! k).
Proof.
  intros k Hk. destruct (decide (n = k)) as [-> | Hne].
  - rewrite lookup_insert_eq. eauto.
  - rewrite lookup_insert_ne by assumption. exact Hk.
Qed.

Lemma dependentsKept_refl (ds : DataStore) : dependentsKept ds ds.
Proof. unfold dependentsKept. auto 12. Qed.

Lemma dependentsKept_trans (ds1 ds2 ds3 : DataStore) :
  dependentsKept ds1 ds2 -> dependentsKept ds2 ds3 -> dependentsKept ds1 ds3.
Proof.
  unfold dependentsKept.
  intros (A1 & A2 & A3 & A4 & A5 & A6 & A7 & A8 & A9)
         (B1 & B2 & B3 & B4 & B5 & B6 & B7 & B8 & B9).
  repeat match goal with |- _ /\ _ => split end; eauto; congruence.
Qed.

Ltac kept_by_create :=
  intros; unfold CreatePersistentVolumeClaim, CreateVolume, CreatePersistentVolume,
            CreateDeployment, CreateService, CreateIngress, DS.create;
  simpl;
  match goal with
  | |- context [failure ?ds ?v ?k ?n] => destruct (failure ds v k n); simpl
  end;
  [unfold dependentsKept; simpl; auto 12|];
  match goal with
  | |- context [match ?m !! ?n with _ => _ end] => destruct (m !! n) eqn:?; simpl
  end;
  [unfold dependentsKept; simpl; auto 12|];
  unfold dependentsKept; simpl;
  repeat match goal with |- _ /\ _ => split end;
  auto using insert_fresh_kept, insert_still_held.

Lemma dependentsKept_CreatePVC (pvc : PersistentVolumeClaim) (ds : DataStore) :
  dependentsKept ds (snd (CreatePersistentVolumeClaim pvc ds)).
Proof. kept_by_create. Qed.

Lemma dependentsKept_CreateVolume (vol : Volume) (ds : DataStore) :
  dependentsKept ds (snd (CreateVolume vol ds)).
Proof. kept_by_create. Qed.

Lemma dependentsKept_CreatePV (pv : PersistentVolume) (ds : DataStore) :
  dependentsKept ds (snd (CreatePersistentVolume pv ds)).
Proof. kept_by_create. Qed.

Lemma dependentsKept_CreateDeployment (dpl : Deployment) (ds : DataStore) :
  dependentsKept ds (snd (CreateDeployment dpl ds)).
Proof. kept_by_create. Qed.

Lemma dependentsKept_CreateService (svc : Service) (ds : DataStore) :
  dependentsKept ds (snd (CreateService svc ds)).
Proof. kept_by_create. Qed.

Lemma dependentsKept_CreateIngress (ingress : Ingress) (ds : DataStore) :
  dependentsKept ds (snd (CreateIngress ingress ds)).
Proof. kept_by_create. Qed.

Lemma dependentsKept_update (dpl : Deployment) (ds : DataStore) :
  dependentsKept ds (snd (UpdateDeployment dpl (assignInPlace dpl ds))).
Proof.
  unfold UpdateDeployment. destruct (DS.update _ _ _); unfold dependentsKept; simpl;
    repeat match goal with |- _ /\ _ => split end;
    auto using insert_still_held.
Qed.

Lemma dependentsKept_removeFinalizer (store : ObjectStore) (ds : DataStore) :
  dependentsKept ds (snd (RemoveFinalizerForObjectStore store ds)).
Proof.
  unfold RemoveFinalizerForObjectStore. simpl.
  destruct (failure ds _ _ _); simpl; [unfold dependentsKept; simpl; auto 12|].
  destruct (ObjectStores ds !! Name store); unfold dependentsKept; simpl; auto 12.
Qed.

Lemma dependentsKept_updateStatus (store : ObjectStore) (ds : DataStore) :
  dependentsKept ds (snd (UpdateObjectStoreStatus store ds)).
Proof.
  unfold UpdateObjectStoreStatus. simpl.
  destruct (failure ds _ _ _); simpl; [unfold dependentsKept; simpl; auto 12|].
  destruct (ObjectStores ds !! Name store); unfold dependentsKept; simpl; auto 12.
Qed.

Lemma dependentsKept_processNextWorkItem (types : Types) (osc : ObjectStoreController)
    (got : string * bool) (queue : list QueueCall) (ds : DataStore) :
  dependentsKept ds (snd (reconcile types osc (fst got) ds)) ->
  dependentsKept ds (snd (processNextWorkItem types osc got queue ds)).
Proof.
  destruct got as [key quit]. simpl. intros H.
  destruct quit; [apply dependentsKept_refl|].
  destruct (reconcile types osc key ds) as [[[e|]|] ds']; exact H.
Qed.

(** X3. Neither a pass nor a whole run of a worker loop takes anything
    away: a storage claim, volume, volume handle, service or ingress that
    exists is left exactly as it is, a deployment that exists still
    exists afterwards (the controller only updates it), and secrets and
    settings are not touched. Deletion is never done by the controller. *)
Theorem reconcile_never_deletes (types : Types) (osc : ObjectStoreController)
    (ds : DataStore) :
  (forall key, dependentsKept ds (snd (reconcile types osc key ds)))
  /\ (forall gets queue, dependentsKept ds (snd (worker types osc gets queue ds))).
Proof.
  assert (Hpass : forall key ds, dependentsKept ds (snd (reconcile types osc key ds))).
  { intros key ds0.
    apply closed_reconcile;
      auto using dependentsKept_refl, dependentsKept_CreatePVC,
        dependentsKept_CreateVolume, dependentsKept_CreatePV,
        dependentsKept_CreateDeployment, dependentsKept_CreateService,
        dependentsKept_CreateIngress, dependentsKept_update,
        dependentsKept_removeFinalizer, dependentsKept_updateStatus.
    apply dependentsKept_trans. }
  split; [intros key; apply Hpass|].
  intros gets. revert ds.
  induction gets as [|got rest IH]; intros ds queue; [apply dependentsKept_refl|].
  cbn [worker].
  pose proof (dependentsKept_processNextWorkItem types osc got queue ds
                (Hpass (fst got) ds)) as Hstep.
  destruct (processNextWorkItem types osc got queue ds) as [[[[|]|] queue'] ds'];
    simpl in Hstep; try exact Hstep.
  eapply dependentsKept_trans; [exact Hstep | apply IH].
Qed.

Lemma objectStoresKept_refl (ds : DataStore) : objectStoresKept ds ds.
Proof. intros k. destruct (ObjectStores ds !! k); auto. Qed.

Lemma objectStoresKept_trans (ds1 ds2 ds3 : DataStore) :
  objectStoresKept ds1 ds2 -> objectStoresKept ds2 ds3 -> objectStoresKept ds1 ds3.
Proof.
  intros H12 H23 k. specialize (H12 k). specialize (H23 k).
  destruct (ObjectStores ds1 !! k), (ObjectStores ds2 !! k), (ObjectStores ds3 !! k);
    try contradiction; auto.
  destruct H12 as (? & ? & ?), H23 as (? & ? & ?). repeat split; congruence.
Qed.

Lemma objectStoresKept_same (ds ds' : DataStore) :
  ObjectStores ds' = ObjectStores ds -> objectStoresKept ds ds'.
Proof. intros H k. rewrite H. destruct (ObjectStores ds !! k); auto. Qed.

Ltac stores_same_by_create :=
  intros; apply objectStoresKept_same;
  unfold CreatePersistentVolumeClaim, CreateVolume, CreatePersistentVolume,
    CreateDeployment, CreateService, CreateIngress;
  destruct (DS.create _ _ _); reflexivity.

Lemma objectStoresKept_CreatePVC (pvc : PersistentVolumeClaim) (ds : DataStore) :
  objectStoresKept ds (snd (CreatePersistentVolumeClaim pvc ds)).
Proof. stores_same_by_create. Qed.

Lemma objectStoresKept_CreateVolume (vol : Volume) (ds : DataStore) :
  objectStoresKept ds (snd (CreateVolume vol ds)).
Proof. stores_same_by_create. Qed.

Lemma objectStoresKept_CreatePV (pv : PersistentVolume) (ds : DataStore) :
  objectStoresKept ds (snd (CreatePersistentVolume pv ds)).
Proof. stores_same_by_create. Qed.

Lemma objectStoresKept_CreateDeployment (dpl : Deployment) (ds : DataStore) :
  objectStoresKept ds (snd (CreateDeployment dpl ds)).
Proof. stores_same_by_create. Qed.

Lemma objectStoresKept_CreateService (svc : Service) (ds : DataStore) :
  objectStoresKept ds (snd (CreateService svc ds)).
Proof. stores_same_by_create. Qed.

Lemma objectStoresKept_CreateIngress (ingress : Ingress) (ds : DataStore) :
  objectStoresKept ds (snd (CreateIngress ingress ds)).
Proof. stores_same_by_create. Qed.

Lemma objectStoresKept_update (dpl : Deployment) (ds : DataStore) :
  objectStoresKept ds (snd (UpdateDeployment dpl (assignInPlace dpl ds))).
Proof.
  apply objectStoresKept_same. rewrite UpdateDeployment_ObjectStores. reflexivity.
Qed.

Lemma objectStoresKept_removeFinalizer (store : ObjectStore) (ds : DataStore) :
  objectStoresKept ds (snd (RemoveFinalizerForObjectStore store ds)).
Proof.
  unfold RemoveFinalizerForObjectStore. simpl.
  destruct (failure ds _ _ _); simpl; [apply objectStoresKept_same; reflexivity|].
  destruct (ObjectStores ds !! Name store) as [cur|] eqn:Hcur; simpl;
    [|apply objectStoresKept_same; reflexivity].
  intros k. simpl. destruct (decide (Name store = k)) as [<- | Hne].
  - rewrite lookup_insert_eq, Hcur. simpl. auto.
  - rewrite lookup_insert_ne by assumption.
    destruct (ObjectStores ds !! k); auto.
Qed.

Lemma objectStoresKept_updateStatus (store : ObjectStore) (ds : DataStore) :
  objectStoresKept ds (snd (UpdateObjectStoreStatus store ds)).
Proof.
  unfold UpdateObjectStoreStatus. simpl.
  destruct (failure ds _ _ _); simpl; [apply objectStoresKept_same; reflexivity|].
  destruct (ObjectStores ds !! Name store) as [cur|] eqn:Hcur; simpl;
    [|apply objectStoresKept_same; reflexivity].
  intros k. simpl. destruct (decide (Name store = k)) as [<- | Hne].
  - rewrite lookup_insert_eq, Hcur. simpl. auto.
  - rewrite lookup_insert_ne by assumption.
    destruct (ObjectStores ds !! k); auto.
Qed.

(** X4. A pass neither creates nor removes an ObjectStore, and leaves the
    name, the spec and the deletion timestamp of every ObjectStore as
    they were: of the managed object the controller writes the status
    and the finalizers only. *)
Theorem reconcile_keeps_object_stores (types : Types) (osc : ObjectStoreController)
    (key : string) (ds : DataStore) :
  objectStoresKept ds (snd (reconcile types osc key ds)).
Proof.
  apply closed_reconcile;
    auto using objectStoresKept_refl, objectStoresKept_CreatePVC,
      objectStoresKept_CreateVolume, objectStoresKept_CreatePV,
      objectStoresKept_CreateDeployment, objectStoresKept_CreateService,
      objectStoresKept_CreateIngress, objectStoresKept_update,
      objectStoresKept_removeFinalizer, objectStoresKept_updateStatus.
  apply objectStoresKept_trans.
Qed.

(** ** Panics *)

Ltac replicas_same_by_create :=
  unfold CreatePersistentVolumeClaim, CreateVolume, CreatePersistentVolume,
    CreateService, CreateIngress;
  destruct (DS.create _ _ _); simpl; auto.

Lemma allReplicasSet_insert (dpl : Deployment) (ds : DataStore) :
  dpl_Replicas dpl <> None ->
  allReplicasSet ds ->
  forall k d, <[dpl_Name dpl := dpl]> (Deployments ds) !! k = Some d ->
              dpl_Replicas d <> None.
Proof.
  intros Hset Hall k d. destruct (decide (dpl_Name dpl = k)) as [<- | Hne].
  - rewrite lookup_insert_eq. intros [= <-]. exact Hset.
  - rewrite lookup_insert_ne by assumption. apply Hall.
Qed.

Lemma allReplicasSet_update (dpl : Deployment) (ds : DataStore) :
  dpl_Replicas dpl <> None ->
  allReplicasSet ds ->
  allReplicasSet (snd (UpdateDeployment dpl (assignInPlace dpl ds))).
Proof.
  intros Hset Hall. unfold UpdateDeployment, allReplicasSet.
  destruct (DS.update _ _ _); simpl.
  - intros k d. rewrite insert_insert_eq. apply allReplicasSet_insert; assumption.
  - apply allReplicasSet_insert; assumption.
Qed.

Lemma allReplicasSet_CreateDeployment (dpl : Deployment) (ds : DataStore) :
  dpl_Replicas dpl <> None ->
  allReplicasSet ds ->
  allReplicasSet (snd (CreateDeployment dpl ds)).
Proof.
  intros Hset Hall. unfold CreateDeployment, allReplicasSet.
  destruct (DS.create _ _ _); simpl; [|exact Hall].
  apply allReplicasSet_insert; assumption.
Qed.

(** The pass keeps every replica pointer set. *)
Lemma allReplicasSet_reconcile (types : Types) (osc : ObjectStoreController)
    (key : string) (ds : DataStore) :
  allReplicasSet ds -> allReplicasSet (snd (reconcile types osc key ds)).
Proof.
  revert ds.
  apply (closed_reconcile types osc
           (fun ds ds' => allReplicasSet ds -> allReplicasSet ds')); auto.
  - intros store ds. replicas_same_by_create.
  - intros store pvc ds. replicas_same_by_create.
  - intros store vol ds. replicas_same_by_create.
  - intros store secret registry ds. apply allReplicasSet_CreateDeployment.
    discriminate.
  - intros store ds. replicas_same_by_create.
  - intros store endpoint ds. replicas_same_by_create.
  - intros dpl ds. apply allReplicasSet_update.
  - intros store ds. unfold RemoveFinalizerForObjectStore. simpl.
    destruct (failure ds _ _ _); simpl; auto.
    destruct (ObjectStores ds !! Name store); simpl; auto.
  - intros store ds. unfold UpdateObjectStoreStatus. simpl.
    destruct (failure ds _ _ _); simpl; auto.
    destruct (ObjectStores ds !! Name store); simpl; auto.
Qed.

Lemma getOrCreateDeployment_replicas (types : Types) (osc : ObjectStoreController)
    (store store' : ObjectStore) (ds ds' : DataStore) (dpl : Deployment) :
  allReplicasSet ds ->
  getOrCreateDeployment types osc store ds = (Ok dpl, store', ds') ->
  dpl_Replicas dpl <> None.
Proof.
  intros Hall. unfold getOrCreateDeployment.
  destruct (GetDeployment (Name store) ds) as [found|err] eqn:Hget.
  - intros [= <- _ _]. apply get_Ok_inv in Hget. destruct Hget as [_ Hfound].
    exact (Hall _ _ Hfound).
  - destruct (ErrorIsNotFound err); [|discriminate].
    destruct (createDeployment types osc store ds) as [[created|e] ds1] eqn:Hc;
      [|discriminate].
    intros [= <- _ _].
    destruct (createDeployment_synthesized types osc store ds created ds1 Hc)
      as (-> & _). discriminate.
Qed.

Lemma handleStarting_no_panic (types : Types) (osc : ObjectStoreController)
    (store : ObjectStore) (ds : DataStore) :
  allReplicasSet ds ->
  fst (fst (handleStarting types osc store ds)) <> Panic.
Proof.
  intros Hall. unfold handleStarting.
  assert (Hrefl : forall d, allReplicasSet d -> allReplicasSet d) by auto.
  assert (Htrans : forall d1 d2 d3 : DataStore,
             (allReplicasSet d1 -> allReplicasSet d2) ->
             (allReplicasSet d2 -> allReplicasSet d3) ->
             allReplicasSet d1 -> allReplicasSet d3) by auto.
  pose proof (closed_getOrCreatePVC types osc
                (fun d d' => allReplicasSet d -> allReplicasSet d') Hrefl
                ltac:(intros s d; replicas_same_by_create) store ds) as A1.
  destruct (getOrCreatePVC types osc store ds) as [[[pvc|e] s1] d1];
    simpl in A1; [|discriminate].
  pose proof (closed_getOrCreateVolume osc
                (fun d d' => allReplicasSet d -> allReplicasSet d') Hrefl
                ltac:(intros s p d; replicas_same_by_create) s1 pvc d1) as A2.
  destruct (getOrCreateVolume osc s1 pvc d1) as [[[vol|e] s2] d2]; simpl in A2;
    [|discriminate].
  pose proof (closed_getOrCreatePV types osc
                (fun d d' => allReplicasSet d -> allReplicasSet d') Hrefl
                ltac:(intros s v d; replicas_same_by_create) s2 vol d2) as A3.
  destruct (getOrCreatePV types osc s2 vol d2) as [[[pv|e] s3] d3]; simpl in A3;
    [|discriminate].
  destruct (getOrCreateDeployment types osc s3 d3) as [[[dpl|e] s4] d4] eqn:H4;
    [|discriminate].
  pose proof (getOrCreateDeployment_replicas types osc s3 s4 d3 d4 dpl
                (A3 (A2 (A1 Hall))) H4) as A4.
  destruct (getOrCreateService types osc s4 d4) as [[[svc|e] s5] d5]; [|discriminate].
  destruct (getOrCreateS3Endpoints osc s5 d5) as [[[endpoints|e] s6] d6];
    [|discriminate].
  destruct (checkPVC pvc); [discriminate|].
  destruct (checkVolume vol); [discriminate|].
  destruct (checkPV pv); [discriminate|].
  match goal with
  | |- context [checkDeployment types dpl ?s d6] =>
      pose proof (checkDeployment_Panic types dpl s d6) as P;
      destruct (checkDeployment types dpl s d6) as [[[[e|]|] s7] d7]
  end; simpl in *; try discriminate.
  intros _. apply A4, P. reflexivity.
Qed.

Lemma handleRunning_no_panic (types : Types) (store : ObjectStore) (ds : DataStore) :
  allReplicasSet ds ->
  fst (fst (handleRunning types store ds)) <> Panic.
Proof.
  intros Hall. unfold handleRunning.
  destruct (bool_decide _); [discriminate|].
  destruct (GetDeployment (Name store) ds) as [dpl|e] eqn:Hget; [|discriminate].
  apply get_Ok_inv in Hget. destruct Hget as [_ Hfound].
  pose proof (checkDeployment_Panic types dpl store ds) as P.
  destruct (checkDeployment types dpl store ds) as [[[[e|]|] s1] d1]; simpl in *.
  - discriminate.
  - repeat (break_match; try discriminate).
  - intros _. apply (Hall _ _ Hfound), P. reflexivity.
Qed.

Lemma reconcile_no_panic (types : Types) (osc : ObjectStoreController)
    (key : string) (ds : DataStore) :
  allReplicasSet ds -> fst (reconcile types osc key ds) <> Panic.
Proof.
  intros Hall. unfold reconcile.
  destruct (SplitMetaNamespaceKey key) as [[ns name]|e]; [|discriminate].
  destruct (GetObjectStore name ds) as [store|e];
    [|destruct (ErrorIsNotFound e); discriminate].
  destruct (negb (isResponsibleFor osc store ds)); [discriminate|].
  assert (Hd : fst (fst (dispatch types osc store ds)) <> Panic).
  { unfold dispatch.
    destruct (negb (IsZero (DeletionTimestamp store))).
    - destruct (negb (bool_decide _)); [discriminate|].
      destruct (handleTerminating store ds). discriminate.
    - destruct (State (Status store));
        try (destruct (initializeObjectStore store); discriminate).
      + apply handleStarting_no_panic, Hall.
      + apply handleRunning_no_panic, Hall.
      + destruct (handleStopping store ds) as [[? ?] ?]. discriminate.
      + destruct (handleStopped store). discriminate.
      + apply handleStarting_no_panic, Hall. }
  destruct (dispatch types osc store ds) as [[out store'] ds']. exact Hd.
Qed.

(** X5. If every deployment the datastore holds has its replica pointer
    set, a pass does not panic and leaves every replica pointer set; so
    a worker loop never ends in a panic, whatever keys it is handed. The
    only nil dereference, in checkDeployment, needs a deployment found
    with a nil pointer: one the controller created or updated never has
    one. *)
Theorem worker_never_panics (types : Types) (osc : ObjectStoreController)
    (ds : DataStore) :
  allReplicasSet ds ->
  (forall key,
     fst (reconcile types osc key ds) <> Panic
     /\ allReplicasSet (snd (reconcile types osc key ds)))
  /\ (forall gets queue,
        fst (fst (worker types osc gets queue ds)) <> WorkerPanicked
        /\ allReplicasSet (snd (worker types osc gets queue ds))).
Proof.
  intros Hall. split.
  - intros key. split;
      [apply reconcile_no_panic | apply allReplicasSet_reconcile]; exact Hall.
  - intros gets. revert ds Hall.
    induction gets as [|[key quit] rest IH]; intros ds Hall queue.
    + simpl. split; [discriminate | exact Hall].
    + cbn [worker processNextWorkItem].
      destruct quit; [simpl; split; [discriminate | exact Hall]|].
      pose proof (reconcile_no_panic types osc key ds Hall) as Hnp.
      pose proof (allReplicasSet_reconcile types osc key ds Hall) as Hkeep.
      destruct (reconcile types osc key ds) as [[[e|]|] ds']; simpl in *.
      * apply IH, Hkeep.
      * apply IH, Hkeep.
      * contradiction.
Qed.

Lemma worker_never_panics_witness :
  let store := Fixture.objectStore ObjectStoreStateRunning []
                 (Fixture.statusOf ObjectStoreStateStarting) in
  let dpl := Fixture.deployment (Some 1) Fixture.containers 1 1 0 in
  let ds := Fixture.dataStore [store] [dpl] [Fixture.service] in
  let gets := [(Fixture.key, false); (Fixture.key, false); (EmptyString, true)] in
  allReplicasSet ds
  /\ fst (fst (worker Fixture.types Fixture.osc gets [] ds)) <> WorkerPanicked.
Proof.
  intros store dpl ds gets.
  assert (Hall : allReplicasSet ds).
  { intros k d H. unfold ds, Fixture.dataStore in H. simpl in H.
    apply lookup_insert_Some in H.
    destruct H as [[_ <-] | [_ H]]; [discriminate|].
    rewrite lookup_empty in H. discriminate. }
  split; [exact Hall|].
  apply (proj2 (worker_never_panics Fixture.types Fixture.osc ds Hall) gets []).
Defined.

(** ** Starting *)

Lemma getOrCreatePVC_creates (types : Types) (osc : ObjectStoreController)
    (store : ObjectStore) (ds : DataStore) :
  noFailure ds ->
  PersistentVolumeClaims ds !! genPVCName store = None ->
  let pvc := newPersistentVolumeClaim types osc store in
  getOrCreatePVC types osc store ds =
    (Ok pvc, setState ObjectStoreStateStarting store,
     DS.withPersistentVolumeClaims
       (<[genPVCName store := pvc]> (PersistentVolumeClaims ds))
       (DS.record (ActionCreatePersistentVolumeClaim pvc) ds)).
Proof.
  intros Hnf Hnone pvc.
  apply (proj1 (proj1 (proj2 (getOrCreatePVC_contract types osc store ds))
                  ErrNotFound
                  ltac:(unfold GetPersistentVolumeClaim; rewrite Hnf, Hnone; reflexivity)
                  eq_refl)).
  unfold createPVC, CreatePersistentVolumeClaim, DS.create. simpl.
  rewrite Hnf. fold (genPVCName store). rewrite Hnone. reflexivity.
Qed.

Lemma getOrCreateVolume_creates (types : Types) (osc : ObjectStoreController)
    (store : ObjectStore) (pvc : PersistentVolumeClaim) (ds : DataStore) :
  noFailure ds ->
  Volumes ds !! genPVName store = None ->
  let vol := newVolume osc store pvc in
  getOrCreateVolume osc store pvc ds =
    (Ok vol, setState ObjectStoreStateStarting store,
     DS.withVolumes (<[genPVName store := vol]> (Volumes ds))
       (DS.record (ActionCreateVolume vol) ds)).
Proof.
  intros Hnf Hnone vol.
  apply (proj1 (proj1 (proj2 (getOrCreateVolume_contract types osc pvc store ds))
                  ErrNotFound
                  ltac:(unfold GetVolume; rewrite Hnf, Hnone; reflexivity)
                  eq_refl)).
  unfold createVolume, CreateVolume, DS.create. simpl.
  rewrite Hnf. fold (genPVName store). rewrite Hnone. reflexivity.
Qed.

Lemma getOrCreatePV_creates (types : Types) (osc : ObjectStoreController)
    (store : ObjectStore) (vol : Volume) (ds : DataStore) :
  noFailure ds ->
  PersistentVolumes ds !! genPVName store = None ->
  let pv := newPersistentVolume types osc store vol in
  getOrCreatePV types osc store vol ds =
    (Ok pv, setState ObjectStoreStateStarting store,
     DS.withPersistentVolumes (<[genPVName store := pv]> (PersistentVolumes ds))
       (DS.record (ActionCreatePersistentVolume pv) ds)).
Proof.
  intros Hnf Hnone pv.
  apply (proj1 (proj1 (proj2 (getOrCreatePV_contract types osc vol store ds))
                  ErrNotFound
                  ltac:(unfold GetPersistentVolume; rewrite Hnf, Hnone; reflexivity)
                  eq_refl)).
  unfold createPV, CreatePersistentVolume, DS.create. simpl.
  rewrite Hnf. fold (genPVName store). rewrite Hnone. reflexivity.
Qed.

Lemma getOrCreateDeployment_creates (types : Types) (osc : ObjectStoreController)
    (store : ObjectStore) (ds : DataStore) :
  noFailure ds ->
  Deployments ds !! Name store = None ->
  let dpl := newDeployment types osc store
               (Secrets ds !! Credentials_Name (Spec store))
               (RegistrySecretSetting ds) in
  getOrCreateDeployment types osc store ds =
    (Ok dpl, setState ObjectStoreStateStarting store,
     DS.withDeployments (<[Name store := dpl]> (Deployments ds))
       (DS.record (ActionCreateDeployment dpl) ds)).
Proof.
  intros Hnf Hnone dpl.
  apply (proj1 (proj1 (proj2 (getOrCreateDeployment_contract types osc store ds))
                  ErrNotFound
                  ltac:(unfold GetDeployment; rewrite Hnf, Hnone; reflexivity)
                  eq_refl)).
  unfold createDeployment, GetSecret, GetSetting_RegistrySecret, DS.get.
  rewrite !Hnf.
  assert (Hsecret : match
                      match Secrets ds !! Credentials_Name (Spec store) with
                      | Some a => Ok a
                      | None => Err ErrNotFound
                      end
                    with
                    | Ok s => Some s
                    | Err _ => None
                    end = Secrets ds !! Credentials_Name (Spec store))
    by (destruct (Secrets ds !! Credentials_Name (Spec store)); reflexivity).
  destruct (Secrets ds !! Credentials_Name (Spec store)) as [secret|] eqn:Hs; simpl;
    unfold CreateDeployment, DS.create; simpl; rewrite Hnf, Hnone; reflexivity.
Qed.

Lemma getOrCreateService_creates (types : Types) (osc : ObjectStoreController)
    (store : ObjectStore) (ds : DataStore) :
  noFailure ds ->
  Services ds !! Name store = None ->
  let svc := newService types osc store in
  getOrCreateService types osc store ds =
    (Ok svc, setState ObjectStoreStateStarting store,
     DS.withServices (<[Name store := svc]> (Services ds))
       (DS.record (ActionCreateService svc) ds)).
Proof.
  intros Hnf Hnone svc.
  apply (proj1 (proj1 (proj2 (getOrCreateService_contract types osc store ds))
                  ErrNotFound
                  ltac:(unfold GetService; rewrite Hnf, Hnone; reflexivity)
                  eq_refl)).
  unfold createService, CreateService, DS.create. simpl.
  rewrite Hnf, Hnone. reflexivity.
Qed.

Lemma newIngress_same_name (osc : ObjectStoreController) (store store' : ObjectStore)
    (endpoint : ObjectStoreEndpointSpec) :
  Name store' = Name store ->
  newIngress osc store' endpoint = newIngress osc store endpoint.
Proof.
  intros H. unfold newIngress, ingressName, s3backend, GetOwnerReferencesForObjectStore.
  rewrite H. reflexivity.
Qed.

(** Without API failures the loop over the endpoints succeeds; it leaves
    everything but the ingresses as it was, keeps the state, and every
    call it issues creates the ingress of an endpoint. *)
Lemma s3EndpointsFrom_no_failure (osc : ObjectStoreController)
    (endpoints : list ObjectStoreEndpointSpec) :
  forall ingresses store ds,
    noFailure ds ->
    exists result store' ds' calls,
      s3EndpointsFrom osc endpoints ingresses store ds = (Ok result, store', ds')
      /\ Name store' = Name store
      /\ Spec store' = Spec store
      /\ State (Status store') = State (Status store)
      /\ actions ds' = actions ds ++ calls
      /\ Forall (fun a => exists endpoint,
                   In endpoint endpoints
                   /\ a = ActionCreateIngress (newIngress osc store endpoint)) calls
      /\ PersistentVolumeClaims ds' = PersistentVolumeClaims ds
      /\ Volumes ds' = Volumes ds
      /\ PersistentVolumes ds' = PersistentVolumes ds
      /\ Deployments ds' = Deployments ds
      /\ Services ds' = Services ds.
Proof.
  induction endpoints as [|endpoint rest IH]; intros ingresses store ds Hnf.
  - exists ingresses, store, ds, []. simpl. rewrite app_nil_r. auto 12.
  - cbn [s3EndpointsFrom]. unfold GetIngress, DS.get. rewrite Hnf.
    destruct (Ingresses ds !! ingressName store endpoint) as [found|] eqn:Hfound.
    + destruct (IH (ingresses ++ [found]) store ds Hnf)
        as (r & s' & d' & calls & Hrun & Hn & Hsp & Hst & Hact & Hall & Hrest).
      exists r, s', d', calls. split; [exact Hrun|].
      repeat (split; [assumption|]).
      split; [|exact Hrest].
      eapply Forall_impl; [exact Hall|].
      intros a (ep & Hin & ->). exists ep. split; [right; exact Hin | reflexivity].
    + simpl. unfold CreateIngress, DS.create. simpl. rewrite Hnf.
      change (ing_Name (newIngress osc store endpoint)) with (ingressName store endpoint).
      rewrite Hfound. simpl.
      match goal with
      | |- context [s3EndpointsFrom osc rest ?i ?s ?d] =>
          destruct (IH i s d) as (r & s' & d' & calls & Hrun & Hn & Hsp & Hst & Hact
                                  & Hall & H1 & H2 & H3 & H4 & H5);
          [intros v k n; apply Hnf|]
      end.
      exists r, s', d', (ActionCreateIngress (newIngress osc store endpoint) :: calls).
      split; [exact Hrun|].
      split; [exact Hn|]. split; [exact Hsp|]. split; [exact Hst|].
      split; [rewrite Hact; simpl; rewrite <- app_assoc; reflexivity|].
      split; [|auto].
      constructor.
      * exists endpoint. split; [left; reflexivity | reflexivity].
      * eapply Forall_impl; [exact Hall|].
        intros a (ep & Hin & ->). exists ep. split; [right; exact Hin|].
        reflexivity.
Qed.

Lemma lacking_same_name (osc : ObjectStoreController) (store store' : ObjectStore)
    (endpoints : list ObjectStoreEndpointSpec) :
  Name store' = Name store ->
  forall held, lacking osc held store' endpoints = lacking osc held store endpoints.
Proof.
  intros Hname.
  induction endpoints as [|endpoint rest IH]; intros held; [reflexivity|].
  assert (Hingress : ingressName store' endpoint = ingressName store endpoint)
    by (unfold ingressName; rewrite Hname; reflexivity).
  simpl. rewrite Hingress.
  rewrite (newIngress_same_name osc store store' endpoint Hname).
  destruct (held !! ingressName store endpoint); [apply IH|].
  rewrite IH. reflexivity.
Qed.

(** Without API failures the loop over the endpoints issues one create
    call for each endpoint that lacks an ingress, in the order of the
    endpoints, and no other call. *)
Lemma s3EndpointsFrom_creates_lacking (osc : ObjectStoreController)
    (endpoints : list ObjectStoreEndpointSpec) :
  forall ingresses store ds,
    noFailure ds ->
    actions (snd (s3EndpointsFrom osc endpoints ingresses store ds)) =
      actions ds
      ++ map (fun endpoint => ActionCreateIngress (newIngress osc store endpoint))
             (lacking osc (Ingresses ds) store endpoints).
Proof.
  induction endpoints as [|endpoint rest IH]; intros ingresses store ds Hnf.
  - simpl. symmetry. apply app_nil_r.
  - cbn [s3EndpointsFrom lacking]. unfold GetIngress, DS.get. rewrite Hnf.
    destruct (Ingresses ds !! ingressName store endpoint) as [found|] eqn:Hfound.
    + apply IH. exact Hnf.
    + simpl. unfold CreateIngress, DS.create. simpl. rewrite Hnf.
      change (ing_Name (newIngress osc store endpoint)) with (ingressName store endpoint).
      rewrite Hfound. simpl.
      match goal with
      | |- context [s3EndpointsFrom osc rest ?i ?s ?d] =>
          rewrite (IH i s d) by (intros v k n; apply Hnf);
          rewrite (lacking_same_name osc store s rest eq_refl)
      end.
      simpl. rewrite <- app_assoc. simpl. f_equal.
Qed.

(** X6. The Starting handler on a cluster that holds none of the five
    dependents and answers every call: it creates, in this order, the
    storage claim, the volume owned by that claim, the volume handle for
    that volume, the deployment and the service, each as built from the
    spec, then one ingress for each endpoint that lacks one, in the
    order of the endpoints, and issues no other call; it keeps the state
    at Starting and returns nil, since the claim it has just created is
    not bound yet. *)
Theorem handleStarting_fresh (types : Types) (osc : ObjectStoreController)
    (store : ObjectStore) (ds : DataStore) :
  noFailure ds ->
  PersistentVolumeClaims ds !! genPVCName store = None ->
  Volumes ds !! genPVName store = None ->
  PersistentVolumes ds !! genPVName store = None ->
  Deployments ds !! Name store = None ->
  Services ds !! Name store = None ->
  let pvc := newPersistentVolumeClaim types osc store in
  let vol := newVolume osc store pvc in
  let pv := newPersistentVolume types osc store vol in
  let dpl := newDeployment types osc store
               (Secrets ds !! Credentials_Name (Spec store))
               (RegistrySecretSetting ds) in
  let svc := newService types osc store in
  let store' := snd (fst (handleStarting types osc store ds)) in
  let ds' := snd (handleStarting types osc store ds) in
  fst (fst (handleStarting types osc store ds)) = Return None
  /\ State (Status store') = ObjectStoreStateStarting
  /\ (exists ingressCalls,
        actions ds' =
          actions ds ++
          [ ActionCreatePersistentVolumeClaim pvc; ActionCreateVolume vol;
            ActionCreatePersistentVolume pv; ActionCreateDeployment dpl;
            ActionCreateService svc ] ++ ingressCalls
        /\ Forall (createsEndpointIngress osc store) ingressCalls
        /\ ingressCalls =
             map (fun endpoint => ActionCreateIngress (newIngress osc store endpoint))
                 (lacking osc (Ingresses ds) store (Endpoints (Spec store))))
  /\ PersistentVolumeClaims ds' !! genPVCName store = Some pvc
  /\ Volumes ds' !! genPVName store = Some vol
  /\ PersistentVolumes ds' !! genPVName store = Some pv
  /\ Deployments ds' !! Name store = Some dpl
  /\ Services ds' !! Name store = Some svc.
Proof.
  intros Hnf Hpvc Hvol Hpv Hdpl Hsvc pvc vol pv dpl svc store' ds'.
  subst store' ds'. unfold handleStarting.
  rewrite (getOrCreatePVC_creates types osc store ds Hnf Hpvc). fold pvc.
  set (s1 := setState ObjectStoreStateStarting store).
  set (d1 := DS.withPersistentVolumeClaims _ _).
  assert (Hnf1 : noFailure d1) by (intros v k n; apply Hnf).
  rewrite (getOrCreateVolume_creates types osc s1 pvc d1 Hnf1 Hvol).
  change (newVolume osc s1 pvc) with vol.
  set (s2 := setState ObjectStoreStateStarting s1).
  set (d2 := DS.withVolumes _ _).
  assert (Hnf2 : noFailure d2) by (intros v k n; apply Hnf).
  rewrite (getOrCreatePV_creates types osc s2 vol d2 Hnf2 Hpv).
  change (newPersistentVolume types osc s2 vol) with pv.
  set (s3 := setState ObjectStoreStateStarting s2).
  set (d3 := DS.withPersistentVolumes _ _).
  assert (Hnf3 : noFailure d3) by (intros v k n; apply Hnf).
  rewrite (getOrCreateDeployment_creates types osc s3 d3 Hnf3 Hdpl).
  change (newDeployment types osc s3 _ _) with dpl.
  set (s4 := setState ObjectStoreStateStarting s3).
  set (d4 := DS.withDeployments _ _).
  assert (Hnf4 : noFailure d4) by (intros v k n; apply Hnf).
  rewrite (getOrCreateService_creates types osc s4 d4 Hnf4 Hsvc).
  change (newService types osc s4) with svc.
  set (s5 := setState ObjectStoreStateStarting s4).
  set (d5 := DS.withServices _ _).
  assert (Hnf5 : noFailure d5) by (intros v k n; apply Hnf).
  unfold getOrCreateS3Endpoints.
  destruct (s3EndpointsFrom_no_failure osc (Endpoints (Spec s5)) [] s5 d5 Hnf5)
    as (r & s6 & d6 & calls & Hrun & Hn & Hsp & Hst & Hact & Hall
        & H1 & H2 & H3 & H4 & H5).
  pose proof (s3EndpointsFrom_creates_lacking osc (Endpoints (Spec s5)) [] s5 d5 Hnf5)
    as Hlacking.
  rewrite Hrun in Hlacking. cbn [snd] in Hlacking.
  rewrite Hact in Hlacking. apply app_inv_head in Hlacking.
  rewrite (lacking_same_name osc store s5 _ eq_refl) in Hlacking.
  rewrite Hrun.
  assert (Hunbound : checkPVC pvc <> None) by discriminate.
  destruct (checkPVC pvc) as [e|]; [|contradiction]. simpl.
  split; [reflexivity|].
  split.
  { destruct (length (Status_Endpoints (Status s6)) =? 0)%nat; simpl; exact Hst. }
  split.
  { exists calls. split; [|split].
    - rewrite Hact. simpl. rewrite <- !app_assoc. reflexivity.
    - eapply Forall_impl; [exact Hall|].
      intros a (ep & Hin & ->). exists ep. split; [exact Hin | reflexivity].
    - rewrite Hlacking. apply map_ext. intros endpoint.
      rewrite (newIngress_same_name osc store s5 endpoint eq_refl). reflexivity. }
  rewrite H1, H2, H3, H4, H5. simpl.
  repeat split; apply lookup_insert_eq.
Qed.

Lemma handleStarting_fresh_witness :
  let store := Fixture.objectStore ObjectStoreStateRunning [Fixture.plainEndpoint]
                 (Fixture.statusOf ObjectStoreStateStarting) in
  let ds := Fixture.dataStore [store] [] [] in
  let pvc := newPersistentVolumeClaim Fixture.types Fixture.osc store in
  let vol := newVolume Fixture.osc store pvc in
  noFailure ds
  /\ fst (fst (handleStarting Fixture.types Fixture.osc store ds)) = Return None
  /\ Deployments (snd (handleStarting Fixture.types Fixture.osc store ds))
     !! "test-object-store"
     = Some (newDeployment Fixture.types Fixture.osc store None EmptyString)
  /\ (exists ingressCalls,
        actions (snd (handleStarting Fixture.types Fixture.osc store ds)) =
          actions ds ++
          [ ActionCreatePersistentVolumeClaim pvc; ActionCreateVolume vol;
            ActionCreatePersistentVolume
              (newPersistentVolume Fixture.types Fixture.osc store vol);
            ActionCreateDeployment
              (newDeployment Fixture.types Fixture.osc store
                 (Secrets ds !! Credentials_Name (Spec store)) (RegistrySecretSetting ds));
            ActionCreateService (newService Fixture.types Fixture.osc store) ]
          ++ ingressCalls
        /\ ingressCalls =
             [ActionCreateIngress (newIngress Fixture.osc store Fixture.plainEndpoint)]).
Proof.
  intros store ds pvc vol.
  assert (Hnf : noFailure ds) by (intros v k n; reflexivity).
  destruct (handleStarting_fresh Fixture.types Fixture.osc store ds Hnf
              eq_refl eq_refl eq_refl eq_refl eq_refl)
    as (Hout & _ & (calls & Hact & _ & Hcalls) & _ & _ & _ & Hdpl & _).
  split; [exact Hnf|]. split; [exact Hout|]. split; [exact Hdpl|].
  exists calls. split; [exact Hact|].
  rewrite Hcalls. reflexivity.
Defined.

Lemma checkDeployment_current (types : Types) (dpl : Deployment)
    (store : ObjectStore) (ds : DataStore) :
  deploymentCurrent types store dpl ->
  checkDeployment types dpl store ds = (Return None, store, ds).
Proof.
  intros (Hn & Hready & Himage & Hui). unfold checkDeployment.
  rewrite Hn. simpl.
  rewrite (proj1 (deploymentReady_test dpl) Hready).
  rewrite (updateImage_current _ _ dpl store ds Himage).
  rewrite (updateImage_current _ _ dpl store ds Hui). reflexivity.
Qed.

Lemma s3EndpointsFrom_all_found (osc : ObjectStoreController)
    (endpoints : list ObjectStoreEndpointSpec) :
  forall ingresses store ds,
    Forall (fun endpoint =>
              exists ingress, GetIngress (ingressName store endpoint) ds = Ok ingress)
           endpoints ->
    exists found,
      s3EndpointsFrom osc endpoints ingresses store ds
      = (Ok (ingresses ++ found), store, ds)
      /\ length found = length endpoints.
Proof.
  induction endpoints as [|endpoint rest IH]; intros ingresses store ds Hall.
  - exists []. rewrite app_nil_r. auto.
  - inversion Hall as [|? ? (ingress & Hget) Hrest]; subst.
    cbn [s3EndpointsFrom]. rewrite Hget.
    destruct (IH (ingresses ++ [ingress]) store ds Hrest) as (found & Hrun & Hlen).
    exists (ingress :: found). rewrite Hrun, <- app_assoc. simpl. auto.
Qed.

Lemma handleStarting_healthy (types : Types) (osc : ObjectStoreController)
    (store : ObjectStore) (ds : DataStore) :
  dependentsHealthy types store ds ->
  ingressesFound store ds ->
  handleStarting types osc store ds =
    (Return None,
     setState ObjectStoreStateRunning (withInternalEndpoint osc store), ds).
Proof.
  intros (pvc & vol & pv & dpl & svc & Hpvc & Hbound & Hvol & Hrobust & Hpv & Hpvb
          & Hdpl & Hcurrent & Hsvc) Hing.
  unfold handleStarting, getOrCreatePVC, getOrCreateVolume, getOrCreatePV,
    getOrCreateDeployment, getOrCreateService, getOrCreateS3Endpoints.
  rewrite Hpvc, Hvol, Hpv, Hdpl, Hsvc.
  destruct (s3EndpointsFrom_all_found osc (Endpoints (Spec store)) [] store ds Hing)
    as (found & Hrun & _).
  rewrite Hrun.
  rewrite (proj2 (checkPVC_None pvc) Hbound).
  rewrite (proj2 (checkVolume_None vol) Hrobust).
  rewrite (proj2 (checkPV_None pv) Hpvb).
  fold (withInternalEndpoint osc store).
  rewrite checkDeployment_current; [reflexivity|].
  unfold withInternalEndpoint.
  destruct (length (Status_Endpoints (Status store)) =? 0)%nat; exact Hcurrent.
Qed.

(** X7. A pass over an ObjectStore in state Starting or Error whose five
    dependents are found and healthy and whose endpoints all have their
    ingress: it creates and updates nothing, moves the state to Running,
    adds the cluster-internal endpoint when the status lists none, and
    its single write is that status. *)
Theorem reconcile_starting_to_running (types : Types) (osc : ObjectStoreController)
    (key ns name : string) (store : ObjectStore) (ds : DataStore) :
  SplitMetaNamespaceKey key = Ok (ns, name) ->
  GetObjectStore name ds = Ok store ->
  isResponsibleFor osc store ds = true ->
  IsZero (DeletionTimestamp store) = true ->
  State (Status store) = ObjectStoreStateStarting
  \/ State (Status store) = ObjectStoreStateError ->
  dependentsHealthy types store ds ->
  ingressesFound store ds ->
  let running := setState ObjectStoreStateRunning (withInternalEndpoint osc store) in
  reconcile types osc key ds = (Return None, snd (UpdateObjectStoreStatus running ds))
  /\ actions (snd (UpdateObjectStoreStatus running ds)) =
       actions ds ++ [ActionUpdateObjectStoreStatus (Name store) (Status running)]
  /\ dependents (snd (UpdateObjectStoreStatus running ds)) = dependents ds.
Proof.
  intros Hkey Hget Hresp Hdel Hstate Hhealthy Hing running.
  rewrite (reconcile_dispatch types osc key ns name store ds Hkey Hget Hresp).
  assert (Hd : dispatch types osc store ds = handleStarting types osc store ds).
  { unfold dispatch. rewrite Hdel. simpl. destruct Hstate as [-> | ->]; reflexivity. }
  rewrite Hd, (handleStarting_healthy types osc store ds Hhealthy Hing). simpl.
  fold running.
  assert (Hname : Name running = Name store).
  { unfold running, withInternalEndpoint.
    destruct (length (Status_Endpoints (Status store)) =? 0)%nat; reflexivity. }
  rewrite writeBackStatus_changed.
  - split; [reflexivity|].
    destruct (UpdateObjectStoreStatus_frame running ds) as [Hdep Hact].
    rewrite Hact, Hname. auto.
  - intros Heq. apply (f_equal State) in Heq.
    unfold running in Heq. simpl in Heq.
    destruct Hstate as [Hs | Hs]; rewrite Hs in Heq; discriminate.
Qed.

(** X8. A pass over a Running ObjectStore whose target state is not
    Stopped and whose five dependents are found and healthy returns nil
    and hands the datastore back untouched: no status write, no update,
    no create. *)
Theorem reconcile_running_steady (types : Types) (osc : ObjectStoreController)
    (key ns name : string) (store : ObjectStore) (ds : DataStore) :
  SplitMetaNamespaceKey key = Ok (ns, name) ->
  GetObjectStore name ds = Ok store ->
  isResponsibleFor osc store ds = true ->
  IsZero (DeletionTimestamp store) = true ->
  State (Status store) = ObjectStoreStateRunning ->
  TargetState (Spec store) <> ObjectStoreStateStopped ->
  dependentsHealthy types store ds ->
  reconcile types osc key ds = (Return None, ds).
Proof.
  intros Hkey Hget Hresp Hdel Hstate Htarget
         (pvc & vol & pv & dpl & svc & Hpvc & Hbound & Hvol & Hrobust & Hpv & Hpvb
          & Hdpl & Hcurrent & Hsvc).
  rewrite (reconcile_dispatch types osc key ns name store ds Hkey Hget Hresp).
  assert (Hd : dispatch types osc store ds = (Return None, store, ds)).
  { unfold dispatch. rewrite Hdel, Hstate. simpl. unfold handleRunning.
    rewrite bool_decide_eq_false_2 by assumption.
    rewrite Hdpl, (checkDeployment_current types dpl store ds Hcurrent).
    rewrite Hsvc, Hpvc, (proj2 (checkPVC_None pvc) Hbound).
    rewrite Hvol, (proj2 (checkVolume_None vol) Hrobust).
    rewrite Hpv, (proj2 (checkPV_None pv) Hpvb). reflexivity. }
  rewrite Hd. simpl. rewrite writeBackStatus_same. reflexivity.
Qed.

Lemma healthy_fixture (store : ObjectStore) :
  Name store = Fixture.TestObjectStoreName ->
  Image (Spec store) = Fixture.TestObjectStoreImage ->
  UIImage (Spec store) = Fixture.TestObjectStoreUIImage ->
  dependentsHealthy Fixture.types store (Healthy.dataStore store).
Proof.
  intros Hname Himage Hui.
  exists Healthy.claim, Healthy.volume, Healthy.handle, Healthy.deployment,
    Fixture.service.
  unfold genPVCName, genPVName, deploymentCurrent. rewrite Hname, Himage, Hui.
  repeat split; try reflexivity; discriminate.
Defined.

Lemma reconcile_starting_to_running_witness :
  let store := Fixture.objectStore ObjectStoreStateRunning [] 
                 {| State := ObjectStoreStateStarting; Status_Endpoints := [] |} in
  let ds := Healthy.dataStore store in
  reconcile Fixture.types Fixture.osc Fixture.key ds =
    (Return None,
     snd (UpdateObjectStoreStatus
            (setState ObjectStoreStateRunning (withInternalEndpoint Fixture.osc store))
            ds))
  /\ Status (setState ObjectStoreStateRunning (withInternalEndpoint Fixture.osc store))
     = Fixture.statusOf ObjectStoreStateRunning.
Proof.
  intros store ds.
  split; [|reflexivity].
  apply (reconcile_starting_to_running Fixture.types Fixture.osc Fixture.key
           "default" "test-object-store" store ds
           eq_refl eq_refl eq_refl eq_refl (or_introl eq_refl)
           (healthy_fixture store eq_refl eq_refl eq_refl)
           (Forall_nil_2 _)).
Defined.

Lemma reconcile_running_steady_witness :
  let store := Fixture.objectStore ObjectStoreStateRunning []
                 (Fixture.statusOf ObjectStoreStateRunning) in
  let ds := Healthy.dataStore store in
  reconcile Fixture.types Fixture.osc Fixture.key ds = (Return None, ds).
Proof.
  intros store ds.
  apply (reconcile_running_steady Fixture.types Fixture.osc Fixture.key
           "default" "test-object-store" store ds
           eq_refl eq_refl eq_refl eq_refl eq_refl ltac:(discriminate)
           (healthy_fixture store eq_refl eq_refl eq_refl)).
Defined.

(** ** Changes of the target state *)

(** X9. A change of the target state is taken up without looking at any
    dependent, whatever the datastore would answer: a Running store
    whose target is Stopped becomes Stopping, a Stopped store whose
    target is Running becomes Starting, in both cases with the status
    write as the only call; a Stopped store with any other target is
    left alone. *)
Theorem reconcile_target_change (types : Types) (osc : ObjectStoreController)
    (key ns name : string) (store : ObjectStore) (ds : DataStore) :
  SplitMetaNamespaceKey key = Ok (ns, name) ->
  GetObjectStore name ds = Ok store ->
  isResponsibleFor osc store ds = true ->
  IsZero (DeletionTimestamp store) = true ->
  (State (Status store) = ObjectStoreStateRunning ->
   TargetState (Spec store) = ObjectStoreStateStopped ->
   reconcile types osc key ds =
     (Return None,
      snd (UpdateObjectStoreStatus (setState ObjectStoreStateStopping store) ds)))
  /\ (State (Status store) = ObjectStoreStateStopped ->
      TargetState (Spec store) = ObjectStoreStateRunning ->
      reconcile types osc key ds =
        (Return None,
         snd (UpdateObjectStoreStatus (setState ObjectStoreStateStarting store) ds)))
  /\ (State (Status store) = ObjectStoreStateStopped ->
      TargetState (Spec store) <> ObjectStoreStateRunning ->
      reconcile types osc key ds = (Return None, ds)).
Proof.
  intros Hkey Hget Hresp Hdel.
  rewrite (reconcile_dispatch types osc key ns name store ds Hkey Hget Hresp).
  unfold dispatch. rewrite Hdel. cbn [negb].
  split; [|split].
  - intros Hstate Htarget. rewrite Hstate. unfold handleRunning.
    rewrite bool_decide_eq_true_2 by assumption. simpl.
    rewrite writeBackStatus_changed; [reflexivity|].
    intros Heq. apply (f_equal State) in Heq. simpl in Heq.
    rewrite Hstate in Heq. discriminate.
  - intros Hstate Htarget. rewrite Hstate. unfold handleStopped.
    rewrite bool_decide_eq_true_2 by assumption. simpl.
    rewrite writeBackStatus_changed; [reflexivity|].
    intros Heq. apply (f_equal State) in Heq. simpl in Heq.
    rewrite Hstate in Heq. discriminate.
  - intros Hstate Htarget. rewrite Hstate. unfold handleStopped.
    rewrite bool_decide_eq_false_2 by assumption. simpl.
    rewrite writeBackStatus_same. reflexivity.
Qed.

Lemma reconcile_target_change_witness :
  let stop := Fixture.objectStore ObjectStoreStateStopped []
                (Fixture.statusOf ObjectStoreStateRunning) in
  let start := Fixture.objectStore ObjectStoreStateRunning []
                 (Fixture.statusOf ObjectStoreStateStopped) in
  let parked := Fixture.objectStore ObjectStoreStateStopped []
                  (Fixture.statusOf ObjectStoreStateStopped) in
  let ds store := Fixture.dataStore [store] [] [] in
  reconcile Fixture.types Fixture.osc Fixture.key (ds stop) =
    (Return None,
     snd (UpdateObjectStoreStatus (setState ObjectStoreStateStopping stop) (ds stop)))
  /\ reconcile Fixture.types Fixture.osc Fixture.key (ds start) =
       (Return None,
        snd (UpdateObjectStoreStatus (setState ObjectStoreStateStarting start) (ds start)))
  /\ reconcile Fixture.types Fixture.osc Fixture.key (ds parked)
     = (Return None, ds parked).
Proof.
  intros stop start parked ds.
  split; [|split].
  - apply (proj1 (reconcile_target_change Fixture.types Fixture.osc Fixture.key
                    "default" "test-object-store" stop (ds stop)
                    eq_refl eq_refl eq_refl eq_refl)); reflexivity.
  - apply (proj1 (proj2 (reconcile_target_change Fixture.types Fixture.osc Fixture.key
                    "default" "test-object-store" start (ds start)
                    eq_refl eq_refl eq_refl eq_refl))); reflexivity.
  - apply (proj2 (proj2 (reconcile_target_change Fixture.types Fixture.osc Fixture.key
                    "default" "test-object-store" parked (ds parked)
                    eq_refl eq_refl eq_refl eq_refl))); [reflexivity | discriminate].
Defined.

(** ** Failures on the way *)

(** X10. A pass over a Stopping ObjectStore whose deployment lookup fails,
    not-found included: the pass returns the error wrapped, sets the
    state to Error and writes that status; it issues no other call. *)
Theorem reconcile_stopping_lookup_failure (types : Types)
    (osc : ObjectStoreController) (key ns name : string) (store : ObjectStore)
    (ds : DataStore) (err : error) :
  SplitMetaNamespaceKey key = Ok (ns, name) ->
  GetObjectStore name ds = Ok store ->
  isResponsibleFor osc store ds = true ->
  IsZero (DeletionTimestamp store) = true ->
  State (Status store) = ObjectStoreStateStopping ->
  GetDeployment (Name store) ds = Err err ->
  let failed := setState ObjectStoreStateError store in
  reconcile types osc key ds =
    (Return (Some (ErrWrap err "failed find Deployment to stop")),
     snd (UpdateObjectStoreStatus failed ds))
  /\ actions (snd (UpdateObjectStoreStatus failed ds)) =
       actions ds ++ [ActionUpdateObjectStoreStatus (Name store) (Status failed)].
Proof.
  intros Hkey Hget Hresp Hdel Hstate Hdpl failed.
  rewrite (reconcile_dispatch types osc key ns name store ds Hkey Hget Hresp).
  rewrite (dispatch_Stopping types osc store ds Hdel Hstate).
  unfold handleStopping. rewrite Hdpl. simpl. fold failed.
  rewrite writeBackStatus_changed.
  - split; [reflexivity|]. apply (UpdateObjectStoreStatus_frame failed ds).
  - intros Heq. apply (f_equal State) in Heq. simpl in Heq.
    rewrite Hstate in Heq. discriminate.
Qed.

Lemma reconcile_stopping_lookup_failure_witness :
  let store := Fixture.objectStore ObjectStoreStateStopped []
                 (Fixture.statusOf ObjectStoreStateStopping) in
  let ds := Fixture.dataStore [store] [] [] in
  reconcile Fixture.types Fixture.osc Fixture.key ds =
    (Return (Some (ErrWrap ErrNotFound "failed find Deployment to stop")),
     snd (UpdateObjectStoreStatus (setState ObjectStoreStateError store) ds)).
Proof.
  intros store ds.
  apply (reconcile_stopping_lookup_failure Fixture.types Fixture.osc Fixture.key
           "default" "test-object-store" store ds ErrNotFound
           eq_refl eq_refl eq_refl eq_refl eq_refl eq_refl).
Defined.

(** ** The state machine *)

Lemma statusMoved_refl (states : list ObjectStoreState) (store : ObjectStore) :
  statusMoved states store store.
Proof.
  unfold statusMoved. do 4 (split; [reflexivity|]).
  split; [left; reflexivity|]. exists []. symmetry. apply app_nil_r.
Qed.

Lemma statusMoved_trans (states : list ObjectStoreState) (a b c : ObjectStore) :
  statusMoved states a b -> statusMoved states b c -> statusMoved states a c.
Proof.
  intros (N1 & D1 & F1 & S1 & T1 & m1 & E1) (N2 & D2 & F2 & S2 & T2 & m2 & E2).
  unfold statusMoved.
  split; [congruence|]. split; [congruence|]. split; [congruence|].
  split; [congruence|]. split.
  - destruct T2 as [T2|T2]; [|right; exact T2].
    destruct T1 as [T1|T1]; [left; congruence|right; rewrite T2; exact T1].
  - exists (m1 ++ m2). rewrite E2, E1. symmetry. apply app_assoc.
Qed.

Lemma statusMoved_mono (states states' : list ObjectStoreState) (a b : ObjectStore) :
  incl states states' -> statusMoved states a b -> statusMoved states' a b.
Proof.
  intros Hincl (N & D & F & S & T & E).
  unfold statusMoved. do 4 (split; [assumption|]). split; [|exact E].
  destruct T as [T|T]; [left; exact T | right; apply Hincl; exact T].
Qed.

Lemma statusMoved_setState (states : list ObjectStoreState) (s : ObjectStoreState)
    (store : ObjectStore) :
  In s states -> statusMoved states store (setState s store).
Proof.
  intros Hin. unfold statusMoved. simpl. do 4 (split; [reflexivity|]).
  split; [right; exact Hin|]. exists []. symmetry. apply app_nil_r.
Qed.

Lemma statusMoved_appendEndpoint (states : list ObjectStoreState) (e : string)
    (store : ObjectStore) :
  statusMoved states store (appendEndpoint e store).
Proof.
  unfold statusMoved. simpl. do 4 (split; [reflexivity|]).
  split; [left; reflexivity|]. exists [e]. reflexivity.
Qed.

Section Transitions.

Variable types : Types.
Variable osc : ObjectStoreController.
Variable states : list ObjectStoreState.
Hypothesis starting : In ObjectStoreStateStarting states.

Ltac moved_get_or_create getOrCreate :=
  unfold getOrCreate;
  match goal with
  | |- context [match ?lookup with Ok _ => _ | Err _ => _ end] =>
      destruct lookup; [apply statusMoved_refl|]
  end;
  match goal with
  | |- context [ErrorIsNotFound ?err] =>
      destruct (ErrorIsNotFound err); [|apply statusMoved_refl]
  end;
  match goal with
  | |- context [match ?create with (_, _) => _ end] =>
      destruct create as [[?|?] ?]; [|apply statusMoved_refl]
  end;
  simpl;
  match goal with
  | |- context [negb ?b] =>
      destruct b;
      [apply statusMoved_refl | apply statusMoved_setState; exact starting]
  end.

Lemma moved_getOrCreatePVC (store : ObjectStore) (ds : DataStore) :
  statusMoved states store (snd (fst (getOrCreatePVC types osc store ds))).
Proof. moved_get_or_create getOrCreatePVC. Qed.

Lemma moved_getOrCreateVolume (store : ObjectStore) (pvc : PersistentVolumeClaim)
    (ds : DataStore) :
  statusMoved states store (snd (fst (getOrCreateVolume osc store pvc ds))).
Proof. moved_get_or_create getOrCreateVolume. Qed.

Lemma moved_getOrCreatePV (store : ObjectStore) (vol : Volume) (ds : DataStore) :
  statusMoved states store (snd (fst (getOrCreatePV types osc store vol ds))).
Proof. moved_get_or_create getOrCreatePV. Qed.

Lemma moved_getOrCreateDeployment (store : ObjectStore) (ds : DataStore) :
  statusMoved states store (snd (fst (getOrCreateDeployment types osc store ds))).
Proof. moved_get_or_create getOrCreateDeployment. Qed.

Lemma moved_getOrCreateService (store : ObjectStore) (ds : DataStore) :
  statusMoved states store (snd (fst (getOrCreateService types osc store ds))).
Proof. moved_get_or_create getOrCreateService. Qed.

Lemma moved_checkDeployment (dpl : Deployment) (store : ObjectStore) (ds : DataStore) :
  statusMoved states store (snd (fst (checkDeployment types dpl store ds))).
Proof.
  destruct (checkDeployment_store types dpl store ds) as [-> | ->].
  - apply statusMoved_refl.
  - apply statusMoved_setState. exact starting.
Qed.

Lemma moved_s3EndpointsFrom (endpoints : list ObjectStoreEndpointSpec) :
  In ObjectStoreStateError states ->
  forall ingresses store ds,
    statusMoved states store
      (snd (fst (s3EndpointsFrom osc endpoints ingresses store ds))).
Proof.
  intros failed.
  induction endpoints as [|endpoint rest IH]; intros ingresses store ds.
  - apply statusMoved_refl.
  - cbn [s3EndpointsFrom].
    destruct (GetIngress (ingressName store endpoint) ds) as [found|err]; [apply IH|].
    destruct (ErrorIsNotFound err); [|apply statusMoved_refl].
    destruct (CreateIngress (newIngress osc store endpoint) ds) as [created ds1].
    destruct (match created with
              | Ok _ => None
              | Err err0 => if negb (ErrorIsAlreadyExists err0) then Some err0 else None
              end).
    + apply statusMoved_setState. exact failed.
    + eapply statusMoved_trans; [apply statusMoved_appendEndpoint | apply IH].
Qed.

Lemma moved_handleStarting (store : ObjectStore) (ds : DataStore) :
  In ObjectStoreStateError states ->
  In ObjectStoreStateRunning states ->
  statusMoved states store (snd (fst (handleStarting types osc store ds))).
Proof.
  intros failed running.
  unfold handleStarting.
  pose proof (moved_getOrCreatePVC store ds) as A1.
  destruct (getOrCreatePVC types osc store ds) as [[[pvc|e] s1] d1];
    simpl in A1; [|exact A1].
  pose proof (moved_getOrCreateVolume s1 pvc d1) as A2.
  destruct (getOrCreateVolume osc s1 pvc d1) as [[[vol|e] s2] d2]; simpl in A2;
    pose proof (statusMoved_trans _ _ _ _ A1 A2) as B2; [|exact B2].
  pose proof (moved_getOrCreatePV s2 vol d2) as A3.
  destruct (getOrCreatePV types osc s2 vol d2) as [[[pv|e] s3] d3]; simpl in A3;
    pose proof (statusMoved_trans _ _ _ _ B2 A3) as B3; [|exact B3].
  pose proof (moved_getOrCreateDeployment s3 d3) as A4.
  destruct (getOrCreateDeployment types osc s3 d3) as [[[dpl|e] s4] d4]; simpl in A4;
    pose proof (statusMoved_trans _ _ _ _ B3 A4) as B4; [|exact B4].
  pose proof (moved_getOrCreateService s4 d4) as A5.
  destruct (getOrCreateService types osc s4 d4) as [[[svc|e] s5] d5]; simpl in A5;
    pose proof (statusMoved_trans _ _ _ _ B4 A5) as B5; [|exact B5].
  pose proof (moved_s3EndpointsFrom (Endpoints (Spec s5)) failed [] s5 d5) as A6.
  unfold getOrCreateS3Endpoints.
  destruct (s3EndpointsFrom osc (Endpoints (Spec s5)) [] s5 d5)
    as [[[endpoints|e] s6] d6]; simpl in A6;
    pose proof (statusMoved_trans _ _ _ _ B5 A6) as B6; [|exact B6].
  assert (B7 : statusMoved states store
                 (if Nat.eqb (length (Status_Endpoints (Status s6))) 0
                  then appendEndpoint (Name s6 +:+ "." +:+ namespace osc +:+ ".svc") s6
                  else s6)).
  { destruct (Nat.eqb _ 0); [|exact B6].
    eapply statusMoved_trans; [exact B6 | apply statusMoved_appendEndpoint]. }
  cbv zeta.
  destruct (checkPVC pvc); [exact B7|].
  destruct (checkVolume vol); [exact B7|].
  destruct (checkPV pv); [exact B7|].
  match goal with
  | |- context [checkDeployment types dpl ?s d6] =>
      pose proof (moved_checkDeployment dpl s d6) as A7;
      destruct (checkDeployment types dpl s d6) as [[[[e|]|] s7] d7]
  end;
    simpl in A7; pose proof (statusMoved_trans _ _ _ _ B7 A7) as B8;
    try exact B8.
  eapply statusMoved_trans; [exact B8 | apply statusMoved_setState; exact running].
Qed.

Lemma moved_handleRunning (store : ObjectStore) (ds : DataStore) :
  In ObjectStoreStateError states ->
  In ObjectStoreStateStopping states ->
  statusMoved states store (snd (fst (handleRunning types store ds))).
Proof.
  intros failed stopping.
  unfold handleRunning.
  destruct (bool_decide _); [apply statusMoved_setState; exact stopping|].
  destruct (GetDeployment (Name store) ds) as [dpl|e];
    [|apply statusMoved_setState; exact failed].
  pose proof (moved_checkDeployment dpl store ds) as A.
  assert (forall s, statusMoved states store s ->
                    statusMoved states store (setState ObjectStoreStateError s)) as Hfail.
  { intros s Hs. eapply statusMoved_trans; [exact Hs|].
    apply statusMoved_setState. exact failed. }
  destruct (checkDeployment types dpl store ds) as [[[[e|]|] s1] d1]; simpl in A;
    [apply Hfail; exact A | | exact A].
  repeat (break_match; simpl; try (apply Hfail; exact A); try exact A).
Qed.

End Transitions.

Lemma moved_handleStopping (store : ObjectStore) (ds : DataStore) :
  statusMoved [ObjectStoreStateStopped; ObjectStoreStateError] store
    (snd (fst (handleStopping store ds))).
Proof.
  unfold handleStopping.
  destruct (GetDeployment (Name store) ds) as [dpl|e];
    [|apply statusMoved_setState; simpl; auto].
  destruct (match dpl_Replicas dpl with
            | Some replicas => negb (Z.eqb replicas 0)
            | None => false
            end).
  - destruct (UpdateDeployment _ _) as [updated d1]. apply statusMoved_refl.
  - destruct (Z.ltb 0 _); [apply statusMoved_refl|].
    apply statusMoved_setState. simpl. auto.
Qed.

Lemma dispatch_successors (types : Types) (osc : ObjectStoreController)
    (store : ObjectStore) (ds : DataStore) :
  let after := snd (fst (dispatch types osc store ds)) in
  let allowed :=
    successors (negb (IsZero (DeletionTimestamp store))) (State (Status store)) in
  statusMoved allowed store after /\ In (State (Status after)) allowed.
Proof.
  intros after allowed.
  assert (Hhere : IsZero (DeletionTimestamp store) = true ->
                  In (State (Status store)) allowed).
  { intros Hz. unfold allowed. rewrite Hz.
    destruct (State (Status store)); simpl; auto. }
  assert (Hmoved : statusMoved allowed store after
                   /\ (IsZero (DeletionTimestamp store) = false ->
                       State (Status after) = ObjectStoreStateTerminating)).
  { unfold after, allowed, dispatch.
    destruct (IsZero (DeletionTimestamp store)); cbn [negb].
    - split; [|discriminate].
      assert (Hinit : forall states,
                In ObjectStoreStateStarting states ->
                statusMoved states store
                  (snd (fst (let '(err, store) := initializeObjectStore store in
                             (Return err, store, ds))))).
      { intros states Hin. unfold initializeObjectStore.
        destruct (negb (bool_decide _)); simpl;
          [apply statusMoved_setState; exact Hin | apply statusMoved_refl]. }
      destruct (State (Status store)) eqn:Hstate; cbn [successors];
        try (apply Hinit; simpl; auto).
      + apply moved_handleStarting; simpl; auto.
      + apply moved_handleRunning; simpl; auto.
      + pose proof (moved_handleStopping store ds) as A.
        destruct (handleStopping store ds) as [[err s1] d1]. simpl in A |- *.
        eapply statusMoved_mono; [|exact A].
        intros x Hx. simpl in Hx |- *. tauto.
      + unfold handleStopped. destruct (bool_decide _); simpl;
          [apply statusMoved_setState; simpl; auto | apply statusMoved_refl].
      + apply moved_handleStarting; simpl; auto.
    - destruct (bool_decide (State (Status store) = ObjectStoreStateTerminating))
        eqn:Hterm; cbn [negb].
      + apply bool_decide_eq_true_1 in Hterm.
        destruct (handleTerminating store ds) as [err d1]. simpl.
        split; [apply statusMoved_refl | intros _; exact Hterm].
      + simpl. split; [|reflexivity].
        apply statusMoved_setState. simpl. auto. }
  destruct Hmoved as [Hmoved Hdeleted]. split; [exact Hmoved|].
  destruct (IsZero (DeletionTimestamp store)) eqn:Hz.
  - destruct Hmoved as (_ & _ & _ & _ & [Hs|Hs] & _); [|exact Hs].
    rewrite Hs. apply Hhere. reflexivity.
  - rewrite (Hdeleted eq_refl). unfold allowed. simpl. auto.
Qed.

(** X11. The state machine. Whatever the datastore answers, the calls a
    pass adds to the log hold at most one status write, the last call;
    it is for the ObjectStore the key names and carries a state the
    state found allows: Terminating for an ObjectStore marked for
    deletion; else Starting, Running or Error from Starting and Error,
    Stopping, Error or Starting from Running, Stopped or Error from
    Stopping, Starting from Stopped and from an unset or unknown state,
    or the state found when an endpoint was added. The endpoint list
    written is the one found, extended at its end. *)
Theorem reconcile_transitions (types : Types) (osc : ObjectStoreController)
    (key ns name : string) (store : ObjectStore) (ds : DataStore) :
  SplitMetaNamespaceKey key = Ok (ns, name) ->
  GetObjectStore name ds = Ok store ->
  exists calls,
    actions (snd (reconcile types osc key ds)) = actions ds ++ calls
    /\ forall before n status after,
         calls = before ++ ActionUpdateObjectStoreStatus n status :: after ->
         after = []
         /\ Forall (fun a => ~ isStatusWrite a) before
         /\ n = Name store
         /\ status <> Status store
         /\ In (State status)
              (successors (negb (IsZero (DeletionTimestamp store)))
                          (State (Status store)))
         /\ exists more,
              Status_Endpoints status = Status_Endpoints (Status store) ++ more.
Proof.
  intros Hkey Hget.
  destruct (isResponsibleFor osc store ds) eqn:Hresp.
  2:{ exists []. split.
      - unfold reconcile. rewrite Hkey, Hget, Hresp. simpl. symmetry. apply app_nil_r.
      - intros before n status after Heq. destruct before; discriminate. }
  rewrite (reconcile_dispatch types osc key ns name store ds Hkey Hget Hresp).
  cbn [snd].
  pose proof (advances_dispatch types osc store ds) as (calls & Hcalls & Hnone & _).
  pose proof (dispatch_successors types osc store ds) as Hsucc.
  destruct (dispatch types osc store ds) as [[out store'] ds'].
  cbn [fst snd] in Hcalls, Hsucc |- *.
  destruct Hsucc as [(Hname & _ & _ & _ & _ & Hmore) Hin].
  unfold writeBackStatus.
  destruct (bool_decide (Status store = Status store')) eqn:Hsame.
  - exists calls. split; [exact Hcalls|].
    intros before n status after Heq. exfalso.
    rewrite Heq in Hnone. apply Forall_app in Hnone. destruct Hnone as [_ Hnone].
    inversion Hnone as [|a l Ha _]. apply Ha. exact I.
  - apply bool_decide_eq_false_1 in Hsame.
    exists (calls ++ [ActionUpdateObjectStoreStatus (Name store') (Status store')]).
    split.
    { rewrite (proj2 (UpdateObjectStoreStatus_frame store' ds')), Hcalls.
      symmetry. apply app_assoc. }
    intros before n status after Heq.
    assert (Hlast : after = []
                    /\ before = calls
                    /\ n = Name store' /\ status = Status store').
    { destruct after as [|a after] using rev_ind.
      - apply app_inj_tail in Heq. destruct Heq as [-> Heq].
        inversion Heq. auto.
      - exfalso. clear IHafter.
        change (before ++ ActionUpdateObjectStoreStatus n status :: after ++ [a])
          with (before ++ (ActionUpdateObjectStoreStatus n status :: after) ++ [a])
          in Heq.
        rewrite app_assoc in Heq. apply app_inj_tail in Heq.
        destruct Heq as [Heq _]. rewrite Heq in Hnone.
        apply Forall_app in Hnone. destruct Hnone as [_ Hnone].
        inversion Hnone as [|a' l Ha _]. apply Ha. exact I. }
    destruct Hlast as (-> & -> & -> & ->).
    split; [reflexivity|]. split; [exact Hnone|]. split; [exact Hname|].
    split; [congruence|]. split; [exact Hin | exact Hmore].
Qed.

Lemma reconcile_transitions_witness :
  let store := Fixture.objectStore ObjectStoreStateRunning []
                 {| State := ObjectStoreStateStarting; Status_Endpoints := [] |} in
  let ds := Healthy.dataStore store in
  exists calls,
    actions (snd (reconcile Fixture.types Fixture.osc Fixture.key ds)) =
      actions ds ++ calls
    /\ forall before n status after,
         calls = before ++ ActionUpdateObjectStoreStatus n status :: after ->
         after = []
         /\ Forall (fun a => ~ isStatusWrite a) before
         /\ n = Name store
         /\ status <> Status store
         /\ In (State status) (successors false ObjectStoreStateStarting)
         /\ exists more,
              Status_Endpoints status = Status_Endpoints (Status store) ++ more.
Proof.
  intros store ds.
  exact (reconcile_transitions Fixture.types Fixture.osc Fixture.key
           "default" "test-object-store" store ds eq_refl eq_refl).
Defined.

(** ** Passes that wait *)

Lemma checkDeployment_unready (types : Types) (dpl : Deployment)
    (store : ObjectStore) (ds : DataStore) :
  dpl_Replicas dpl = Some 1 -> ~ deploymentReady dpl ->
  checkDeployment types dpl store ds =
    (Return (Some (ErrNew "deployment not ready")), store, ds).
Proof.
  intros Hone Hnot. unfold checkDeployment. rewrite Hone. simpl.
  destruct ((dpl_Status_Replicas dpl =? 0)%Z
            || (0 <? dpl_Status_UnavailableReplicas dpl)%Z) eqn:Htest;
    [reflexivity|].
  exfalso. apply Hnot. apply deploymentReady_test. exact Htest.
Qed.

Lemma handleStarting_waits (types : Types) (osc : ObjectStoreController)
    (store : ObjectStore) (ds : DataStore)
    (pvc : PersistentVolumeClaim) (vol : Volume) (pv : PersistentVolume)
    (dpl : Deployment) (svc : Service) :
  GetPersistentVolumeClaim (genPVCName store) ds = Ok pvc ->
  GetVolume (genPVName store) ds = Ok vol ->
  GetPersistentVolume (genPVName store) ds = Ok pv ->
  GetDeployment (Name store) ds = Ok dpl ->
  GetService (Name store) ds = Ok svc ->
  ingressesFound store ds ->
  unready pvc vol pv dpl ->
  handleStarting types osc store ds = (Return None, withInternalEndpoint osc store, ds).
Proof.
  intros Hpvc Hvol Hpv Hdpl Hsvc Hing Hun.
  unfold handleStarting, getOrCreatePVC, getOrCreateVolume, getOrCreatePV,
    getOrCreateDeployment, getOrCreateService, getOrCreateS3Endpoints.
  rewrite Hpvc, Hvol, Hpv, Hdpl, Hsvc.
  destruct (s3EndpointsFrom_all_found osc (Endpoints (Spec store)) [] store ds Hing)
    as (found & Hrun & _).
  rewrite Hrun. fold (withInternalEndpoint osc store).
  destruct (checkPVC pvc) eqn:C1; [reflexivity|].
  destruct (checkVolume vol) eqn:C2; [reflexivity|].
  destruct (checkPV pv) eqn:C3; [reflexivity|].
  apply checkPVC_None in C1. apply checkVolume_None in C2. apply checkPV_None in C3.
  destruct Hun as [H | [H | [H | [Hone Hnot]]]]; try contradiction.
  rewrite (checkDeployment_unready types dpl _ ds Hone Hnot). reflexivity.
Qed.

(** X12. A pass over an ObjectStore in state Starting or Error whose
    dependents and ingresses are all found, whose status lists an
    endpoint, and one of whose dependents is not ready (claim or volume
    handle not bound, volume faulted, or deployment with one replica
    asked and not ready): it returns nil and leaves the datastore as it
    was, without a status write; the readiness failure is not returned,
    so the worker forgets the key instead of retrying it. *)
Theorem reconcile_starting_waits (types : Types) (osc : ObjectStoreController)
    (key ns name : string) (store : ObjectStore) (ds : DataStore)
    (pvc : PersistentVolumeClaim) (vol : Volume) (pv : PersistentVolume)
    (dpl : Deployment) (svc : Service) (queue : list QueueCall) :
  SplitMetaNamespaceKey key = Ok (ns, name) ->
  GetObjectStore name ds = Ok store ->
  isResponsibleFor osc store ds = true ->
  IsZero (DeletionTimestamp store) = true ->
  State (Status store) = ObjectStoreStateStarting
  \/ State (Status store) = ObjectStoreStateError ->
  GetPersistentVolumeClaim (genPVCName store) ds = Ok pvc ->
  GetVolume (genPVName store) ds = Ok vol ->
  GetPersistentVolume (genPVName store) ds = Ok pv ->
  GetDeployment (Name store) ds = Ok dpl ->
  GetService (Name store) ds = Ok svc ->
  ingressesFound store ds ->
  Status_Endpoints (Status store) <> [] ->
  unready pvc vol pv dpl ->
  reconcile types osc key ds = (Return None, ds)
  /\ processNextWorkItem types osc (key, false) queue ds =
       (Some true, queue ++ [QueueForget key; QueueDone key], ds).
Proof.
  intros Hkey Hget Hresp Hdel Hstate Hpvc Hvol Hpv Hdpl Hsvc Hing Hends Hun.
  assert (Hrun : reconcile types osc key ds = (Return None, ds)).
  { rewrite (reconcile_dispatch types osc key ns name store ds Hkey Hget Hresp).
    assert (Hd : dispatch types osc store ds = handleStarting types osc store ds).
    { unfold dispatch. rewrite Hdel. simpl. destruct Hstate as [-> | ->]; reflexivity. }
    rewrite Hd.
    rewrite (handleStarting_waits types osc store ds pvc vol pv dpl svc
               Hpvc Hvol Hpv Hdpl Hsvc Hing Hun).
    simpl. unfold withInternalEndpoint.
    destruct (Status_Endpoints (Status store)) as [|e l] eqn:He; [contradiction|].
    simpl. rewrite writeBackStatus_same. reflexivity. }
  split; [exact Hrun|].
  unfold processNextWorkItem. rewrite Hrun. reflexivity.
Qed.

Lemma reconcile_starting_waits_witness :
  let store := Fixture.objectStore ObjectStoreStateRunning []
                 (Fixture.statusOf ObjectStoreStateError) in
  let ds := Faulty.pending store in
  let queue := [QueueAdd Fixture.key] in
  reconcile Fixture.types Fixture.osc Fixture.key ds = (Return None, ds)
  /\ processNextWorkItem Fixture.types Fixture.osc (Fixture.key, false) queue ds =
       (Some true, queue ++ [QueueForget Fixture.key; QueueDone Fixture.key], ds).
Proof.
  intros store ds queue.
  apply (reconcile_starting_waits Fixture.types Fixture.osc Fixture.key
           "default" "test-object-store" store ds
           Faulty.pendingClaim Healthy.volume Healthy.handle Healthy.deployment
           Fixture.service queue).
  - reflexivity.
  - reflexivity.
  - reflexivity.
  - reflexivity.
  - right. reflexivity.
  - reflexivity.
  - reflexivity.
  - reflexivity.
  - reflexivity.
  - reflexivity.
  - apply Forall_nil_2.
  - discriminate.
  - left. discriminate.
Defined.

(** ** Lookups that fail *)

(** X13. The two lookups ahead of the handlers meet an API error other
    than not-found. If it is the ObjectStore lookup, the pass returns
    that error as it is and the worker adds the key back rate-limited.
    If it is the volume lookup of the responsibility check, the error is
    dropped: the pass returns nil and the worker forgets the key. In
    both cases no call is made and the datastore is as before. *)
Theorem processNextWorkItem_lookup_errors (types : Types)
    (osc : ObjectStoreController) (key ns name : string) (ds : DataStore)
    (queue : list QueueCall) :
  SplitMetaNamespaceKey key = Ok (ns, name) ->
  (forall err,
     GetObjectStore name ds = Err err -> ErrorIsNotFound err = false ->
     reconcile types osc key ds = (Return (Some err), ds)
     /\ processNextWorkItem types osc (key, false) queue ds =
          (Some true, queue ++ [QueueAddRateLimited key; QueueDone key], ds))
  /\ (forall store err,
        GetObjectStore name ds = Ok store ->
        GetVolumeRO (genPVName store) ds = Err err -> ErrorIsNotFound err = false ->
        isResponsibleFor osc store ds = false
        /\ reconcile types osc key ds = (Return None, ds)
        /\ processNextWorkItem types osc (key, false) queue ds =
             (Some true, queue ++ [QueueForget key; QueueDone key], ds)).
Proof.
  intros Hkey. split.
  - intros err Hget Hnf.
    assert (Hrun : reconcile types osc key ds = (Return (Some err), ds)).
    { unfold reconcile. rewrite Hkey, Hget, Hnf. reflexivity. }
    split; [exact Hrun|]. unfold processNextWorkItem. rewrite Hrun. reflexivity.
  - intros store err Hget Hvol Hnf.
    assert (Hresp : isResponsibleFor osc store ds = false).
    { unfold isResponsibleFor. rewrite Hvol, Hnf. reflexivity. }
    assert (Hrun : reconcile types osc key ds = (Return None, ds)).
    { unfold reconcile. rewrite Hkey, Hget, Hresp. reflexivity. }
    split; [exact Hresp|]. split; [exact Hrun|].
    unfold processNextWorkItem. rewrite Hrun. reflexivity.
Qed.

Lemma processNextWorkItem_lookup_errors_witness :
  let store := Fixture.objectStore ObjectStoreStateRunning []
                 (Fixture.statusOf ObjectStoreStateRunning) in
  let ds := Fixture.dataStore [store] [] [] in
  let ds1 := DS.withFailure Faulty.storeLookup ds in
  let ds2 := DS.withFailure Faulty.volumeLookup ds in
  processNextWorkItem Fixture.types Fixture.osc (Fixture.key, false) [] ds1 =
    (Some true, [QueueAddRateLimited Fixture.key; QueueDone Fixture.key], ds1)
  /\ processNextWorkItem Fixture.types Fixture.osc (Fixture.key, false) [] ds2 =
       (Some true, [QueueForget Fixture.key; QueueDone Fixture.key], ds2).
Proof.
  intros store ds ds1 ds2. split.
  - apply (proj1 (processNextWorkItem_lookup_errors Fixture.types Fixture.osc
                    Fixture.key "default" "test-object-store" ds1 [] eq_refl)
             (ErrAPI "etcdserver: request timed out")); reflexivity.
  - apply (proj2 (processNextWorkItem_lookup_errors Fixture.types Fixture.osc
                    Fixture.key "default" "test-object-store" ds2 [] eq_refl)
             store (ErrAPI "etcdserver: request timed out")); reflexivity.
Defined.

(** ** The work queue *)

Lemma doneKeys_app (a b : list QueueCall) :
  doneKeys (a ++ b) = doneKeys a ++ doneKeys b.
Proof. apply flat_map_app. Qed.

Lemma settledKeys_app (a b : list QueueCall) :
  settledKeys (a ++ b) = settledKeys a ++ settledKeys b.
Proof. apply flat_map_app. Qed.

Lemma addedKeys_app (a b : list QueueCall) :
  addedKeys (a ++ b) = addedKeys a ++ addedKeys b.
Proof. apply flat_map_app. Qed.

(** X14. The queue discipline of a worker that does not end in a panic:
    the calls it makes on the queue mark every key it took as done,
    once and in the order taken, and settle every such key once, by
    forgetting it or by adding it back rate-limited; it never adds a key
    at once. It returns exactly when the queue told it to quit. *)
Theorem worker_queue_discipline (types : Types) (osc : ObjectStoreController)
    (gets : list (string * bool)) (queue : list QueueCall) (ds : DataStore) :
  fst (fst (worker types osc gets queue ds)) <> WorkerPanicked ->
  exists calls,
    snd (fst (worker types osc gets queue ds)) = queue ++ calls
    /\ doneKeys calls = taken gets
    /\ settledKeys calls = taken gets
    /\ addedKeys calls = []
    /\ (fst (fst (worker types osc gets queue ds)) = WorkerReturned
        <-> Exists (fun got => snd got = true) gets).
Proof.
  revert queue ds.
  induction gets as [|[key quit] rest IH]; intros queue ds Hend.
  - exists []. simpl. rewrite app_nil_r.
    do 4 (split; [reflexivity|]).
    split; [discriminate | intros H; inversion H].
  - cbn [worker processNextWorkItem] in Hend |- *.
    destruct quit.
    + exists []. simpl. rewrite app_nil_r.
      do 4 (split; [reflexivity|]).
      split; [intros _; left; reflexivity | reflexivity].
    + destruct (reconcile types osc key ds) as [[[e|]|] ds']; cbn [fst snd] in Hend |- *;
        [| |contradiction].
      * destruct (IH _ ds' Hend) as (calls & Hq & Hd & Hs & Ha & Hr).
        exists ([QueueAddRateLimited key; QueueDone key] ++ calls).
        rewrite Hq, doneKeys_app, settledKeys_app, addedKeys_app, Hd, Hs, Ha.
        split; [symmetry; apply app_assoc|].
        do 3 (split; [reflexivity|]).
        rewrite Hr. split; [intros H; right; exact H|].
        intros H. inversion H as [? ? Hq'|? ? Hq']; [discriminate | exact Hq'].
      * destruct (IH _ ds' Hend) as (calls & Hq & Hd & Hs & Ha & Hr).
        exists ([QueueForget key; QueueDone key] ++ calls).
        rewrite Hq, doneKeys_app, settledKeys_app, addedKeys_app, Hd, Hs, Ha.
        split; [symmetry; apply app_assoc|].
        do 3 (split; [reflexivity|]).
        rewrite Hr. split; [intros H; right; exact H|].
        intros H. inversion H as [? ? Hq'|? ? Hq']; [discriminate | exact Hq'].
Qed.

Lemma worker_queue_discipline_witness :
  let store := Fixture.objectStore ObjectStoreStateRunning []
                 (Fixture.statusOf ObjectStoreStateStarting) in
  let ds := Healthy.dataStore store in
  let gets := [(Fixture.key, false); ("a/b/c", false); (EmptyString, true)] in
  exists calls,
    snd (fst (worker Fixture.types Fixture.osc gets [] ds)) = [] ++ calls
    /\ doneKeys calls = [Fixture.key; "a/b/c"]
    /\ settledKeys calls = [Fixture.key; "a/b/c"]
    /\ addedKeys calls = []
    /\ (fst (fst (worker Fixture.types Fixture.osc gets [] ds)) = WorkerReturned
        <-> Exists (fun got => snd got = true) gets).
Proof.
  intros store ds gets.
  apply (worker_queue_discipline Fixture.types Fixture.osc gets [] ds).
  vm_compute. discriminate.
Defined.

(** ** The event router *)

Lemma keyOfObjectStore_splits (osc : ObjectStoreController) (store : ObjectStore) :
  countSlash (namespace osc) = 0%nat -> countSlash (Name store) = 0%nat ->
  SplitMetaNamespaceKey (keyOfObjectStore osc store) = Ok (namespace osc, Name store).
Proof.
  intros Hns Hname. unfold keyOfObjectStore, MetaNamespaceKeyFunc.
  destruct (namespace osc) as [|c rest] eqn:Hosc.
  - simpl. apply SplitMetaNamespaceKey_plain. exact Hname.
  - cbn [String.length Nat.ltb Nat.leb].
    apply SplitMetaNamespaceKey_joined; assumption.
Qed.

(** X15. The handlers of deployment, volume, service and claim events
    add at most one key, and only the key of an ObjectStore the
    datastore served, whatever object they are handed. Each handler
    acts on objects of its own kind only, handed over as they are or
    carried by a tombstone, and handles the tombstone exactly as the
    object it carries; for an object of another kind, a tombstone that
    carries one, or a tombstone in a tombstone, it leaves the queue as
    it is. *)
Theorem router_adds_held_stores (osc : ObjectStoreController) (obj : Object)
    (ds : DataStore) (queue : list QueueCall) (key : string) :
  addsHeldStore osc ds queue (enqueueDeployment osc obj ds queue)
  /\ addsHeldStore osc ds queue (enqueueVolume osc obj ds queue)
  /\ addsHeldStore osc ds queue (enqueueService osc obj ds queue)
  /\ addsHeldStore osc ds queue (enqueuePVC osc obj ds queue)
  /\ match obj with
     | ObjDeployment _ =>
         enqueueDeployment osc (ObjDeletedFinalStateUnknown key obj) ds queue
         = enqueueDeployment osc obj ds queue
     | ObjVolume _ =>
         enqueueVolume osc (ObjDeletedFinalStateUnknown key obj) ds queue
         = enqueueVolume osc obj ds queue
     | ObjService _ =>
         enqueueService osc (ObjDeletedFinalStateUnknown key obj) ds queue
         = enqueueService osc obj ds queue
     | ObjPersistentVolumeClaim _ =>
         enqueuePVC osc (ObjDeletedFinalStateUnknown key obj) ds queue
         = enqueuePVC osc obj ds queue
     | _ =>
         enqueueDeployment osc (ObjDeletedFinalStateUnknown key obj) ds queue = queue
         /\ enqueueVolume osc (ObjDeletedFinalStateUnknown key obj) ds queue = queue
         /\ enqueueService osc (ObjDeletedFinalStateUnknown key obj) ds queue = queue
         /\ enqueuePVC osc (ObjDeletedFinalStateUnknown key obj) ds queue = queue
     end
  /\ enqueueDeployment osc obj ds queue =
       match carried obj with
       | ObjDeployment dpl => enqueueDeployment osc (ObjDeployment dpl) ds queue
       | _ => queue
       end
  /\ enqueueVolume osc obj ds queue =
       match carried obj with
       | ObjVolume vol => enqueueVolume osc (ObjVolume vol) ds queue
       | _ => queue
       end
  /\ enqueueService osc obj ds queue =
       match carried obj with
       | ObjService svc => enqueueService osc (ObjService svc) ds queue
       | _ => queue
       end
  /\ enqueuePVC osc obj ds queue =
       match carried obj with
       | ObjPersistentVolumeClaim pvc =>
           enqueuePVC osc (ObjPersistentVolumeClaim pvc) ds queue
       | _ => queue
       end.
Proof.
  assert (Hstore : forall storeName,
            addsHeldStore osc ds queue
              match GetObjectStoreRO storeName ds with
              | Ok store => queue ++ [QueueAdd (keyOfObjectStore osc store)]
              | Err _ => queue
              end).
  { intros storeName.
    destruct (GetObjectStoreRO storeName ds) as [store|e] eqn:Hget;
      [|left; reflexivity].
    right. exists storeName, store. auto. }
  assert (Hdpl : forall dpl,
            addsHeldStore osc ds queue (enqueueDeployment osc (ObjDeployment dpl) ds queue)).
  { intros dpl. unfold enqueueDeployment.
    destruct (_ || _); [left; reflexivity|].
    destruct (dpl_OwnerReferences dpl) as [|owner rest]; [left; reflexivity|].
    apply Hstore. }
  assert (Hsvc : forall svc,
            addsHeldStore osc ds queue (enqueueService osc (ObjService svc) ds queue)).
  { intros svc. unfold enqueueService.
    destruct (_ || _); [left; reflexivity|].
    destruct (svc_OwnerReferences svc) as [|owner rest]; [left; reflexivity|].
    apply Hstore. }
  assert (Hpvc : forall pvc,
            addsHeldStore osc ds queue
              (enqueuePVC osc (ObjPersistentVolumeClaim pvc) ds queue)).
  { intros pvc. unfold enqueuePVC.
    destruct (_ || _); [left; reflexivity|].
    destruct (pvc_OwnerReferences pvc) as [|owner rest]; [left; reflexivity|].
    apply Hstore. }
  assert (Hvol : forall vol,
            addsHeldStore osc ds queue (enqueueVolume osc (ObjVolume vol) ds queue)).
  { intros vol. unfold enqueueVolume.
    destruct (_ || _); [left; reflexivity|].
    destruct (vol_OwnerReferences vol) as [|owner rest]; [left; reflexivity|].
    destruct (GetPersistentVolumeClaimRO (owner_Name owner) ds) as [pvc|e];
      [|left; reflexivity].
    destruct (Nat.ltb _ 1); [left; reflexivity|].
    destruct (pvc_OwnerReferences pvc) as [|owner' rest']; [left; reflexivity|].
    apply Hstore. }
  split; [|split; [|split; [|split; [|split; [|split; [|split; [|split]]]]]]].
  - destruct obj as [| | | | |k inner|]; try (left; reflexivity); [apply Hdpl|].
    destruct inner; try (left; reflexivity). apply Hdpl.
  - destruct obj as [| | | | |k inner|]; try (left; reflexivity); [apply Hvol|].
    destruct inner; try (left; reflexivity). apply Hvol.
  - destruct obj as [| | | | |k inner|]; try (left; reflexivity); [apply Hsvc|].
    destruct inner; try (left; reflexivity). apply Hsvc.
  - destruct obj as [| | | | |k inner|]; try (left; reflexivity); [apply Hpvc|].
    destruct inner; try (left; reflexivity). apply Hpvc.
  - destruct obj; try reflexivity; auto.
  - destruct obj as [| | | | |k inner|]; try reflexivity. destruct inner; reflexivity.
  - destruct obj as [| | | | |k inner|]; try reflexivity. destruct inner; reflexivity.
  - destruct obj as [| | | | |k inner|]; try reflexivity. destruct inner; reflexivity.
  - destruct obj as [| | | | |k inner|]; try reflexivity. destruct inner; reflexivity.
Qed.

(** X16. The owner links the controller writes lead the events of its
    dependents back to the ObjectStore. For an ObjectStore the datastore
    serves, with no slash in its name or in the namespace: an event for
    the deployment, the service or the claim as the controller builds
    them adds the key of the ObjectStore; so does an event for a volume
    this controller owns whose owner link is the one the controller
    writes, the claim being found with its owner link; and reconcile
    splits that key back into the name of the ObjectStore. *)
Theorem router_round_trip (types : Types) (osc : ObjectStoreController)
    (store : ObjectStore) (ds : DataStore) (queue : list QueueCall)
    (secret : option Secret) (registrySecret : string)
    (vol : Volume) (claim : PersistentVolumeClaim) :
  countSlash (namespace osc) = 0%nat ->
  countSlash (Name store) = 0%nat ->
  GetObjectStoreRO (Name store) ds = Ok store ->
  let key := keyOfObjectStore osc store in
  let pvc := newPersistentVolumeClaim types osc store in
  SplitMetaNamespaceKey key = Ok (namespace osc, Name store)
  /\ enqueueDeployment osc
       (ObjDeployment (newDeployment types osc store secret registrySecret)) ds queue
     = queue ++ [QueueAdd key]
  /\ enqueueService osc (ObjService (newService types osc store)) ds queue
     = queue ++ [QueueAdd key]
  /\ enqueuePVC osc (ObjPersistentVolumeClaim pvc) ds queue = queue ++ [QueueAdd key]
  /\ (vol_OwnerReferences vol = vol_OwnerReferences (newVolume osc store pvc) ->
      vol_Status_OwnerID vol = controllerID osc ->
      GetPersistentVolumeClaimRO (genPVCName store) ds = Ok claim ->
      pvc_OwnerReferences claim = pvc_OwnerReferences pvc ->
      enqueueVolume osc (ObjVolume vol) ds queue = queue ++ [QueueAdd key]).
Proof.
  intros Hns Hname Hget key pvc.
  split; [apply keyOfObjectStore_splits; assumption|].
  split; [|split; [|split]].
  - unfold enqueueDeployment. simpl. rewrite String.eqb_refl. simpl.
    rewrite Hget. reflexivity.
  - unfold enqueueService. simpl. rewrite String.eqb_refl. simpl.
    rewrite Hget. reflexivity.
  - unfold enqueuePVC. simpl. rewrite String.eqb_refl. simpl.
    rewrite Hget. reflexivity.
  - intros Hown Hid Hclaim Hlink.
    unfold enqueueVolume. rewrite Hown, Hid. simpl.
    rewrite String.eqb_refl. simpl.
    change ("pvc-" +:+ Name store) with (genPVCName store).
    rewrite Hclaim, Hlink. simpl. rewrite Hget. reflexivity.
Qed.

Lemma router_round_trip_witness :
  let store := Fixture.objectStore ObjectStoreStateRunning []
                 (Fixture.statusOf ObjectStoreStateRunning) in
  let ds := Healthy.dataStore store in
  let dpl := newDeployment Fixture.types Fixture.osc store None EmptyString in
  SplitMetaNamespaceKey Fixture.key = Ok ("default", "test-object-store")
  /\ enqueueDeployment Fixture.osc (ObjDeployment dpl) ds [] = [QueueAdd Fixture.key]
  /\ enqueueVolume Fixture.osc (ObjVolume Healthy.volume) ds [] = [QueueAdd Fixture.key].
Proof.
  intros store ds dpl.
  pose proof (router_round_trip Fixture.types Fixture.osc store ds [] None EmptyString
                Healthy.volume Healthy.claim eq_refl eq_refl eq_refl)
    as (Hsplit & Hdpl & _ & _ & Hvol).
  split; [exact Hsplit|]. split; [exact Hdpl|].
  apply Hvol; reflexivity.
Defined.

(** ** The snapshot proxy *)

Lemma copy_is_received {A : Type} (recv : gmap string A) :
  map_fold (fun k v copied => <[k := v]> copied) ∅ recv = recv.
Proof.
  apply (map_fold_weak_ind (fun copied m => copied = m)); [reflexivity|].
  intros k v m copied _ ->. reflexivity.
Qed.

(** X17. The proxy hands on what the engine client answers. The copy
    loops of SnapshotList and SnapshotPurgeStatus return a map with the
    entries received, no more and no fewer, and an error as it came.
    SnapshotGet answers from that list: the entry under the name, and a
    nil snapshot with a nil error for a name the list does not hold. *)
Theorem proxy_forwards (Engine Snapshot PurgeStatus : Type)
    (DirectToURL : Engine -> string)
    (grpc_SnapshotList : string -> result (gmap string (option Snapshot)))
    (grpc_SnapshotPurgeStatus : string -> result (gmap string (option PurgeStatus)))
    (e : Engine) (name : string) :
  Proxy.SnapshotList Engine Snapshot DirectToURL grpc_SnapshotList e
  = grpc_SnapshotList (DirectToURL e)
  /\ Proxy.SnapshotPurgeStatus Engine PurgeStatus DirectToURL grpc_SnapshotPurgeStatus e
     = grpc_SnapshotPurgeStatus (DirectToURL e)
  /\ Proxy.SnapshotGet Engine Snapshot DirectToURL grpc_SnapshotList e name
     = match grpc_SnapshotList (DirectToURL e) with
       | Err err => Err err
       | Ok recv =>
           match recv !! name with
           | Some (Some snapshot) => Ok (Some snapshot)
           | Some None | None => Ok None
           end
       end.
Proof.
  assert (Hlist : Proxy.SnapshotList Engine Snapshot DirectToURL grpc_SnapshotList e
                  = grpc_SnapshotList (DirectToURL e)).
  { unfold Proxy.SnapshotList.
    destruct (grpc_SnapshotList (DirectToURL e)) as [recv|err]; [|reflexivity].
    rewrite copy_is_received. reflexivity. }
  split; [exact Hlist|]. split.
  - unfold Proxy.SnapshotPurgeStatus.
    destruct (grpc_SnapshotPurgeStatus (DirectToURL e)) as [recv|err]; [|reflexivity].
    rewrite copy_is_received. reflexivity.
  - unfold Proxy.SnapshotGet. rewrite Hlist.
    destruct (grpc_SnapshotList (DirectToURL e)) as [recv|err]; [|reflexivity].
    destruct (recv !! name) as [[snapshot|]|]; reflexivity.
Qed.

(** ** What the controller builds *)




